(** * CAP LTER arthropods dashboard: data preparation, filters and aggregates

    A shallow embedding of [main.py] (the callback dashboard) and
    [streamlit_app.py] (the sidebar variant).  Data frames are lists of
    records together with the list of column names that are present; the
    pandas operations used by the two scripts ([to_numeric], [fillna],
    [astype], [merge], [groupby(...).sum()], [sort_values], [isin],
    [dropna]) are written out as list functions.  Look-ups of a column that
    is absent raise [KeyError], which is threaded through a small error
    monad.  Sample dates are calendar dates.  Text is a string of bytes in
    UTF-8.  Counts are finite numbers whose integer part fits a 64-bit
    integer.  The Shannon index is computed over the real numbers (the
    ideal counterpart of the float64 arithmetic of numpy).  The sort that
    numpy runs inside [sort_values] on the taxon totals is a parameter,
    [sort_kind]: the scripts leave its kind at the default, which does not
    fix the order of equal totals; the same holds of the sort of the
    monthly series in [monthly_ts_by].  The callback is followed up to the
    tables that it hands to its plotting calls. *)

From Stdlib Require Import List String Ascii ZArith QArith Qcanon Bool Lia.
From Stdlib Require Import Permutation Sorted Reals Lra DecimalString.
From Stdlib Require Import RelationClasses OrdersEx.
Import ListNotations.

Local Open Scope string_scope.
Local Open Scope list_scope.
Local Open Scope Z_scope.

(* ================================================================== *)
(** ** Exceptions *)

Inductive error : Type :=
| KeyError (col : string)      (* a column that is not in the frame *)
| ValueError.                  (* a scalar that does not parse *)

Inductive result (A : Type) : Type :=
| Ok (a : A)
| Raise (e : error).
Arguments Ok {A} a.
Arguments Raise {A} e.

Definition bind {A B : Type} (m : result A) (k : A -> result B) : result B :=
  match m with
  | Ok a => k a
  | Raise e => Raise e
  end.

Notation "x <- m ;; k" := (bind m (fun x => k))
  (at level 61, m at next level, right associativity).
Notation "m ;;; k" := (bind m (fun _ => k))
  (at level 61, right associativity).

Fixpoint mapM {A B : Type} (f : A -> result B) (l : list A) : result (list B) :=
  match l with
  | [] => Ok []
  | a :: l' => b <- f a ;; bs <- mapM f l' ;; Ok (b :: bs)
  end.

(* ================================================================== *)
(** ** Group keys

    [groupby] sorts its groups by key.  The keys that occur are strings,
    integers, coordinates and tuples of these, compared lexicographically. *)

Class KeyOrd (K : Type) : Type := {
  kcmp : K -> K -> comparison;
  kcmp_eq : forall a b, kcmp a b = Eq <-> a = b;
  kcmp_antisym : forall a b, kcmp b a = CompOpp (kcmp a b);
  kcmp_trans : forall a b c, kcmp a b = Lt -> kcmp b c = Lt -> kcmp a c = Lt
}.

Definition klt {K} `{KeyOrd K} (a b : K) : Prop := kcmp a b = Lt.
Definition keqb {K} `{KeyOrd K} (a b : K) : bool :=
  match kcmp a b with Eq => true | _ => false end.

#[export, refine] Instance string_KeyOrd : KeyOrd string :=
  {| kcmp := String.compare |}.
Proof.
  - intros a b; split.
    + apply String.compare_eq_iff.
    + intros ->. induction b as [|c b IH]; simpl; [reflexivity|].
      unfold Ascii.compare. now rewrite N.compare_refl.
  - intros a b. rewrite (String.compare_antisym a b).
    now destruct (String.compare b a).
  - intros a b c.
    change (String_as_OT.lt a b -> String_as_OT.lt b c -> String_as_OT.lt a c).
    apply String_as_OT.lt_strorder.
Defined.

#[export, refine] Instance Z_KeyOrd : KeyOrd Z := {| kcmp := Z.compare |}.
Proof.
  - intros a b. apply Z.compare_eq_iff.
  - intros a b. apply Z.compare_antisym.
  - intros a b c. rewrite !Z.compare_lt_iff. lia.
Defined.

#[export, refine] Instance Qc_KeyOrd : KeyOrd Qc := {| kcmp := Qccompare |}.
Proof.
  - intros a b. symmetry. apply Qceq_alt.
  - intros a b. unfold Qccompare. rewrite (Qcompare_antisym a b).
    now destruct (a ?= b)%Q.
  - intros a b c. rewrite <- !Qclt_alt. apply Qclt_trans.
Defined.

Definition pair_cmp {A B} `{KeyOrd A} `{KeyOrd B} (x y : A * B) : comparison :=
  match kcmp (fst x) (fst y) with
  | Eq => kcmp (snd x) (snd y)
  | c => c
  end.

#[export, refine] Instance pair_KeyOrd {A B} `{KeyOrd A} `{KeyOrd B}
  : KeyOrd (A * B) := {| kcmp := pair_cmp |}.
Proof.
  - intros [a1 b1] [a2 b2]; unfold pair_cmp; simpl; split.
    + destruct (kcmp a1 a2) eqn:E; try discriminate.
      intros E'. apply kcmp_eq in E, E'. now subst.
    + intros [= -> ->].
      rewrite (proj2 (kcmp_eq a2 a2) eq_refl). now apply kcmp_eq.
  - intros [a1 b1] [a2 b2]; unfold pair_cmp; simpl.
    rewrite (kcmp_antisym a1 a2).
    destruct (kcmp a1 a2); simpl; auto. apply kcmp_antisym.
  - intros [a1 b1] [a2 b2] [a3 b3]; unfold pair_cmp; simpl.
    destruct (kcmp a1 a2) eqn:E12; try discriminate.
    + apply kcmp_eq in E12; subst a2.
      destruct (kcmp a1 a3) eqn:E13; auto. apply kcmp_trans.
    + destruct (kcmp a2 a3) eqn:E23; try discriminate; intros _ _.
      * apply kcmp_eq in E23; subst a3. now rewrite E12.
      * now rewrite (kcmp_trans _ _ _ E12 E23).
Defined.

(* ================================================================== *)
(** ** Cells, timestamps and records *)

(** A parsed sample date.  [NaT] is [None] at the places that use it. *)
Record Timestamp : Type := { ts_year : Z; ts_month : Z; ts_day : Z }.

Definition ts_compare (a b : Timestamp) : comparison :=
  match ts_year a ?= ts_year b with
  | Eq => match ts_month a ?= ts_month b with
          | Eq => ts_day a ?= ts_day b
          | c => c
          end
  | c => c
  end.

(** [a <= b] on timestamps. *)
Definition ts_leb (a b : Timestamp) : bool :=
  match ts_compare a b with Gt => false | _ => true end.

(** A cell of the [count] column as [read_csv] delivers it: empty, a
    finite number, or text (when the column could not be read as numeric).
    An infinite value is not represented: [astype(int)] raises on it, which
    stops either script while it loads. *)
Inductive cell : Type :=
| CNaN
| CNum (q : Q)
| CStr (s : string).

(** One observation as read from [41_core_arthropods.csv].  Its other
    free-text columns (observer, comments, flags, authority) are trimmed
    like these and read by no filter or aggregate; they are left out. *)
Record RawRecord : Type := {
  raw_site_code : option string;
  raw_display_name : option string;
  raw_trap_name : option string;
  raw_count : cell;
  raw_sample_date : option string
}.

Record RawFrame : Type := { raw_columns : list string; raw_rows : list RawRecord }.

(** One row of [arthros_temporal.csv]: the site key and its numeric
    columns by header name. *)
Record SiteRecord : Type := {
  s_site_code : option string;
  s_value : string -> option Qc
}.

Record SitesFrame : Type := { sites_columns : list string; sites_rows : list SiteRecord }.

(** One row of [site_landuse_from_nlcd.csv]. *)
Record LanduseRecord : Type := {
  lu_site_code : option string;
  lu_landuse : option string
}.

Record LanduseFrame : Type := { lu_columns : list string; lu_rows : list LanduseRecord }.

(** One row of the joined table [arth]. *)
Record Row : Type := {
  site_code : string;
  display_name : string;
  trap_name : string;
  count : Z;
  sample_date : option Timestamp;
  lat : option Qc;
  lon : option Qc;
  landuse : option string;
  region3 : string;
  year : option Z;
  month : string;
  quarter : string
}.

Record DataFrame : Type := { columns : list string; rows : list Row }.

Definition in_cols (c : string) (cols : list string) : bool :=
  existsb (String.eqb c) cols.

Definition has_col (c : string) (df : DataFrame) : bool :=
  in_cols c (columns df).

(** [df[c]] raises when the column is absent. *)
Definition require (c : string) (df : DataFrame) : result unit :=
  if has_col c df then Ok tt else Raise (KeyError c).

(** [df[mask]]: the same columns, the selected rows in their order. *)
Definition select (p : Row -> bool) (df : DataFrame) : DataFrame :=
  {| columns := columns df; rows := filter p (rows df) |}.

(** [df.empty] *)
Definition empty (df : DataFrame) : bool :=
  match rows df with [] => true | _ => false end.

(** [x in l] for a list of strings ([Series.isin]). *)
Definition isin (s : string) (l : list string) : bool :=
  existsb (String.eqb s) l.

Definition isin_Z (z : Z) (l : list Z) : bool :=
  existsb (Z.eqb z) l.

(* ================================================================== *)
(** ** Normalisation of the loaded table *)

(** [astype(int)] on a finite float whose integer part fits [int64]:
    truncation toward zero.  Beyond that range the cast has no defined
    outcome (it depends on the platform); what is proved of a count is
    stated for values within the range, see [fits_int64]. *)
Definition astype_int (q : Q) : Z := Z.quot (Qnum q) (Zpos (Qden q)).

(** [fillna(0)] *)
Definition fillna0 (o : option Q) : Q :=
  match o with Some q => q | None => 0%Q end.

(** [astype(str)]: a missing cell becomes the text "nan". *)
Definition astype_str (o : option string) : string :=
  match o with Some s => s | None => "nan" end.

(** The white-space characters of Python's [str.strip()]: the code points
    U+0009..U+000D, U+001C..U+0020, U+0085, U+00A0, U+1680,
    U+2000..U+200A, U+2028, U+2029, U+202F, U+205F and U+3000.  Text is
    held in its UTF-8 encoding, in which these take one, two or three
    bytes. *)
Definition is_space (c : ascii) : bool :=
  let n := nat_of_ascii c in
  ((9 <=? n) && (n <=? 13) || (n =? 32) || (28 <=? n) && (n <=? 31))%nat.

(** U+0085 and U+00A0: the bytes C2 85 and C2 A0. *)
Definition is_space2 (c1 c2 : ascii) : bool :=
  let n1 := nat_of_ascii c1 in
  let n2 := nat_of_ascii c2 in
  ((n1 =? 194) && ((n2 =? 133) || (n2 =? 160)))%nat.

(** U+1680 (E1 9A 80), U+2000..U+200A (E2 80 80..8A), U+2028, U+2029 and
    U+202F (E2 80 A8, A9, AF), U+205F (E2 81 9F) and U+3000 (E3 80 80). *)
Definition is_space3 (c1 c2 c3 : ascii) : bool :=
  let n1 := nat_of_ascii c1 in
  let n2 := nat_of_ascii c2 in
  let n3 := nat_of_ascii c3 in
  ((n1 =? 225) && (n2 =? 154) && (n3 =? 128)
   || (n1 =? 226) && (n2 =? 128)
      && ((128 <=? n3) && (n3 <=? 138) || (n3 =? 168) || (n3 =? 169) || (n3 =? 175))
   || (n1 =? 226) && (n2 =? 129) && (n3 =? 159)
   || (n1 =? 227) && (n2 =? 128) && (n3 =? 128))%nat.

Fixpoint lstrip (s : string) : string :=
  match s with
  | EmptyString => EmptyString
  | String c1 s1 =>
      if is_space c1 then lstrip s1 else
      match s1 with
      | EmptyString => s
      | String c2 s2 =>
          if is_space2 c1 c2 then lstrip s2 else
          match s2 with
          | EmptyString => s
          | String c3 s3 => if is_space3 c1 c2 c3 then lstrip s3 else s
          end
      end
  end.

(** The text is one white-space character. *)
Definition whole_space (s : string) : bool :=
  match s with
  | String c EmptyString => is_space c
  | String c1 (String c2 EmptyString) => is_space2 c1 c2
  | String c1 (String c2 (String c3 EmptyString)) => is_space3 c1 c2 c3
  | _ => false
  end.

Fixpoint rstrip (s : string) : string :=
  match s with
  | EmptyString => EmptyString
  | String c s' =>
      let t := String c (rstrip s') in
      if whole_space t then EmptyString else t
  end.

(** [str.strip()] *)
Definition str_strip (s : string) : string := rstrip (lstrip s).

Definition str_of_Z (z : Z) : string := NilZero.string_of_int (Z.to_int z).

(** Left padding with zeros up to width [w]. *)
Fixpoint zfill (w : nat) (s : string) : string :=
  match w with
  | O => s
  | S w' => if (String.length s <=? w')%nat then zfill w' (String "0" s) else s
  end.

(** [dt.year], [dt.quarter], [dt.to_period("M").astype(str)] and the
    quarter label ["Q" + dt.quarter.astype("Int64").astype(str)]. *)
Definition dt_year (d : option Timestamp) : option Z := option_map ts_year d.

Definition dt_quarter (d : option Timestamp) : option Z :=
  option_map (fun t => (ts_month t - 1) / 3 + 1) d.

Definition period_M_str (d : option Timestamp) : string :=
  match d with
  | None => "NaT"
  | Some t => (zfill 4 (str_of_Z (ts_year t)) ++ "-"
               ++ zfill 2 (str_of_Z (ts_month t)))%string
  end.

Definition quarter_label (d : option Timestamp) : string :=
  String "Q" (match dt_quarter d with Some q => str_of_Z q | None => "<NA>" end).

Definition set_coords (r : Row) (la lo : option Qc) : Row :=
  {| site_code := site_code r; display_name := display_name r;
     trap_name := trap_name r; count := count r; sample_date := sample_date r;
     lat := la; lon := lo; landuse := landuse r; region3 := region3 r;
     year := year r; month := month r; quarter := quarter r |}.

Definition set_landuse (r : Row) (lu : option string) : Row :=
  {| site_code := site_code r; display_name := display_name r;
     trap_name := trap_name r; count := count r; sample_date := sample_date r;
     lat := lat r; lon := lon r; landuse := lu; region3 := region3 r;
     year := year r; month := month r; quarter := quarter r |}.

Definition set_region3 (r : Row) (s : string) : Row :=
  {| site_code := site_code r; display_name := display_name r;
     trap_name := trap_name r; count := count r; sample_date := sample_date r;
     lat := lat r; lon := lon r; landuse := landuse r; region3 := s;
     year := year r; month := month r; quarter := quarter r |}.

Definition set_derived (r : Row) : Row :=
  {| site_code := site_code r; display_name := display_name r;
     trap_name := trap_name r; count := count r; sample_date := sample_date r;
     lat := lat r; lon := lon r; landuse := landuse r; region3 := region3 r;
     year := dt_year (sample_date r);
     month := period_M_str (sample_date r);
     quarter := quarter_label (sample_date r) |}.

Definition set_taxon (r : Row) (t : string) : Row :=
  {| site_code := site_code r; display_name := t;
     trap_name := trap_name r; count := count r; sample_date := sample_date r;
     lat := lat r; lon := lon r; landuse := landuse r; region3 := region3 r;
     year := year r; month := month r; quarter := quarter r |}.

Section Load.

(** The text-to-number and text-to-date parsers of pandas; [None] is a
    text that does not parse. *)
Variable parse_float : string -> option Q.
Variable parse_datetime : string -> option Timestamp.

(** [pd.to_numeric(x, errors="coerce")] *)
Definition to_numeric (c : cell) : option Q :=
  match c with
  | CNaN => None
  | CNum q => Some q
  | CStr s => parse_float s
  end.

(** [pd.to_numeric(arth["count"], errors="coerce").fillna(0).astype(int)] *)
Definition normalize_count (c : cell) : Z :=
  astype_int (fillna0 (to_numeric c)).

(** [pd.to_datetime(x, errors="coerce")] on a column cell. *)
Definition to_datetime_coerce (c : option string) : option Timestamp :=
  match c with
  | None => None
  | Some s => parse_datetime s
  end.

(** [pd.to_datetime(x)] on a scalar: raises on text that does not parse. *)
Definition to_datetime (s : string) : result Timestamp :=
  match parse_datetime s with
  | Some t => Ok t
  | None => Raise ValueError
  end.

Definition clean (cols : list string) (c : string) (v : option string) : string :=
  if in_cols c cols then str_strip (astype_str v) else "".

(** Lines 23-31 of [main.py]: one record after type normalisation; the
    joined and derived columns are filled in by the later steps. *)
Definition normalize_record (cols : list string) (r : RawRecord) : Row :=
  {| site_code := clean cols "site_code" (raw_site_code r);
     display_name := clean cols "display_name" (raw_display_name r);
     trap_name := clean cols "trap_name" (raw_trap_name r);
     count := if in_cols "count" cols then normalize_count (raw_count r) else 0;
     sample_date := if in_cols "sample_date" cols
                    then to_datetime_coerce (raw_sample_date r) else None;
     lat := None; lon := None; landuse := None; region3 := "";
     year := None; month := ""; quarter := "" |}.

(** The first recognised header name that is present. *)
Definition first_present (cands cols : list string) : option string :=
  find (fun c => in_cols c cols) cands.

Definition lat_col (sites : SitesFrame) : option string :=
  first_present ["lat"; "latitude"; "Lat"; "Latitude"] (sites_columns sites).

Definition lon_col (sites : SitesFrame) : option string :=
  first_present ["long"; "lon"; "longitude"; "Longitude"; "Long"] (sites_columns sites).

(** [drop_duplicates("site_code")]: the first row of every key is kept. *)
Fixpoint drop_duplicates {V : Type} (seen : list string) (l : list (string * V))
  : list (string * V) :=
  match l with
  | [] => []
  | (k, v) :: l' =>
      if isin k seen then drop_duplicates seen l'
      else (k, v) :: drop_duplicates (k :: seen) l'
  end.

(** [dropna(subset=["site_code", lat_col, lon_col])] *)
Definition complete_site (la lo : string) (s : SiteRecord)
  : option (string * (Qc * Qc)) :=
  match s_site_code s, s_value s la, s_value s lo with
  | Some k, Some x, Some y => Some (k, (x, y))
  | _, _, _ => None
  end.

Fixpoint filter_map {A B : Type} (f : A -> option B) (l : list A) : list B :=
  match l with
  | [] => []
  | a :: l' => match f a with
               | Some b => b :: filter_map f l'
               | None => filter_map f l'
               end
  end.

(** Lines 34-49: at most one coordinate pair per site. *)
Definition site_lookup (sites : SitesFrame) : list (string * (Qc * Qc)) :=
  match lat_col sites, lon_col sites with
  | Some la, Some lo =>
      if in_cols "site_code" (sites_columns sites)
      then drop_duplicates [] (filter_map (complete_site la lo) (sites_rows sites))
      else []
  | _, _ => []
  end.

(** [merge(..., on="site_code", how="left")]: every left row once per
    matching right row, or once with missing values when none matches. *)
Definition merge_left {V : Type} (put : Row -> option V -> Row)
    (right : list (string * V)) (r : Row) : list Row :=
  match filter (fun kv => String.eqb (fst kv) (site_code r)) right with
  | [] => [put r None]
  | ms => map (fun kv => put r (Some (snd kv))) ms
  end.

Definition put_coords (r : Row) (v : option (Qc * Qc)) : Row :=
  match v with
  | Some (x, y) => set_coords r (Some x) (Some y)
  | None => set_coords r None None
  end.

Definition put_landuse (r : Row) (v : option (option string)) : Row :=
  match v with
  | Some lu => set_landuse r lu
  | None => set_landuse r None
  end.

(** The rows of [landuse_map[["site_code", "landuse"]]] that carry a key. *)
Definition landuse_pairs (lu : LanduseFrame) : list (string * option string) :=
  filter_map (fun l => option_map (fun k => (k, lu_landuse l)) (lu_site_code l))
             (lu_rows lu).

(** [arth["landuse"].fillna("Unknown")] *)
Definition fill_region3 (r : Row) : Row :=
  set_region3 r (match landuse r with Some s => s | None => "Unknown" end).

(** Lines 19-68 of [main.py] (17-65 of [streamlit_app.py]): the joined
    table [arth].  The observation file is taken not to carry columns
    named like the joined or derived ones. *)
Definition prepare (arth : RawFrame) (sites : SitesFrame) (lu : LanduseFrame)
  : result DataFrame :=
  let cols := raw_columns arth in
  let rs0 := map (normalize_record cols) (raw_rows arth) in
  if negb (in_cols "site_code" cols) then Raise (KeyError "site_code") else
  let rs1 := flat_map (merge_left put_coords (site_lookup sites)) rs0 in
  if negb (in_cols "site_code" (lu_columns lu)) then Raise (KeyError "site_code") else
  if negb (in_cols "landuse" (lu_columns lu)) then Raise (KeyError "landuse") else
  let rs2 := flat_map (merge_left put_landuse (landuse_pairs lu)) rs1 in
  let rs3 := map fill_region3 rs2 in
  let cols3 := cols ++ ["lat"; "lon"; "landuse"; "region3"] in
  if in_cols "sample_date" cols
  then Ok {| columns := cols3 ++ ["year"; "month"; "quarter"];
             rows := map set_derived rs3 |}
  else Ok {| columns := cols3; rows := rs3 |}.

End Load.

(** [taxon_col = "display_name" if "display_name" in arth.columns else None] *)
Definition taxon_col_of (arth : DataFrame) : option string :=
  if has_col "display_name" arth then Some "display_name" else None.

(* ================================================================== *)
(** ** [groupby] and sorting *)

Section GroupBy.

Context {K : Type} `{KeyOrd K} {V : Type}.

(** Puts [v] in front of the group of key [k]; the groups stay ordered
    by key. *)
Fixpoint add_to_group (k : K) (v : V) (gs : list (K * list V))
  : list (K * list V) :=
  match gs with
  | [] => [(k, [v])]
  | (k', vs) :: gs' =>
      match kcmp k k' with
      | Lt => (k, [v]) :: gs
      | Eq => (k', v :: vs) :: gs'
      | Gt => (k', vs) :: add_to_group k v gs'
      end
  end.

(** [groupby(key)] with the default [sort=True]: the groups in ascending
    key order, each with its rows in table order.  A row whose key is
    missing ([None]) belongs to no group ([dropna=True]). *)
Fixpoint groupby (key : V -> option K) (l : list V) : list (K * list V) :=
  match l with
  | [] => []
  | v :: l' =>
      match key v with
      | Some k => add_to_group k v (groupby key l')
      | None => groupby key l'
      end
  end.

(** The rows of the group of key [k] (none when there is no such group). *)
Fixpoint get_group (k : K) (gs : list (K * list V)) : list V :=
  match gs with
  | [] => []
  | (k', vs) :: gs' => if keqb k k' then vs else get_group k gs'
  end.

(** Whether [v] belongs to the group of key [k]. *)
Definition key_is (key : V -> option K) (k : K) (v : V) : bool :=
  match key v with
  | Some k' => keqb k k'
  | None => false
  end.

(** The groups are in strictly ascending key order. *)
Definition keys_sorted (gs : list (K * list V)) : Prop :=
  StronglySorted klt (map fst gs).

End GroupBy.

(** Stable insertion sort for a total preorder [le]. *)
Section Sorting.

Context {A : Type} (le : A -> A -> bool).

Fixpoint insert_sorted (x : A) (l : list A) : list A :=
  match l with
  | [] => [x]
  | y :: l' => if le x y then x :: l else y :: insert_sorted x l'
  end.

Definition stable_sort (l : list A) : list A := fold_right insert_sorted [] l.

End Sorting.

Definition sum_Z (l : list Z) : Z := fold_right Z.add 0 l.

Definition sum_counts (rs : list Row) : Z := sum_Z (map count rs).

(** [groupby(key)["count"].sum()] *)
Definition groupby_sum {K : Type} `{KeyOrd K} (key : Row -> option K)
    (rs : list Row) : list (K * Z) :=
  map (fun g => (fst g, sum_counts (snd g))) (groupby key rs).

(** The total of the rows of key [k]. *)
Definition group_total {K : Type} `{KeyOrd K} (key : Row -> option K) (k : K)
    (rs : list Row) : Z :=
  sum_counts (filter (key_is key k) rs).

(** [Series.nunique()] on a string column. *)
Definition nunique (l : list string) : nat := List.length (nodup string_dec l).

(** [Series.sort_values(ascending=False)] on the totals: pandas reverses
    the series, sorts it ascending with numpy's sort of the default kind
    ([sort_kind]) and reverses the outcome. *)
Definition sort_values_desc {K : Type} (sort_kind : list (K * Z) -> list (K * Z))
    (s : list (K * Z)) : list (K * Z) :=
  rev (sort_kind (rev s)).

(** The type of numpy's sort on the taxon totals. *)
Definition sorter : Type := list (string * Z) -> list (string * Z).

(** A sort by ascending total that keeps equal totals in place, as numpy's
    sort does on short arrays. *)
Definition insertion_sort {K : Type} (s : list (K * Z)) : list (K * Z) :=
  stable_sort (fun x y => snd x <=? snd y) s.

(* ================================================================== *)
(** ** Helper functions of [main.py] *)

Definition sum_R (l : list R) : R := fold_right Rplus 0%R l.

Definition Rpositive (c : R) : bool := if Rlt_dec 0 c then true else false.

(** [shannon_index] (lines 73-78). *)
Definition shannon_index (counts : list R) : R :=
  let counts := filter Rpositive counts in
  match counts with
  | [] => 0%R
  | _ =>
      let p := map (fun c => (c / sum_R counts)%R) counts in
      (- sum_R (map (fun x => x * ln x) p))%R
  end.

(** One row of the diversity table. *)
Record DivRow : Type := {
  d_site_code : string;
  d_year : Z;
  richness : Z;
  shannon : R
}.

Definition site_year_key (r : Row) : option (string * Z) :=
  option_map (fun y => (site_code r, y)) (year r).

Definition taxon_key (r : Row) : option string := Some (display_name r).

Section App.

(** The joined table held by the module, the date parser of pandas, and
    numpy's sort of kind "quicksort" on the totals (the scripts do not fix
    the order it gives to equal totals). *)
Variable arth : DataFrame.
Variable parse_datetime : string -> option Timestamp.
Variable sort_kind : sorter.

Definition taxon_col : option string := taxon_col_of arth.

(** The diversity row of one [(site, year)] group (lines 87-92). *)
Definition diversity_row (cols : list string) (tc : string)
    (g : (string * Z) * list Row) : result DivRow :=
  let gdf := {| columns := cols; rows := snd g |} in
  require tc gdf ;;;
  let richness := nunique (map display_name (snd g)) in
  require "count" gdf ;;;
  let counts := map snd (groupby_sum taxon_key (snd g)) in
  let sh := match counts with
            | [] => 0%R
            | _ => shannon_index (map IZR counts)
            end in
  Ok {| d_site_code := fst (fst g); d_year := snd (fst g);
        richness := Z.of_nat richness; shannon := sh |}.

(** [compute_diversity] (lines 80-93). *)
Definition compute_diversity (df : DataFrame) : result (list DivRow) :=
  match taxon_col with
  | None => Ok []
  | Some tc =>
      if negb (has_col "year" df) then Ok [] else
      require "site_code" df ;;;
      mapM (diversity_row (columns df) tc) (groupby site_year_key (rows df))
  end.

(** [top_taxa] of [main.py] (lines 95-99). *)
Definition top_taxa (df : DataFrame) (n : nat) : result (list string) :=
  match taxon_col with
  | None => Ok []
  | Some tc =>
      require tc df ;;;
      require "count" df ;;;
      let tot := sort_values_desc sort_kind (groupby_sum taxon_key (rows df)) in
      Ok (map fst (firstn n tot))
  end.

(** [top_taxa] of [streamlit_app.py] (lines 72-76). *)
Definition top_taxa_st (df : DataFrame) (n : nat) : result (list string) :=
  match taxon_col with
  | None => Ok []
  | Some tc =>
      if empty df then Ok [] else
      require tc df ;;;
      require "count" df ;;;
      let tot := sort_values_desc sort_kind (groupby_sum taxon_key (rows df)) in
      Ok (map fst (firstn n tot))
  end.

(** Truth value of a list selection ([None] and [[]] are both false). *)
Definition selected {A : Type} (l : list A) : bool :=
  match l with [] => false | _ => true end.

(** Truth value of a date bound ([None] and the empty text are false). *)
Definition given (d : option string) : bool :=
  match d with
  | Some s => negb (String.eqb s "")
  | None => false
  end.

Definition bound_text (d : option string) : string :=
  match d with Some s => s | None => "" end.

Definition in_range (s e : Timestamp) (r : Row) : bool :=
  match sample_date r with
  | Some d => ts_leb s d && ts_leb d e
  | None => false
  end.

(** [apply_filters] of [main.py] (lines 181-193). *)
Definition apply_filters (df : DataFrame) (sites taxa traps : list string)
    (start_date end_date : option string) : result DataFrame :=
  g1 <- (if selected sites
         then require "site_code" df ;;;
              Ok (select (fun r => isin (site_code r) sites) df)
         else Ok df) ;;
  g2 <- (match taxon_col with
         | Some tc =>
             if selected taxa
             then require tc g1 ;;;
                  Ok (select (fun r => isin (display_name r) taxa) g1)
             else Ok g1
         | None => Ok g1
         end) ;;
  g3 <- (if selected traps && has_col "trap_name" g2
         then Ok (select (fun r => isin (trap_name r) traps) g2)
         else Ok g2) ;;
  if has_col "sample_date" g3 && given start_date && given end_date
  then s <- to_datetime parse_datetime (bound_text start_date) ;;
       e <- to_datetime parse_datetime (bound_text end_date) ;;
       Ok (select (in_range s e) g3)
  else Ok g3.

Definition year_isin (years : list Z) (r : Row) : bool :=
  match year r with
  | Some y => isin_Z y years
  | None => false
  end.

(** [apply_filters] of [streamlit_app.py] (lines 78-86). *)
Definition apply_filters_st (df : DataFrame) (sites taxa : list string)
    (years : list Z) : result DataFrame :=
  g1 <- (if selected sites
         then require "site_code" df ;;;
              Ok (select (fun r => isin (site_code r) sites) df)
         else Ok df) ;;
  g2 <- (match taxon_col with
         | Some tc =>
             if selected taxa
             then require tc g1 ;;;
                  Ok (select (fun r => isin (display_name r) taxa) g1)
             else Ok g1
         | None => Ok g1
         end) ;;
  if selected years && has_col "year" g2
  then Ok (select (year_isin years) g2)
  else Ok g2.

End App.

(* ================================================================== *)
(** ** The callback [update_visuals] of [main.py] (lines 210-288)

    A figure is the table handed to the plotting call, or [None] for the
    "not available" placeholder.  The model ends where the tables are
    handed over: the plotting calls ([px.line], [px.bar],
    [px.scatter_mapbox]) are not part of it, and neither is what they do
    with a table.  The click count that triggers the callback is not
    read. *)

Definition month_site_key (r : Row) : option (string * string) :=
  Some (month r, site_code r).

Definition site_taxon_key (r : Row) : option (string * string) :=
  Some (site_code r, display_name r).

Definition region_quarter_key (r : Row) : option (string * string) :=
  Some (region3 r, quarter r).

(** [groupby(["site_code","lat","lon"], dropna=True)]: a row with a missing
    coordinate is in no group. *)
Definition coord_key (r : Row) : option (string * (Qc * Qc)) :=
  match lat r, lon r with
  | Some x, Some y => Some (site_code r, (x, y))
  | _, _ => None
  end.

Definition has_coords (r : Row) : bool :=
  match lat r, lon r with
  | Some _, Some _ => true
  | _, _ => false
  end.

Definition q_order : list string := ["Q1"; "Q2"; "Q3"; "Q4"].

Fixpoint index_of (s : string) (l : list string) : option nat :=
  match l with
  | [] => None
  | x :: l' => if String.eqb s x then Some O else option_map S (index_of s l')
  end.

(** [pd.Categorical(x, categories=q_order, ordered=True)]: a label outside
    the categories becomes missing. *)
Definition categorical (s : string) : option string :=
  if isin s q_order then Some s else None.

(** The code of a category, its position in [q_order]; a missing value
    sorts after every category ([na_position="last"]). *)
Definition cat_code (a : option string) : nat :=
  match a with
  | Some x => match index_of x q_order with
              | Some i => i
              | None => List.length q_order
              end
  | None => List.length q_order
  end.

Definition code_leb (a b : option string) : bool :=
  (cat_code a <=? cat_code b)%nat.

(** Order of [sort_values(["region3", "quarter"])]. *)
Definition region_quarter_leb (x y : (string * option string) * Z) : bool :=
  match String.compare (fst (fst x)) (fst (fst y)) with
  | Lt => true
  | Gt => false
  | Eq => code_leb (snd (fst x)) (snd (fst y))
  end.

Definition month_leb (x y : (string * string) * Z) : bool :=
  String.leb (fst (fst x)) (fst (fst y)).

(** The type of numpy's sort on the rows of the monthly series. *)
Definition series_sorter : Type :=
  list ((string * string) * Z) -> list ((string * string) * Z).

(** Monthly total count per site (lines 214-220), with the sort of line
    216 left open: [sort_values("month")] runs numpy's sort of kind
    "quicksort", which does not say where the rows of one month end up. *)
Definition monthly_ts_by (sort_month : series_sorter) (g : DataFrame)
  : result (option (list ((string * string) * Z))) :=
  if has_col "month" g
  then require "site_code" g ;;;
       require "count" g ;;;
       Ok (Some (sort_month (groupby_sum month_site_key (rows g))))
  else Ok None.

Record Visuals : Type := {
  ts_fig : option (list ((string * string) * Z));
  div_fig : option (list DivRow);
  comp_fig : option (list ((string * string) * Z));
  map_fig : option (list ((string * (Qc * Qc)) * Z));
  landuse_fig : option (list ((string * option string) * Z));
  table_data : list Row;
  record_count : nat * nat * nat
}.

Record Page : Type := {
  caption : nat * nat * nat;
  page_comp : option (list ((string * string) * Z));
  page_landuse : option (list ((string * option string) * Z));
  page_map : option (list ((string * (Qc * Qc)) * Z))
}.

Section Callback.

Variable arth : DataFrame.
Variable parse_datetime : string -> option Timestamp.
Variable sort_kind : sorter.

(** Monthly total count per site (lines 214-220) as the callback is
    modelled: [monthly_ts_by] with the sort that leaves the rows of one
    month in place, one of the sorts that line 216 admits.  The order of
    the rows within a month is proved of no figure; what is proved of the
    order of the series is proved of [monthly_ts_by] for every sort. *)
Definition monthly_ts (g : DataFrame)
  : result (option (list ((string * string) * Z))) :=
  if has_col "month" g
  then require "site_code" g ;;;
       require "count" g ;;;
       Ok (Some (stable_sort month_leb (groupby_sum month_site_key (rows g))))
  else Ok None.

(** Diversity by year and site (lines 223-228). *)
Definition diversity_fig (g : DataFrame) : result (option (list DivRow)) :=
  div <- compute_diversity arth g ;;
  Ok (match div with [] => None | _ => Some div end).

Definition collapse_other (top_local : list string) (r : Row) : Row :=
  if isin (display_name r) top_local then r else set_taxon r "Other".

(** Community composition (lines 231-240). *)
Definition composition (g : DataFrame)
  : result (option (list ((string * string) * Z))) :=
  match taxon_col arth with
  | Some tc =>
      if negb (empty g)
      then top_local <- top_taxa arth sort_kind g 10 ;;
           require tc g ;;;
           let comp := map (collapse_other top_local) (rows g) in
           require "site_code" g ;;;
           require "count" g ;;;
           Ok (Some (groupby_sum site_taxon_key comp))
      else Ok None
  | None => Ok None
  end.

(** Quarter-by-region totals (lines 245-271; lines 153-174 of
    [streamlit_app.py]). *)
Definition landuse_quarter (g : DataFrame)
  : option (list ((string * option string) * Z)) :=
  if has_col "region3" g && has_col "quarter" g && has_col "count" g
     && negb (empty g)
  then
    let lu_agg := groupby_sum region_quarter_key (rows g) in
    let lu_cat := map (fun x => ((fst (fst x), categorical (snd (fst x))), snd x))
                      lu_agg in
    Some (stable_sort region_quarter_leb lu_cat)
  else None.

(** Per-site totals with coordinates (lines 275-282; lines 181-196 of
    [streamlit_app.py]). *)
Definition site_map (g : DataFrame)
  : result (option (list ((string * (Qc * Qc)) * Z))) :=
  if has_col "lat" g && has_col "lon" g
     && negb (match filter has_coords (rows g) with [] => true | _ => false end)
  then require "site_code" g ;;;
       require "count" g ;;;
       Ok (Some (groupby_sum coord_key (rows g)))
  else Ok None.

(** The summary line (line 286). *)
Definition summary (g : DataFrame) : result (nat * nat * nat) :=
  let n_sites := if has_col "site_code" g
                 then nunique (map site_code (rows g)) else O in
  match taxon_col arth with
  | Some tc =>
      if negb (empty g)
      then require tc g ;;;
           Ok (List.length (rows g), n_sites, nunique (map display_name (rows g)))
      else Ok (List.length (rows g), n_sites, O)
  | None => Ok (List.length (rows g), n_sites, O)
  end.

Definition update_visuals (sites taxa traps : list string)
    (start_date end_date : option string) : result Visuals :=
  g <- apply_filters arth parse_datetime arth sites taxa traps start_date end_date ;;
  ts <- monthly_ts g ;;
  div <- diversity_fig g ;;
  comp <- composition g ;;
  let lu := landuse_quarter g in
  m <- site_map g ;;
  rc <- summary g ;;
  Ok {| ts_fig := ts; div_fig := div; comp_fig := comp; map_fig := m;
        landuse_fig := lu; table_data := rows g; record_count := rc |}.

(** Community composition of [streamlit_app.py] (lines 129-146), with
    its own [top_taxa]. *)
Definition composition_st (g : DataFrame)
  : result (option (list ((string * string) * Z))) :=
  match taxon_col arth with
  | Some tc =>
      if negb (empty g)
      then top_local <- top_taxa_st arth sort_kind g 10 ;;
           require tc g ;;;
           let comp := map (collapse_other top_local) (rows g) in
           require "site_code" g ;;;
           require "count" g ;;;
           Ok (Some (groupby_sum site_taxon_key comp))
      else Ok None
  | None => Ok None
  end.

(** The page of [streamlit_app.py] (lines 116-196): the caption and the
    three charts, computed from the filtered table. *)
Definition streamlit_page (sites taxa : list string) (years : list Z)
  : result Page :=
  g <- apply_filters_st arth arth sites taxa years ;;
  cap <- summary g ;;
  comp <- composition_st g ;;
  let lu := landuse_quarter g in
  m <- site_map g ;;
  Ok {| caption := cap; page_comp := comp; page_landuse := lu; page_map := m |}.

End Callback.

(* ================================================================== *)
(** ** Concrete parsers for worked examples

    Plain decimal numbers ([-12], [3.75]) and ISO dates ([2020-01-15]):
    the part of the pandas parsers that the examples need. *)

Definition digit_of (c : ascii) : option Z :=
  let n := Z.of_nat (nat_of_ascii c) in
  if (48 <=? n) && (n <=? 57) then Some (n - 48) else None.

(** Reads a run of digits; the value read so far is [acc], the number of
    digits read is added to [k]. *)
Fixpoint digits (s : string) (acc : Z) (k : nat) : option (Z * nat * string) :=
  match s with
  | EmptyString => Some (acc, k, EmptyString)
  | String c s' =>
      match digit_of c with
      | Some d => digits s' (10 * acc + d) (S k)
      | None => Some (acc, k, s)
      end
  end.

Definition decimal_unsigned (s : string) : option Q :=
  match digits s 0 O with
  | Some (i, S _, EmptyString) => Some (inject_Z i)
  | Some (i, S _, String "." rest) =>
      match digits rest 0 O with
      | Some (f, k, EmptyString) =>
          Some (inject_Z i + (f # Pos.pow 10 (Pos.of_nat k)))%Q
      | _ => None
      end
  | _ => None
  end.

Definition decimal (s : string) : option Q :=
  match str_strip s with
  | String "-" s' => option_map Qopp (decimal_unsigned s')
  | s' => decimal_unsigned s'
  end.

Definition days_in_month (y m : Z) : Z :=
  if (m =? 2) then
    (if ((y mod 4 =? 0) && negb (y mod 100 =? 0)) || (y mod 400 =? 0) then 29 else 28)
  else if (m =? 4) || (m =? 6) || (m =? 9) || (m =? 11) then 30 else 31.

Definition iso_date (s : string) : option Timestamp :=
  match s with
  | String y1 (String y2 (String y3 (String y4 (String "-"
      (String m1 (String m2 (String "-" (String d1 (String d2 EmptyString))))))))) =>
      match digit_of y1, digit_of y2, digit_of y3, digit_of y4,
            digit_of m1, digit_of m2, digit_of d1, digit_of d2 with
      | Some a, Some b, Some c, Some d, Some e, Some f, Some g, Some h =>
          let y := 1000 * a + 100 * b + 10 * c + d in
          let m := 10 * e + f in
          let dd := 10 * g + h in
          if (1 <=? m) && (m <=? 12) && (1 <=? dd) && (dd <=? days_in_month y m)
          then Some {| ts_year := y; ts_month := m; ts_day := dd |}
          else None
      | _, _, _, _, _, _, _, _ => None
      end
  | _ => None
  end.

(** A raw observation with text cells. *)
Definition obs (site taxon trap : string) (c : cell) (date : string) : RawRecord :=
  {| raw_site_code := Some site; raw_display_name := Some taxon;
     raw_trap_name := Some trap; raw_count := c; raw_sample_date := Some date |}.

Definition arth_columns : list string :=
  ["site_code"; "sample_date"; "trap_name"; "display_name"; "count"].

Definition site_row (site : string) (la lo : option Qc) : SiteRecord :=
  {| s_site_code := Some site;
     s_value := fun c => if String.eqb c "lat" then la
                         else if String.eqb c "long" then lo else None |}.

(* ================================================================== *)
(** ** Filter options and the default date range
    (lines 102-116 of [main.py], 102-104 of [streamlit_app.py]) *)

(** [Series.unique()]: the values in the order of their first appearance. *)
Fixpoint unique (seen l : list string) : list string :=
  match l with
  | [] => []
  | x :: l' => if isin x seen then unique seen l' else x :: unique (x :: seen) l'
  end.

Fixpoint unique_Z (seen l : list Z) : list Z :=
  match l with
  | [] => []
  | x :: l' => if isin_Z x seen then unique_Z seen l' else x :: unique_Z (x :: seen) l'
  end.

(** [sorted(...)] on strings and on integers. *)
Definition sorted (l : list string) : list string := stable_sort String.leb l.

Definition sorted_Z (l : list Z) : list Z := stable_sort Z.leb l.

(** [site_options] (lines 102-105) and [site_values]; the site codes are
    text after the cleaning step, so [dropna] drops nothing. *)
Definition site_options (arth : DataFrame) : list string :=
  if has_col "site_code" arth
  then sorted (unique [] (map site_code (rows arth)))
  else [].

(** [trap_options] (lines 110-113). *)
Definition trap_options (arth : DataFrame) : list string :=
  if has_col "trap_name" arth
  then sorted (unique [] (map trap_name (rows arth)))
  else [].

(** [taxa_options] (lines 106-109) and [taxa_values] of
    [streamlit_app.py] (line 103). *)
Definition taxa_options (arth : DataFrame) (sort_kind : sorter)
  : result (list string) :=
  match taxon_col arth with
  | Some _ => top_taxa arth sort_kind arth 100
  | None => Ok []
  end.

Definition taxa_values (arth : DataFrame) (sort_kind : sorter)
  : result (list string) :=
  match taxon_col arth with
  | Some _ => top_taxa_st arth sort_kind arth 100
  | None => Ok []
  end.

(** [year_values] of [streamlit_app.py] (line 104). *)
Definition year_values (arth : DataFrame) : list Z :=
  if has_col "year" arth
  then sorted_Z (unique_Z [] (filter_map year (rows arth)))
  else [].

(** [Series.min()] and [Series.max()] on the dates: missing dates are
    skipped, and the outcome is missing when no date is left. *)
Definition ts_min (a b : Timestamp) : Timestamp := if ts_leb a b then a else b.

Definition ts_max (a b : Timestamp) : Timestamp := if ts_leb a b then b else a.

Definition series_min (l : list Timestamp) : option Timestamp :=
  match l with
  | [] => None
  | t :: l' => Some (fold_left ts_min l' t)
  end.

Definition series_max (l : list Timestamp) : option Timestamp :=
  match l with
  | [] => None
  | t :: l' => Some (fold_left ts_max l' t)
  end.

(** [min_date] and [max_date] (lines 115-116). *)
Definition min_date (arth : DataFrame) : option Timestamp :=
  if has_col "sample_date" arth
  then series_min (filter_map sample_date (rows arth))
  else None.

Definition max_date (arth : DataFrame) : option Timestamp :=
  if has_col "sample_date" arth
  then series_max (filter_map sample_date (rows arth))
  else None.

(* ================================================================== *)
(** * Vocabulary of the properties, and worked data *)

(** ** Count normalisation *)

(** The integers that [int64] holds. *)
Definition int64_min : Z := - 2 ^ 63.

Definition int64_max : Z := 2 ^ 63 - 1.

(** The integer part of the float [q] fits [int64]. *)
Definition fits_int64 (q : Q) : Prop :=
  (inject_Z int64_min - 1 < q)%Q /\ (q < inject_Z int64_max + 1)%Q.

(** ** Filters *)

(** What each filter dimension asks of a row; an empty selection asks
    nothing. *)
Definition site_ok (sites : list string) (r : Row) : bool :=
  negb (selected sites) || isin (site_code r) sites.

Definition taxon_ok (taxa : list string) (r : Row) : bool :=
  negb (selected taxa) || isin (display_name r) taxa.

Definition trap_ok (traps : list string) (r : Row) : bool :=
  negb (selected traps) || isin (trap_name r) traps.

Definition year_ok (years : list Z) (r : Row) : bool :=
  negb (selected years) || year_isin years r.

(** The date range asks nothing unless both bounds are given. *)
Definition date_ok (parse_datetime : string -> option Timestamp)
    (start_date end_date : option string) (r : Row) : bool :=
  if given start_date && given end_date then
    match parse_datetime (bound_text start_date),
          parse_datetime (bound_text end_date) with
    | Some s, Some e => in_range s e r
    | _, _ => true
    end
  else true.






(** The columns of the joined table that the filters read. *)
Definition filter_columns : list string :=
  ["site_code"; "display_name"; "trap_name"; "sample_date"; "year"].

Definition has_cols (cs : list string) (df : DataFrame) : bool :=
  forallb (fun c => has_col c df) cs.

(** A small data set: two sites with coordinates, one without, and one
    record whose date does not parse. *)
Definition demo_raw : RawFrame :=
  {| raw_columns := arth_columns;
     raw_rows :=
       [obs "S1" "Ant" "pitfall" (CNum 5) "2020-01-15";
        obs "S1" "Bee" "pitfall" (CNum 5) "2020-01-20";
        obs "S2" "Ant" "sweep" (CStr "4") "2021-07-04";
        obs "S3" "Fly" "sweep" (CNum (7 # 2)) "not a date"] |}.

Definition demo_sites : SitesFrame :=
  {| sites_columns := ["site_code"; "lat"; "long"];
     sites_rows :=
       [site_row "S1" (Some (Q2Qc (334 # 10))) (Some (Q2Qc (-1120 # 10)));
        site_row "S2" (Some (Q2Qc (335 # 10))) (Some (Q2Qc (-1119 # 10)))] |}.

Definition demo_landuse : LanduseFrame :=
  {| lu_columns := ["site_code"; "landuse"];
     lu_rows :=
       [{| lu_site_code := Some "S1"; lu_landuse := Some "Urban" |};
        {| lu_site_code := Some "S2"; lu_landuse := Some "Desert" |}] |}.

Definition demo_arth : DataFrame :=
  match prepare decimal iso_date demo_raw demo_sites demo_landuse with
  | Ok df => df
  | Raise _ => {| columns := []; rows := [] |}
  end.



(* ================================================================== *)
(** ** The joined table *)

(** The derived calendar fields of a row agree with its sample date. *)
Definition derived (r : Row) : Prop :=
  year r = dt_year (sample_date r) /\
  month r = period_M_str (sample_date r) /\
  quarter r = quarter_label (sample_date r).

(** The columns of the joined table when the observation file has the
    columns of the data model. *)
Definition full_columns : list string :=
  arth_columns ++ ["lat"; "lon"; "landuse"; "region3"; "year"; "month"; "quarter"].

(** The diversity row of a group, when no column is missing. *)
Definition div_row (g : (string * Z) * list Row) : DivRow :=
  {| d_site_code := fst (fst g);
     d_year := snd (fst g);
     richness := Z.of_nat (nunique (map display_name (snd g)));
     shannon := match map snd (groupby_sum taxon_key (snd g)) with
                | [] => 0%R
                | _ => shannon_index (map IZR (map snd (groupby_sum taxon_key (snd g))))
                end |}.

(** The observation file has the columns of the data model. *)
Definition raw_complete (raw : RawFrame) : bool :=
  forallb (fun c => in_cols c (raw_columns raw)) arth_columns.

Definition has_date (r : Row) : bool :=
  match sample_date r with Some _ => true | None => false end.

(** ** Quarter order in the quarter-by-region table *)

(** [a] comes strictly before [b] in the order Q1, Q2, Q3, Q4, a missing
    label coming after every quarter. *)
Definition quarter_before (a b : option string) : Prop :=
  match a, b with
  | Some x, Some y =>
      exists i j, index_of x q_order = Some i /\ index_of y q_order = Some j
                  /\ (i < j)%nat
  | Some x, None => In x q_order
  | None, Some _ => False
  | None, None => True
  end.

(** Row [x] comes before row [y] of the table: by region, and within a
    region by quarter. *)
Definition region_quarter_before (x y : (string * option string) * Z) : Prop :=
  klt (fst (fst x)) (fst (fst y)) \/
  (fst (fst x) = fst (fst y) /\ quarter_before (snd (fst x)) (snd (fst y))).

(** The labels of one region, in the order of the table. *)
Definition quarters_of (region : string)
    (t : list ((string * option string) * Z)) : list (option string) :=
  map (fun x => snd (fst x)) (filter (fun x => String.eqb (fst (fst x)) region) t).

Definition labelled (x : (string * option string) * Z) : bool :=
  match snd (fst x) with Some _ => true | None => false end.

Definition label_ok (x : (string * option string) * Z) : Prop :=
  match snd (fst x) with Some q => In q q_order | None => True end.

(** Observations of one site, met in the order Q4, Q2, Q3, Q1. *)
Definition shuffled_quarters : DataFrame :=
  match prepare decimal iso_date
          {| raw_columns := arth_columns;
             raw_rows := [obs "S1" "Ant" "pitfall" (CNum 4) "2020-11-02";
                          obs "S1" "Ant" "pitfall" (CNum 2) "2020-05-02";
                          obs "S1" "Bee" "pitfall" (CNum 3) "2020-08-02";
                          obs "S1" "Ant" "pitfall" (CNum 1) "2020-02-02"] |}
          demo_sites demo_landuse with
  | Ok df => df
  | Raise _ => {| columns := []; rows := [] |}
  end.

(** ** Ranking of the taxa *)

(** Two taxa with the same total, met in the order Bee, Ant. *)
Definition tie_table : DataFrame :=
  match prepare decimal iso_date
          {| raw_columns := arth_columns;
             raw_rows := [obs "S1" "Bee" "pitfall" (CNum 5) "2020-01-15";
                          obs "S1" "Ant" "pitfall" (CNum 5) "2020-01-20";
                          obs "S1" "Cat" "pitfall" (CNum 9) "2020-02-01"] |}
          demo_sites demo_landuse with
  | Ok df => df
  | Raise _ => {| columns := []; rows := [] |}
  end.

Definition reversed (df : DataFrame) : DataFrame :=
  {| columns := columns df; rows := rev (rows df) |}.

(** The taxa in the order in which the table first shows them. *)
Definition first_encountered (df : DataFrame) : list string :=
  rev (nodup string_dec (rev (map display_name (rows df)))).

(** The total count of taxon [t]. *)
Definition taxon_total (t : string) (rs : list Row) : Z :=
  sum_counts (filter (fun r => String.eqb (display_name r) t) rs).

(** [x] ranks before [y]: a larger total, or the same total and the
    smaller name. *)
Definition rank_before (x y : string * Z) : Prop :=
  snd y < snd x \/ (snd x = snd y /\ klt (fst x) (fst y)).

(** What is asked of numpy's sort: it reorders its input by ascending
    total. *)
Definition sorts_totals (srt : sorter) : Prop :=
  forall l, Permutation l (srt l) /\
            StronglySorted (fun x y => snd x <= snd y) (srt l).

(** ** The monthly series *)

(** The row [x] of the series is of a month not after that of [y], in the
    order of the month texts. *)
Definition month_le (x y : (string * string) * Z) : Prop :=
  String.compare (fst (fst x)) (fst (fst y)) <> Gt.

(** What is asked of numpy's sort on the series: it reorders its input by
    ascending month. *)
Definition sorts_months (srt : series_sorter) : Prop :=
  forall l, Permutation l (srt l) /\ StronglySorted month_le (srt l).

(** ** Missing columns and empty subsets *)

(** The demo observations read from a file that has no [count] column. *)
Definition no_count_table : DataFrame :=
  match prepare decimal iso_date
          {| raw_columns := ["site_code"; "sample_date"; "trap_name"; "display_name"];
             raw_rows := raw_rows demo_raw |}
          demo_sites demo_landuse with
  | Ok df => df
  | Raise _ => {| columns := []; rows := [] |}
  end.

Definition Zpositive (c : Z) : bool := 0 <? c.

Definition Znonzero (c : Z) : bool := negb (c =? 0).

(** ** The diversity table *)

(** The rows of the group of [site] and year [yr]. *)
Definition in_group (site : string) (yr : Z) (r : Row) : bool :=
  String.eqb (site_code r) site
  && match year r with Some y => y =? yr | None => false end.

Definition group_rows (site : string) (yr : Z) (rs : list Row) : list Row :=
  filter (in_group site yr) rs.

(** The distinct taxa of some rows, and their count totals. *)
Definition distinct_taxa (rs : list Row) : list string :=
  nodup string_dec (map display_name rs).

Definition taxon_totals (rs : list Row) : list Z :=
  map (fun t => taxon_total t rs) (distinct_taxa rs).

(** The negative sum of [p * ln p] over the taxa whose total is positive,
    [p] being the share of the taxon in the sum of these totals; 0 when no
    total is positive. *)
Definition shannon_positive (totals : list Z) : R :=
  match filter Zpositive totals with
  | [] => 0%R
  | pos =>
      (- sum_R (map (fun c => IZR c / IZR (sum_Z pos) * ln (IZR c / IZR (sum_Z pos)))
                    pos))%R
  end.

(** The same with "nonzero" in place of "positive", as the specification
    words it.  (The share of a taxon with a negative total is negative;
    [ln] of the library is 0 there.) *)
Definition shannon_nonzero (totals : list Z) : R :=
  match filter Zpositive totals with
  | [] => 0%R
  | _ =>
      let nz := filter Znonzero totals in
      (- sum_R (map (fun c => IZR c / IZR (sum_Z nz) * ln (IZR c / IZR (sum_Z nz)))
                    nz))%R
  end.

(** The two-row example of the specification. *)
Definition ant_bee_table : DataFrame :=
  match prepare decimal iso_date
          {| raw_columns := arth_columns;
             raw_rows := [obs "S1" "Ant" "pitfall" (CNum 5) "2020-01-15";
                          obs "S1" "Bee" "pitfall" (CNum 5) "2020-01-20"] |}
          demo_sites demo_landuse with
  | Ok df => df
  | Raise _ => {| columns := []; rows := [] |}
  end.

(** A group with a negative total: Ant -3, Bee 5, Cat 5. *)
Definition mixed_sign_table : DataFrame :=
  match prepare decimal iso_date
          {| raw_columns := arth_columns;
             raw_rows := [obs "S1" "Ant" "pitfall" (CNum (-3 # 1)) "2020-01-15";
                          obs "S1" "Bee" "pitfall" (CNum 5) "2020-01-20";
                          obs "S1" "Cat" "pitfall" (CNum 5) "2020-03-02"] |}
          demo_sites demo_landuse with
  | Ok df => df
  | Raise _ => {| columns := []; rows := [] |}
  end.

(** Fixed-point arithmetic with 12 decimals: [m] stands for [m / scale];
    [sq_chain n m] squares [n] times, rounding down. *)
Definition scale : Z := 1000000000000.

Fixpoint sq_chain (n : nat) (m : Z) : Z :=
  match n with
  | O => m
  | S n' => sq_chain n' (m * m / scale)
  end.

(** ** Text cleaning *)

(** The text begins, or ends, with a white-space character. *)
Definition starts_with_space (s : string) : bool :=
  match s with
  | EmptyString => false
  | String c1 s1 =>
      is_space c1
      || match s1 with
         | EmptyString => false
         | String c2 s2 =>
             is_space2 c1 c2
             || match s2 with
                | EmptyString => false
                | String c3 _ => is_space3 c1 c2 c3
                end
         end
  end.

Fixpoint ends_with_space (s : string) : bool :=
  match s with
  | EmptyString => false
  | String _ s' => whole_space s || ends_with_space s'
  end.

(** The text consists of white-space characters only. *)
Inductive spaces : string -> Prop :=
| spaces_nil : spaces EmptyString
| spaces_1 (c : ascii) (s : string) :
    is_space c = true -> spaces s -> spaces (String c s)
| spaces_2 (c1 c2 : ascii) (s : string) :
    is_space2 c1 c2 = true -> spaces s -> spaces (String c1 (String c2 s))
| spaces_3 (c1 c2 c3 : ascii) (s : string) :
    is_space3 c1 c2 c3 = true -> spaces s ->
    spaces (String c1 (String c2 (String c3 s))).

(** ** The joins *)

(** The coordinate pair that the lookup holds for site [k]. *)
Definition coords_of (k : string) (l : list (string * (Qc * Qc)))
  : option (Qc * Qc) :=
  option_map snd (find (fun kv => String.eqb (fst kv) k) l).

(** The number of rows of the land-use table that list site [k], and the
    number of copies of an observation of site [k] after the join. *)
Definition landuse_matches (lu : LanduseFrame) (k : string) : nat :=
  List.length (filter (fun kv => String.eqb (fst kv) k) (landuse_pairs lu)).

Definition copies (lu : LanduseFrame) (k : string) : nat :=
  Nat.max 1 (landuse_matches lu k).

(** The parser only yields dates whose month is a calendar month. *)
Definition calendar_months (pd : string -> option Timestamp) : Prop :=
  forall s t, pd s = Some t -> 1 <= ts_month t <= 12.

(** A land-use table that lists site S1 twice. *)
Definition doubled_landuse : LanduseFrame :=
  {| lu_columns := ["site_code"; "landuse"];
     lu_rows :=
       [{| lu_site_code := Some "S1"; lu_landuse := Some "Urban" |};
        {| lu_site_code := Some "S1"; lu_landuse := Some "Desert" |};
        {| lu_site_code := Some "S2"; lu_landuse := None |}] |}.

(** ** The filters on any table *)

(** The taxon filter is applied when taxa are selected and the joined
    table has a taxon column. *)
Definition taxa_active (arth : DataFrame) (taxa : list string) : bool :=
  selected taxa && match taxon_col arth with Some _ => true | None => false end.

(** The trap filter is applied when traps are selected and the table has
    a trap column. *)
Definition traps_active (df : DataFrame) (traps : list string) : bool :=
  selected traps && has_col "trap_name" df.

(** What the three list dimensions of [main.py] ask of a row of [df]. *)
Definition list_ok (arth df : DataFrame) (sites taxa traps : list string)
    (r : Row) : bool :=
  site_ok sites r
  && (negb (taxa_active arth taxa) || isin (display_name r) taxa)
  && (negb (traps_active df traps) || isin (trap_name r) traps).

(** The date range step of [apply_filters] (lines 189-192 of [main.py]). *)
Definition date_step (pd : string -> option Timestamp)
    (start_date end_date : option string) (g : DataFrame) : result DataFrame :=
  if has_col "sample_date" g && given start_date && given end_date
  then s <- to_datetime pd (bound_text start_date) ;;
       e <- to_datetime pd (bound_text end_date) ;;
       Ok (select (in_range s e) g)
  else Ok g.

(** The year filter is applied when years are selected and the table has
    a year column. *)
Definition years_active (df : DataFrame) (years : list Z) : bool :=
  selected years && has_col "year" df.

(** What the three dimensions of [streamlit_app.py] ask of a row. *)
Definition list_ok_st (arth df : DataFrame) (sites taxa : list string)
    (years : list Z) (r : Row) : bool :=
  site_ok sites r
  && (negb (taxa_active arth taxa) || isin (display_name r) taxa)
  && (negb (years_active df years) || year_isin years r).

(** ** The month text *)

(** The character of a decimal digit. *)
Definition digit_char (d : Z) : ascii := ascii_of_nat (48 + Z.to_nat d).

Definition four_digits (y : Z) : string :=
  String (digit_char (y / 1000)) (String (digit_char (y / 100 mod 10))
    (String (digit_char (y / 10 mod 10)) (String (digit_char (y mod 10)) EmptyString))).

Definition two_digits (m : Z) : string :=
  String (digit_char (m / 10)) (String (digit_char (m mod 10)) EmptyString).

(** Order of two dates by year and month. *)
Definition chrono_compare (a b : Timestamp) : comparison :=
  match ts_year a ?= ts_year b with
  | Eq => ts_month a ?= ts_month b
  | c => c
  end.

(* ================================================================== *)
(** * Properties *)



(** ** Count normalisation *)

Lemma astype_int_inject (z : Z) : astype_int (inject_Z z) = z.
Proof. unfold astype_int; simpl. apply Z.quot_1_r. Qed.

Lemma astype_int_nonneg (q : Q) :
  (0 <= q)%Q ->
  (inject_Z (astype_int q) <= q)%Q /\ (q < inject_Z (astype_int q) + 1)%Q.
Proof.
  destruct q as [a b]. unfold Qle, Qlt, astype_int; simpl.
  rewrite Z.mul_1_r. intros Ha.
  pose proof (Z.quot_rem' a (Zpos b)) as E.
  pose proof (Z.rem_bound_pos a (Zpos b) Ha ltac:(lia)) as B.
  split; nia.
Qed.

Lemma astype_int_nonpos (q : Q) :
  (q <= 0)%Q ->
  (inject_Z (astype_int q) - 1 < q)%Q /\ (q <= inject_Z (astype_int q))%Q.
Proof.
  destruct q as [a b]. unfold Qle, Qlt, astype_int; simpl.
  rewrite !Z.mul_1_r. intros Ha.
  assert (E : Z.quot a (Zpos b) = - Z.quot (- a) (Zpos b)).
  { rewrite Z.quot_opp_l by lia. lia. }
  pose proof (Z.quot_rem' (- a) (Zpos b)) as E'.
  pose proof (Z.rem_bound_pos (- a) (Zpos b) ltac:(lia) ltac:(lia)) as B.
  rewrite E. split; nia.
Qed.

(** C2, as stated, fails: a negative count is kept negative, both when the
    column was read as numbers and when it was read as text. *)
Lemma normalize_count_negative :
  normalize_count decimal (CNum (-3 # 1)) = -3 /\
  normalize_count decimal (CStr "-3") = -3 /\
  ~ (forall c, 0 <= normalize_count decimal c).
Proof.
  split; [reflexivity|]. split; [reflexivity|].
  intros H. specialize (H (CNum (-3 # 1))). vm_compute in H. now apply H.
Qed.

(** C2 (amended): a missing or non-numeric cell of the count column gives
    exactly 0, and a numeric cell whose integer part fits a 64-bit integer
    is truncated toward zero: the outcome is a 64-bit integer, the
    fractional part is dropped, and a negative input stays negative or
    becomes 0. *)
Theorem normalize_count_spec (parse_float : string -> option Q) (c : cell) :
  (to_numeric parse_float c = None -> normalize_count parse_float c = 0) /\
  (forall q, to_numeric parse_float c = Some q -> fits_int64 q ->
     let n := normalize_count parse_float c in
     int64_min <= n <= int64_max /\
     ((0 <= q)%Q -> 0 <= n /\ (inject_Z n <= q)%Q /\ (q < inject_Z n + 1)%Q) /\
     ((q <= 0)%Q -> n <= 0 /\ (inject_Z n - 1 < q)%Q /\ (q <= inject_Z n)%Q)).
Proof.
  unfold normalize_count. split.
  - intros ->. reflexivity.
  - intros q -> [Hlo Hhi]. simpl.
    assert (Hpos : (0 <= q)%Q ->
              0 <= astype_int q /\ (inject_Z (astype_int q) <= q)%Q
              /\ (q < inject_Z (astype_int q) + 1)%Q).
    { intros Hq. destruct (astype_int_nonneg q Hq) as [H1 H2].
      repeat split; auto.
      destruct q as [a b]; unfold Qle, astype_int in *; simpl in *.
      apply Z.quot_pos; lia. }
    assert (Hneg : (q <= 0)%Q ->
              astype_int q <= 0 /\ (inject_Z (astype_int q) - 1 < q)%Q
              /\ (q <= inject_Z (astype_int q))%Q).
    { intros Hq. destruct (astype_int_nonpos q Hq) as [H1 H2].
      repeat split; auto.
      destruct q as [a b]; unfold Qle, astype_int in *; simpl in *.
      apply Z.quot_le_upper_bound; lia. }
    split; [|split; assumption].
    unfold int64_min, int64_max in *.
    destruct (Qlt_le_dec q 0) as [Hq | Hq].
    + destruct (Hneg (Qlt_le_weak _ _ Hq)) as (H0 & _ & H2).
      split; [|lia].
      assert (H : (inject_Z (- 2 ^ 63) - 1 < inject_Z (astype_int q))%Q)
        by (eapply Qlt_le_trans; eauto).
      revert H. unfold Qlt, Qminus, Qplus, Qopp, inject_Z; simpl. lia.
    + destruct (Hpos Hq) as (H0 & H1 & _).
      split; [lia|].
      assert (H : (inject_Z (astype_int q) < inject_Z (2 ^ 63 - 1) + 1)%Q)
        by (eapply Qle_lt_trans; eauto).
      revert H. unfold Qlt, Qminus, Qplus, Qopp, inject_Z; simpl. lia.
Qed.

(** C2 (amended) on the texts "3.75" and "-0.5" and on a cell that is not
    a number. *)
Lemma normalize_count_spec_witness :
  normalize_count decimal (CStr "abc") = 0 /\
  normalize_count decimal (CStr "3.75") = 3 /\
  normalize_count decimal (CStr "-0.5") = 0 /\
  (int64_min <= normalize_count decimal (CStr "3.75") <= int64_max) /\
  (inject_Z (normalize_count decimal (CStr "3.75")) <= 375 # 100)%Q.
Proof.
  destruct (normalize_count_spec decimal (CStr "abc")) as (H0 & _).
  destruct (normalize_count_spec decimal (CStr "3.75")) as (_ & H).
  split; [apply H0; reflexivity|].
  split; [reflexivity|]. split; [reflexivity|].
  destruct (H (375 # 100) eq_refl) as (Hr & Hp & _).
  - split; reflexivity.
  - split; [exact Hr|]. apply Hp. discriminate.
Defined.

(** ** Filters *)

Lemma filter_andb {A : Type} (p q : A -> bool) (l : list A) :
  filter q (filter p l) = filter (fun x => p x && q x) l.
Proof.
  induction l as [|a l IH]; simpl; [reflexivity|].
  destruct (p a); simpl; [destruct (q a)|]; now rewrite IH.
Qed.

Lemma filter_true {A : Type} (p : A -> bool) (l : list A) :
  (forall x, In x l -> p x = true) -> filter p l = l.
Proof.
  induction l as [|a l IH]; simpl; intros H; [reflexivity|].
  rewrite (H a) by now left. f_equal. apply IH. intros x Hx. apply H. now right.
Qed.

Lemma filter_false {A : Type} (p : A -> bool) (l : list A) :
  (forall x, In x l -> p x = false) -> filter p l = [].
Proof.
  induction l as [|a l IH]; simpl; intros H; [reflexivity|].
  rewrite (H a) by now left. apply IH. intros x Hx. apply H. now right.
Qed.

Lemma select_select (p q : Row -> bool) (df : DataFrame) :
  select q (select p df) = select (fun r => p r && q r) df.
Proof. unfold select; simpl. now rewrite filter_andb. Qed.

Lemma has_col_select (c : string) (p : Row -> bool) (df : DataFrame) :
  has_col c (select p df) = has_col c df.
Proof. reflexivity. Qed.

Lemma require_ok (c : string) (df : DataFrame) :
  has_col c df = true -> require c df = Ok tt.
Proof. unfold require. now intros ->. Qed.

(** The three list dimensions of [apply_filters], in one selection. *)
Lemma list_filters_select (df : DataFrame) (p1 p2 p3 : Row -> bool)
    (b1 b2 b3 : bool) :
  (if b3 then select p3 (if b2 then select p2 (if b1 then select p1 df else df)
                         else (if b1 then select p1 df else df))
   else (if b2 then select p2 (if b1 then select p1 df else df)
         else (if b1 then select p1 df else df)))
  = select (fun r => (negb b1 || p1 r) && (negb b2 || p2 r) && (negb b3 || p3 r)) df.
Proof.
  destruct df as [cs rs]; unfold select.
  destruct b1, b2, b3; simpl; apply (f_equal (Build_DataFrame cs));
    rewrite ?filter_andb;
    first [ apply filter_ext; intros r; now rewrite ?andb_true_r, ?andb_assoc
          | symmetry; apply filter_true; reflexivity ].
Qed.

Lemma has_cols_filter_columns (df : DataFrame) :
  has_cols filter_columns df = true ->
  has_col "site_code" df = true /\ has_col "display_name" df = true /\
  has_col "trap_name" df = true /\ has_col "sample_date" df = true /\
  has_col "year" df = true.
Proof.
  unfold has_cols, filter_columns; simpl.
  rewrite !andb_true_iff. tauto.
Qed.

(** Runs the column checks of the list dimensions, given that the three
    columns are present. *)
Ltac list_dims Hs Ht Hp :=
  repeat progress (rewrite ?has_col_select, ?Hs, ?Ht, ?Hp; cbn [bind andb]);
  rewrite ?select_select.

(** Both [apply_filters] on a table with the columns they read. *)
Lemma apply_filters_eq (arth : DataFrame) (pd : string -> option Timestamp)
    (df : DataFrame) (sites taxa traps : list string) (sd ed : option string) :
  has_cols filter_columns df = true ->
  taxon_col arth = Some "display_name" ->
  apply_filters arth pd df sites taxa traps sd ed =
    (let g3 := select (fun r => site_ok sites r && taxon_ok taxa r
                                && trap_ok traps r) df in
     if given sd && given ed
     then s <- to_datetime pd (bound_text sd) ;;
          e <- to_datetime pd (bound_text ed) ;;
          Ok (select (in_range s e) g3)
     else Ok g3).
Proof.
  intros Hc Htc. apply has_cols_filter_columns in Hc.
  destruct Hc as (Hs & Ht & Hp & Hd & _).
  unfold apply_filters, site_ok, taxon_ok, trap_ok, require. rewrite Htc.
  assert (E : forall b1 b2 b3 : bool,
    (if b3 then select (fun r => isin (trap_name r) traps)
         (if b2 then select (fun r => isin (display_name r) taxa)
            (if b1 then select (fun r => isin (site_code r) sites) df else df)
          else (if b1 then select (fun r => isin (site_code r) sites) df else df))
     else (if b2 then select (fun r => isin (display_name r) taxa)
            (if b1 then select (fun r => isin (site_code r) sites) df else df)
          else (if b1 then select (fun r => isin (site_code r) sites) df else df)))
    = select (fun r => (negb b1 || isin (site_code r) sites)
                       && (negb b2 || isin (display_name r) taxa)
                       && (negb b3 || isin (trap_name r) traps)) df)
    by (intros; apply list_filters_select).
  rewrite <- (E (selected sites) (selected taxa) (selected traps)).
  destruct (selected sites), (selected taxa), (selected traps);
    list_dims Hs Ht Hp; rewrite ?Hd; reflexivity.
Qed.

Lemma apply_filters_st_eq (arth df : DataFrame) (sites taxa : list string)
    (years : list Z) :
  has_cols filter_columns df = true ->
  taxon_col arth = Some "display_name" ->
  apply_filters_st arth df sites taxa years =
    Ok (select (fun r => site_ok sites r && taxon_ok taxa r && year_ok years r) df).
Proof.
  intros Hc Htc. apply has_cols_filter_columns in Hc.
  destruct Hc as (Hs & Ht & _ & _ & Hy).
  unfold apply_filters_st, site_ok, taxon_ok, year_ok, require. rewrite Htc.
  rewrite <- (list_filters_select df _ _ (year_isin years)
                (selected sites) (selected taxa) (selected years)).
  destruct (selected sites), (selected taxa), (selected years);
    list_dims Hs Ht Hy; reflexivity.
Qed.

Lemma isin_In (s : string) (l : list string) : isin s l = true <-> In s l.
Proof.
  unfold isin. rewrite existsb_exists. split.
  - intros (x & Hx & E). apply String.eqb_eq in E. now subst.
  - intros H. exists s. split; [exact H | apply String.eqb_refl].
Qed.

Lemma isin_Z_In (z : Z) (l : list Z) : isin_Z z l = true <-> In z l.
Proof.
  unfold isin_Z. rewrite existsb_exists. split.
  - intros (x & Hx & E). apply Z.eqb_eq in E. now subst.
  - intros H. exists z. split; [exact H | apply Z.eqb_refl].
Qed.

Lemma ts_leb_spec (a b : Timestamp) :
  ts_leb a b = true <->
  ts_year a < ts_year b \/
  (ts_year a = ts_year b /\
   (ts_month a < ts_month b \/
    (ts_month a = ts_month b /\ ts_day a <= ts_day b))).
Proof.
  unfold ts_leb, ts_compare.
  destruct (Z.compare_spec (ts_year a) (ts_year b));
    destruct (Z.compare_spec (ts_month a) (ts_month b));
    destruct (Z.compare_spec (ts_day a) (ts_day b));
    split; intros; try reflexivity; try discriminate; lia.
Qed.

Lemma select_all (df : DataFrame) : select (fun _ => true) df = df.
Proof.
  destruct df as [cs rs]. unfold select. simpl. f_equal.
  apply filter_true. reflexivity.
Qed.

Lemma select_ext (p q : Row -> bool) (df : DataFrame) :
  (forall r, p r = q r) -> select p df = select q df.
Proof. intros H. unfold select. f_equal. now apply filter_ext. Qed.

(** [apply_filters] of [main.py] on any table: the two look-ups that can
    fail, then one selection, then the date range. *)
Lemma apply_filters_nf (arth : DataFrame) (pd : string -> option Timestamp)
    (df : DataFrame) (sites taxa traps : list string) (sd ed : option string) :
  apply_filters arth pd df sites taxa traps sd ed =
  if selected sites && negb (has_col "site_code" df)
  then Raise (KeyError "site_code")
  else if taxa_active arth taxa && negb (has_col "display_name" df)
  then Raise (KeyError "display_name")
  else date_step pd sd ed (select (list_ok arth df sites taxa traps) df).
Proof.
  assert (E : forall (g : DataFrame) (p : Row -> bool),
             (forall r, p r = list_ok arth df sites taxa traps r) ->
             g = select p df ->
             date_step pd sd ed g
             = date_step pd sd ed (select (list_ok arth df sites taxa traps) df)).
  { intros g p Hp ->. f_equal. now apply select_ext. }
  assert (Htraps :
    forall p2 : Row -> bool,
      (forall r, p2 r = site_ok sites r
                        && (negb (taxa_active arth taxa) || isin (display_name r) taxa)) ->
      bind (if selected traps && has_col "trap_name" (select p2 df)
            then Ok (select (fun r => isin (trap_name r) traps) (select p2 df))
            else Ok (select p2 df))
        (date_step pd sd ed)
      = date_step pd sd ed (select (list_ok arth df sites taxa traps) df)).
  { intros p2 Hp2. rewrite has_col_select.
    destruct (selected traps && has_col "trap_name" df) eqn:Ep;
      cbn [bind]; rewrite ?select_select;
      (eapply E; [|reflexivity]); intros r; unfold list_ok, traps_active;
      rewrite Hp2, Ep; cbn [negb orb]; now rewrite ?andb_true_r. }
  assert (Htaxa :
    forall p1 : Row -> bool,
      (forall r, p1 r = site_ok sites r) ->
      bind (match taxon_col arth with
            | Some tc =>
                if selected taxa
                then require tc (select p1 df) ;;;
                     Ok (select (fun r => isin (display_name r) taxa) (select p1 df))
                else Ok (select p1 df)
            | None => Ok (select p1 df)
            end)
        (fun g2 =>
           bind (if selected traps && has_col "trap_name" g2
                 then Ok (select (fun r => isin (trap_name r) traps) g2)
                 else Ok g2)
             (date_step pd sd ed))
      = (if taxa_active arth taxa && negb (has_col "display_name" df)
         then Raise (KeyError "display_name")
         else date_step pd sd ed (select (list_ok arth df sites taxa traps) df))).
  { intros p1 Hp1. unfold taxa_active in *. unfold taxon_col, taxon_col_of in *.
    unfold require. rewrite ?has_col_select.
    destruct (has_col "display_name" arth) eqn:Ha.
    - destruct (selected taxa) eqn:Et.
      + rewrite has_col_select.
        destruct (has_col "display_name" df) eqn:Ht; [|reflexivity].
        cbn [bind andb negb orb]. rewrite select_select. apply Htraps.
        intros r. rewrite Hp1. cbn [andb negb orb]. reflexivity.
      + cbn [bind andb negb orb]. apply Htraps.
        intros r. rewrite Hp1. cbn [andb negb orb]. now rewrite ?andb_true_r.
    - rewrite andb_false_r. cbn [bind andb negb orb]. apply Htraps.
      intros r. rewrite Hp1, ?andb_false_r. cbn [andb negb orb].
      now rewrite ?andb_true_r. }
  unfold apply_filters. fold (date_step pd sd ed). unfold require at 1.
  destruct (selected sites) eqn:Es.
  - destruct (has_col "site_code" df) eqn:Hs; [|reflexivity].
    cbn [bind andb negb orb]. apply Htaxa.
    intros r. unfold site_ok. now rewrite Es.
  - cbn [bind andb negb orb].
    assert (H : forall r : Row, (fun _ : Row => true) r = site_ok sites r)
      by (intros r; unfold site_ok; now rewrite Es).
    pose proof (Htaxa (fun _ => true) H) as H'.
    rewrite !select_all in H'. exact H'.
Qed.

(** [apply_filters] of [streamlit_app.py] on any table. *)
Lemma apply_filters_st_nf (arth df : DataFrame) (sites taxa : list string)
    (years : list Z) :
  apply_filters_st arth df sites taxa years =
  if selected sites && negb (has_col "site_code" df)
  then Raise (KeyError "site_code")
  else if taxa_active arth taxa && negb (has_col "display_name" df)
  then Raise (KeyError "display_name")
  else Ok (select (list_ok_st arth df sites taxa years) df).
Proof.
  assert (Hyears :
    forall p2 : Row -> bool,
      (forall r, p2 r = site_ok sites r
                        && (negb (taxa_active arth taxa) || isin (display_name r) taxa)) ->
      (if selected years && has_col "year" (select p2 df)
       then Ok (select (year_isin years) (select p2 df))
       else Ok (select p2 df))
      = Ok (select (list_ok_st arth df sites taxa years) df)).
  { intros p2 Hp2. rewrite has_col_select.
    destruct (selected years && has_col "year" df) eqn:Ey;
      rewrite ?select_select; f_equal; apply select_ext; intros r;
      unfold list_ok_st, years_active; rewrite Hp2, Ey; cbn [negb orb];
      now rewrite ?andb_true_r. }
  assert (Htaxa :
    forall p1 : Row -> bool,
      (forall r, p1 r = site_ok sites r) ->
      bind (match taxon_col arth with
            | Some tc =>
                if selected taxa
                then require tc (select p1 df) ;;;
                     Ok (select (fun r => isin (display_name r) taxa) (select p1 df))
                else Ok (select p1 df)
            | None => Ok (select p1 df)
            end)
        (fun g2 =>
           if selected years && has_col "year" g2
           then Ok (select (year_isin years) g2)
           else Ok g2)
      = (if taxa_active arth taxa && negb (has_col "display_name" df)
         then Raise (KeyError "display_name")
         else Ok (select (list_ok_st arth df sites taxa years) df))).
  { intros p1 Hp1. unfold taxa_active in *. unfold taxon_col, taxon_col_of in *.
    unfold require. rewrite ?has_col_select.
    destruct (has_col "display_name" arth) eqn:Ha.
    - destruct (selected taxa) eqn:Et.
      + rewrite has_col_select.
        destruct (has_col "display_name" df) eqn:Ht; [|reflexivity].
        cbn [bind andb negb orb]. rewrite select_select. apply Hyears.
        intros r. rewrite Hp1. cbn [andb negb orb]. reflexivity.
      + cbn [bind andb negb orb]. apply Hyears.
        intros r. rewrite Hp1. cbn [andb negb orb]. now rewrite ?andb_true_r.
    - rewrite andb_false_r. cbn [bind andb negb orb]. apply Hyears.
      intros r. rewrite Hp1, ?andb_false_r. cbn [andb negb orb].
      now rewrite ?andb_true_r. }
  unfold apply_filters_st. unfold require at 1.
  destruct (selected sites) eqn:Es.
  - destruct (has_col "site_code" df) eqn:Hs; [|reflexivity].
    cbn [bind andb negb orb]. apply Htaxa.
    intros r. unfold site_ok. now rewrite Es.
  - cbn [bind andb negb orb].
    assert (H : forall r : Row, (fun _ : Row => true) r = site_ok sites r)
      by (intros r; unfold site_ok; now rewrite Es).
    pose proof (Htaxa (fun _ => true) H) as H'.
    rewrite !select_all in H'. exact H'.
Qed.

Lemma date_step_none (pd : string -> option Timestamp) (g : DataFrame) :
  date_step pd None None g = Ok g.
Proof. unfold date_step. cbn [given]. now rewrite !andb_false_r. Qed.

(** *** The selections in terms of the values of a row *)

























(** C10: in [apply_filters] of [main.py] the date range is applied only
    when both bounds are supplied: with a bound missing the result is the
    one obtained without any date bound, and with both bounds it is that
    result restricted to the rows dated within the range. *)
Theorem date_range_needs_both_bounds (arth : DataFrame)
    (pd : string -> option Timestamp) (df : DataFrame)
    (sites taxa traps : list string) (sd ed : option string) :
  (given sd = false \/ given ed = false ->
   apply_filters arth pd df sites taxa traps sd ed
   = apply_filters arth pd df sites taxa traps None None) /\
  (given sd = true /\ given ed = true ->
   apply_filters arth pd df sites taxa traps sd ed
   = (g <- apply_filters arth pd df sites taxa traps None None ;;
      if has_col "sample_date" g
      then s <- to_datetime pd (bound_text sd) ;;
           e <- to_datetime pd (bound_text ed) ;;
           Ok (select (in_range s e) g)
      else Ok g)).
Proof.
  unfold apply_filters.
  set (g1 := if selected sites then _ else _).
  split.
  - intros Hb.
    assert (E : forall b, b && given sd && given ed = false).
    { intros b. destruct Hb as [-> | ->]; now rewrite ?andb_false_r. }
    destruct g1 as [g1|e1]; [|reflexivity]. cbn [bind].
    match goal with |- bind ?m _ = _ => destruct m as [g2|e2] end;
      [|reflexivity]. cbn [bind].
    match goal with |- bind ?m _ = _ => destruct m as [g3|e3] end;
      [|reflexivity]. cbn [bind].
    rewrite E. simpl. now rewrite andb_false_r.
  - intros [Hs He].
    destruct g1 as [g1|e1]; [|reflexivity]. cbn [bind].
    match goal with |- bind ?m _ = _ => destruct m as [g2|e2] end;
      [|reflexivity]. cbn [bind].
    match goal with |- bind ?m _ = _ => destruct m as [g3|e3] end;
      [|reflexivity]. cbn [bind].
    rewrite Hs, He. simpl. rewrite !andb_false_r, !andb_true_r. cbn [bind].
    reflexivity.
Qed.

(** With only a start date the rows before it are still returned. *)
Example single_bound_does_not_restrict :
  exists g,
    apply_filters demo_arth iso_date demo_arth [] [] [] (Some "2021-01-01") None
      = Ok g /\
    map month (rows g) = ["2020-01"; "2020-01"; "2021-07"; "NaT"].
Proof. eexists. split; reflexivity. Qed.

(* ================================================================== *)
(** ** Facts about [groupby] *)

Section GroupByFacts.

Context {K : Type} `{KO : KeyOrd K} {V : Type}.

Lemma kcmp_refl (a : K) : kcmp a a = Eq.
Proof. now apply kcmp_eq. Qed.

Lemma kcmp_gt_lt (a b : K) : kcmp a b = Gt -> kcmp b a = Lt.
Proof. intros E. rewrite (kcmp_antisym a b), E. reflexivity. Qed.

Lemma keqb_eq (a b : K) : keqb a b = true <-> a = b.
Proof.
  unfold keqb. rewrite <- kcmp_eq. destruct (kcmp a b); split; congruence.
Qed.

Lemma keqb_refl (a : K) : keqb a a = true.
Proof. now apply keqb_eq. Qed.

Lemma klt_irrefl (a : K) : ~ klt a a.
Proof. unfold klt. rewrite kcmp_refl. discriminate. Qed.

Lemma klt_neq (a b : K) : klt a b -> keqb a b = false /\ keqb b a = false.
Proof.
  unfold klt, keqb. intros E. rewrite (kcmp_antisym a b), E. now split.
Qed.

Lemma get_group_below (k : K) (gs : list (K * list V)) :
  Forall (klt k) (map fst gs) -> get_group k gs = [].
Proof.
  induction gs as [|[k0 vs] gs IH]; simpl; intros H; [reflexivity|].
  inversion H as [|? ? H1 H2]; subst.
  destruct (klt_neq _ _ H1) as [-> _]. now apply IH.
Qed.

Lemma add_to_group_keys (k : K) (v : V) (gs : list (K * list V)) (k' : K) :
  In k' (map fst (add_to_group k v gs)) <-> k' = k \/ In k' (map fst gs).
Proof.
  induction gs as [|[k0 vs] gs IH]; simpl.
  - intuition.
  - destruct (kcmp k k0) eqn:E; simpl.
    + apply kcmp_eq in E. subst. intuition.
    + intuition.
    + rewrite IH. intuition.
Qed.

Lemma add_to_group_sorted (k : K) (v : V) (gs : list (K * list V)) :
  keys_sorted gs -> keys_sorted (add_to_group k v gs).
Proof.
  unfold keys_sorted.
  induction gs as [|[k0 vs] gs IH]; simpl; intros S.
  - repeat constructor.
  - inversion S as [|? ? S' F]; subst.
    destruct (kcmp k k0) eqn:E; simpl.
    + constructor; assumption.
    + constructor; [assumption|]. constructor; [exact E|].
      eapply Forall_impl; [|exact F]. intros x Hx. eapply kcmp_trans; eassumption.
    + constructor; [now apply IH|].
      apply Forall_forall. intros x Hx. apply add_to_group_keys in Hx.
      destruct Hx as [-> | Hx].
      * now apply kcmp_gt_lt.
      * rewrite Forall_forall in F. now apply F.
Qed.

Lemma get_group_add (k k' : K) (v : V) (gs : list (K * list V)) :
  keys_sorted gs ->
  get_group k' (add_to_group k v gs)
  = if keqb k' k then v :: get_group k' gs else get_group k' gs.
Proof.
  unfold keys_sorted.
  induction gs as [|[k0 vs] gs IH]; simpl; intros S.
  - now destruct (keqb k' k).
  - inversion S as [|? ? S' F]; subst.
    destruct (kcmp k k0) eqn:E; simpl.
    + apply kcmp_eq in E. subst k0. now destruct (keqb k' k).
    + destruct (keqb k' k) eqn:E'; [|reflexivity].
      apply keqb_eq in E'. subst k'.
      destruct (klt_neq _ _ E) as [-> _]. f_equal. symmetry.
      apply get_group_below.
      eapply Forall_impl; [|exact F]. intros x Hx. eapply kcmp_trans; eassumption.
    + rewrite (IH S'). destruct (keqb k' k0) eqn:E0; [|reflexivity].
      apply keqb_eq in E0. subst k'.
      destruct (klt_neq _ _ (kcmp_gt_lt _ _ E)) as [-> _]. reflexivity.
Qed.

Lemma groupby_sorted (key : V -> option K) (l : list V) :
  keys_sorted (groupby key l).
Proof.
  induction l as [|v l IH]; simpl.
  - constructor.
  - destruct (key v); [now apply add_to_group_sorted | exact IH].
Qed.

Lemma groupby_keys (key : V -> option K) (l : list V) (k : K) :
  In k (map fst (groupby key l)) <-> exists v, In v l /\ key v = Some k.
Proof.
  induction l as [|v l IH]; simpl.
  - split; [tauto | intros (v & [] & _)].
  - destruct (key v) as [k0|] eqn:E.
    + rewrite add_to_group_keys, IH. split.
      * intros [-> | (w & Hw & Ew)]; [exists v | exists w]; auto.
      * intros (w & [<- | Hw] & Ew); [left; congruence | right; eauto].
    + rewrite IH. split.
      * intros (w & Hw & Ew); eauto.
      * intros (w & [<- | Hw] & Ew); [congruence | eauto].
Qed.

(** The group of [k] holds the rows of key [k], in table order. *)
Lemma get_group_groupby (key : V -> option K) (l : list V) (k : K) :
  get_group k (groupby key l) = filter (key_is key k) l.
Proof.
  induction l as [|v l IH]; simpl; [reflexivity|].
  unfold key_is at 1. destruct (key v) as [k0|] eqn:E.
  - rewrite get_group_add by apply groupby_sorted.
    rewrite IH. reflexivity.
  - exact IH.
Qed.

Lemma sorted_groups_expand (gs : list (K * list V)) :
  keys_sorted gs ->
  gs = map (fun k => (k, get_group k gs)) (map fst gs).
Proof.
  unfold keys_sorted.
  induction gs as [|[k0 vs] gs IH]; simpl; intros S; [reflexivity|].
  inversion S as [|? ? S' F]; subst.
  rewrite keqb_refl. f_equal.
  rewrite (IH S') at 1. apply map_ext_in. intros k Hk.
  rewrite Forall_forall in F.
  destruct (klt_neq _ _ (F k Hk)) as [_ ->]. reflexivity.
Qed.

(** [groupby] written out: one group per key, in key order. *)
Lemma groupby_expand (key : V -> option K) (l : list V) :
  groupby key l
  = map (fun k => (k, filter (key_is key k) l)) (map fst (groupby key l)).
Proof.
  rewrite (sorted_groups_expand (groupby key l)) at 1 by apply groupby_sorted.
  apply map_ext. intros k. now rewrite get_group_groupby.
Qed.

Lemma sorted_keys_unique (l1 l2 : list K) :
  StronglySorted klt l1 -> StronglySorted klt l2 ->
  (forall k, In k l1 <-> In k l2) -> l1 = l2.
Proof.
  revert l2. induction l1 as [|a l1 IH]; intros l2 S1 S2 H.
  - destruct l2 as [|b l2]; [reflexivity|]. exfalso. apply (H b). now left.
  - destruct l2 as [|b l2]; [exfalso; apply (H a); now left|].
    inversion S1 as [|? ? S1' F1]; inversion S2 as [|? ? S2' F2]; subst.
    rewrite Forall_forall in F1, F2.
    assert (a = b).
    { destruct (proj1 (H a) (or_introl eq_refl)) as [E|Hin]; [auto|].
      destruct (proj2 (H b) (or_introl eq_refl)) as [E|Hin']; [auto|].
      exfalso. apply (klt_irrefl a).
      eapply kcmp_trans; [apply (F1 b Hin') | apply (F2 a Hin)]. }
    subst b. f_equal. apply IH; auto.
    intros k. split; intros Hk.
    + destruct (proj1 (H k) (or_intror Hk)) as [E|Hin]; [|exact Hin].
      subst k. exfalso. exact (klt_irrefl a (F1 a Hk)).
    + destruct (proj2 (H k) (or_intror Hk)) as [E|Hin]; [|exact Hin].
      subst k. exfalso. exact (klt_irrefl a (F2 a Hk)).
Qed.

(** The keys do not depend on the order of the rows. *)
Lemma groupby_keys_perm (key : V -> option K) (l l' : list V) :
  Permutation l l' -> map fst (groupby key l) = map fst (groupby key l').
Proof.
  intros P. apply sorted_keys_unique; try apply groupby_sorted.
  intros k. rewrite !groupby_keys. split; intros (v & Hv & E); exists v; split; auto.
  - eapply Permutation_in; eassumption.
  - eapply Permutation_in; [apply Permutation_sym|]; eassumption.
Qed.

End GroupByFacts.

(** ** Facts about grouped sums *)

Lemma sum_Z_perm (l l' : list Z) : Permutation l l' -> sum_Z l = sum_Z l'.
Proof.
  induction 1 as [|x l l' _ IH|x y l|l l' l'' _ IH1 _ IH2]; simpl; lia.
Qed.

Lemma sum_counts_perm (rs rs' : list Row) :
  Permutation rs rs' -> sum_counts rs = sum_counts rs'.
Proof. intros P. apply sum_Z_perm. now apply Permutation_map. Qed.

Lemma filter_perm {A : Type} (p : A -> bool) (l l' : list A) :
  Permutation l l' -> Permutation (filter p l) (filter p l').
Proof.
  induction 1 as [|x l l' _ IH|x y l|l l' l'' _ IH1 _ IH2]; simpl.
  - constructor.
  - destruct (p x); [now constructor | exact IH].
  - destruct (p x), (p y); try apply Permutation_refl. constructor.
  - eapply Permutation_trans; eassumption.
Qed.

Section GroupSumFacts.

Context {K : Type} `{KO : KeyOrd K}.

Lemma groupby_sum_expand (key : Row -> option K) (rs : list Row) :
  groupby_sum key rs
  = map (fun k => (k, group_total key k rs)) (map fst (groupby key rs)).
Proof.
  unfold groupby_sum. rewrite (groupby_expand key rs) at 1.
  rewrite !map_map. reflexivity.
Qed.

Lemma groupby_sum_keys (key : Row -> option K) (rs : list Row) :
  map fst (groupby_sum key rs) = map fst (groupby key rs).
Proof. unfold groupby_sum. now rewrite map_map. Qed.

(** A key has a total exactly when some row carries it, and the total is
    the sum of the counts of these rows. *)
Lemma groupby_sum_In (key : Row -> option K) (rs : list Row) (k : K) (z : Z) :
  In (k, z) (groupby_sum key rs) <->
  (exists r, In r rs /\ key r = Some k) /\ z = group_total key k rs.
Proof.
  rewrite groupby_sum_expand, in_map_iff. split.
  - intros (k' & [= <- <-] & Hk). split; [|reflexivity].
    now apply groupby_keys.
  - intros (Hk & ->). exists k. split; [reflexivity|]. now apply groupby_keys.
Qed.

(** Grouped sums do not depend on the order of the rows. *)
Lemma groupby_sum_perm (key : Row -> option K) (rs rs' : list Row) :
  Permutation rs rs' -> groupby_sum key rs = groupby_sum key rs'.
Proof.
  intros P. rewrite !groupby_sum_expand.
  rewrite (groupby_keys_perm key rs rs' P).
  apply map_ext. intros k. unfold group_total.
  f_equal. apply sum_counts_perm. now apply filter_perm.
Qed.

Lemma groupby_sum_sorted (key : Row -> option K) (rs : list Row) :
  StronglySorted klt (map fst (groupby_sum key rs)).
Proof. rewrite groupby_sum_keys. apply groupby_sorted. Qed.

(** Rows without a key play no part. *)
Lemma groupby_drop_missing {V : Type} (key : V -> option K) (l : list V) :
  groupby key (filter (fun v => match key v with Some _ => true | None => false end) l)
  = groupby key l.
Proof.
  induction l as [|v l IH]; simpl; [reflexivity|].
  destruct (key v) eqn:E; simpl; rewrite ?E, IH; reflexivity.
Qed.

End GroupSumFacts.

(* ================================================================== *)
(** ** The joined table *)

Lemma in_cols_app (c : string) (l1 l2 : list string) :
  in_cols c (l1 ++ l2) = in_cols c l1 || in_cols c l2.
Proof. unfold in_cols. apply existsb_app. Qed.

Lemma merge_left_nonempty {V : Type} (put : Row -> option V -> Row)
    (right : list (string * V)) (r : Row) :
  merge_left put right r <> [].
Proof.
  unfold merge_left.
  destruct (filter _ right) as [|m ms]; simpl; discriminate.
Qed.

Lemma merge_left_In {V : Type} (put : Row -> option V -> Row)
    (right : list (string * V)) (r r' : Row) :
  In r' (merge_left put right r) -> exists v, r' = put r v.
Proof.
  unfold merge_left.
  destruct (filter _ right) as [|m ms] eqn:E.
  - intros [<- | []]. now exists None.
  - rewrite in_map_iff. intros (kv & <- & _). eauto.
Qed.

Section Prepared.

Variable parse_float : string -> option Q.

Variable parse_datetime : string -> option Timestamp.

Variables (raw : RawFrame) (sites : SitesFrame) (lu : LanduseFrame).

Variable arth : DataFrame.

Hypothesis prepared : prepare parse_float parse_datetime raw sites lu = Ok arth.

Hypothesis dated : in_cols "sample_date" (raw_columns raw) = true.

Lemma prepared_columns :
  columns arth = raw_columns raw
                 ++ ["lat"; "lon"; "landuse"; "region3"] ++ ["year"; "month"; "quarter"].
Proof.
  revert prepared. unfold prepare. rewrite dated.
  destruct (negb (in_cols "site_code" (raw_columns raw))); [discriminate|].
  destruct (negb (in_cols "site_code" (lu_columns lu))); [discriminate|].
  destruct (negb (in_cols "landuse" (lu_columns lu))); [discriminate|].
  intros [= <-]. simpl. now rewrite <- app_assoc.
Qed.

Lemma prepared_rows :
  rows arth =
  map set_derived
    (map fill_region3
       (flat_map (merge_left put_landuse (landuse_pairs lu))
          (flat_map (merge_left put_coords (site_lookup sites))
             (map (normalize_record parse_float parse_datetime (raw_columns raw))
                (raw_rows raw))))).
Proof.
  revert prepared. unfold prepare. rewrite dated.
  destruct (negb (in_cols "site_code" (raw_columns raw))); [discriminate|].
  destruct (negb (in_cols "site_code" (lu_columns lu))); [discriminate|].
  destruct (negb (in_cols "landuse" (lu_columns lu))); [discriminate|].
  now intros [= <-].
Qed.

(** Every row of the joined table stems from an observation: the joins
    only add coordinates and land use. *)
Lemma prepared_row_origin (r : Row) :
  In r (rows arth) ->
  exists x la lo l,
    In x (raw_rows raw) /\
    r = set_derived (fill_region3 (set_landuse (set_coords
          (normalize_record parse_float parse_datetime (raw_columns raw) x)
          la lo) l)).
Proof.
  rewrite prepared_rows. intros H.
  apply in_map_iff in H. destruct H as (r3 & <- & H).
  apply in_map_iff in H. destruct H as (r2 & <- & H2).
  apply in_flat_map in H2. destruct H2 as (r1 & H1 & H2).
  apply in_flat_map in H1. destruct H1 as (r0 & H0 & H1).
  apply in_map_iff in H0. destruct H0 as (x & <- & Hx).
  apply merge_left_In in H1. destruct H1 as (v1 & ->).
  apply merge_left_In in H2. destruct H2 as (v2 & ->).
  exists x.
  destruct v1 as [[la lo]|]; destruct v2 as [w|]; simpl; eauto.
Qed.

(** Every observation is kept by the joins. *)
Lemma prepared_row_kept (x : RawRecord) :
  In x (raw_rows raw) ->
  exists la lo l,
    In (set_derived (fill_region3 (set_landuse (set_coords
          (normalize_record parse_float parse_datetime (raw_columns raw) x)
          la lo) l))) (rows arth).
Proof.
  intros Hx. rewrite prepared_rows.
  set (r0 := normalize_record parse_float parse_datetime (raw_columns raw) x).
  destruct (merge_left put_coords (site_lookup sites) r0) as [|r1 ?] eqn:E1;
    [now apply merge_left_nonempty in E1|].
  destruct (merge_left put_landuse (landuse_pairs lu) r1) as [|r2 ?] eqn:E2;
    [now apply merge_left_nonempty in E2|].
  assert (H1 : In r1 (merge_left put_coords (site_lookup sites) r0))
    by (rewrite E1; now left).
  assert (H2 : In r2 (merge_left put_landuse (landuse_pairs lu) r1))
    by (rewrite E2; now left).
  destruct (merge_left_In _ _ _ _ H1) as (v1 & Ev1).
  destruct (merge_left_In _ _ _ _ H2) as (v2 & Ev2).
  assert (Hin : In (set_derived (fill_region3 r2))
    (map set_derived (map fill_region3
       (flat_map (merge_left put_landuse (landuse_pairs lu))
          (flat_map (merge_left put_coords (site_lookup sites))
             (map (normalize_record parse_float parse_datetime (raw_columns raw))
                (raw_rows raw))))))).
  { apply in_map, in_map. apply in_flat_map. exists r1. split; [|exact H2].
    apply in_flat_map. exists r0. split; [|exact H1]. now apply in_map. }
  subst r2 r1.
  destruct v1 as [[la lo]|]; destruct v2 as [w|]; simpl in Hin; eauto.
Qed.

Lemma prepared_derived (r : Row) : In r (rows arth) -> derived r.
Proof.
  intros Hr. destruct (prepared_row_origin r Hr) as (x & la & lo & l & _ & ->).
  repeat split.
Qed.

End Prepared.

(* ================================================================== *)
(** ** The aggregates on a table with all its columns *)

Lemma has_cols_In (cs : list string) (df : DataFrame) (c : string) :
  has_cols cs df = true -> In c cs -> has_col c df = true.
Proof. unfold has_cols. rewrite forallb_forall. auto. Qed.

Ltac col_present H :=
  apply (has_cols_In _ _ _ H); simpl; tauto.

Lemma taxon_col_present (arth : DataFrame) :
  has_cols full_columns arth = true -> taxon_col arth = Some "display_name".
Proof.
  intros H. unfold taxon_col, taxon_col_of.
  assert (has_col "display_name" arth = true) as -> by col_present H.
  reflexivity.
Qed.

Lemma mapM_ok {A B : Type} (f : A -> result B) (g : A -> B) (l : list A) :
  (forall a, In a l -> f a = Ok (g a)) -> mapM f l = Ok (map g l).
Proof.
  induction l as [|a l IH]; simpl; intros H; [reflexivity|].
  rewrite (H a) by now left. simpl. rewrite IH; [reflexivity|].
  intros b Hb. apply H. now right.
Qed.

Lemma compute_diversity_ok (arth df : DataFrame) :
  taxon_col arth = Some "display_name" ->
  has_cols full_columns df = true ->
  compute_diversity arth df = Ok (map div_row (groupby site_year_key (rows df))).
Proof.
  intros Htc H. unfold compute_diversity. rewrite Htc.
  assert (has_col "year" df = true) as -> by col_present H.
  assert (has_col "site_code" df = true) as Hs by col_present H.
  assert (has_col "display_name" df = true) as Hd by col_present H.
  assert (has_col "count" df = true) as Hc by col_present H.
  simpl. rewrite (require_ok _ _ Hs). simpl.
  apply mapM_ok. intros g _. unfold diversity_row, require, has_col in *; simpl.
  rewrite Hd, Hc. reflexivity.
Qed.

Lemma top_taxa_ok (arth : DataFrame) (srt : sorter) (df : DataFrame) (n : nat) :
  taxon_col arth = Some "display_name" ->
  has_cols full_columns df = true ->
  top_taxa arth srt df n
  = Ok (map fst (firstn n (sort_values_desc srt (groupby_sum taxon_key (rows df))))).
Proof.
  intros Htc H. unfold top_taxa. rewrite Htc.
  assert (has_col "display_name" df = true) as Hd by col_present H.
  assert (has_col "count" df = true) as Hc by col_present H.
  now rewrite (require_ok _ _ Hd), (require_ok _ _ Hc).
Qed.

Lemma monthly_ts_ok (g : DataFrame) :
  has_cols full_columns g = true ->
  monthly_ts g
  = Ok (Some (stable_sort month_leb (groupby_sum month_site_key (rows g)))).
Proof.
  intros H. unfold monthly_ts.
  assert (has_col "month" g = true) as -> by col_present H.
  assert (has_col "site_code" g = true) as Hs by col_present H.
  assert (has_col "count" g = true) as Hc by col_present H.
  now rewrite (require_ok _ _ Hs), (require_ok _ _ Hc).
Qed.

Lemma site_map_ok (g : DataFrame) :
  has_cols full_columns g = true ->
  site_map g
  = Ok (match filter has_coords (rows g) with
        | [] => None
        | _ => Some (groupby_sum coord_key (rows g))
        end).
Proof.
  intros H. unfold site_map.
  assert (has_col "lat" g = true) as -> by col_present H.
  assert (has_col "lon" g = true) as -> by col_present H.
  assert (has_col "site_code" g = true) as Hs by col_present H.
  assert (has_col "count" g = true) as Hc by col_present H.
  rewrite (require_ok _ _ Hs), (require_ok _ _ Hc).
  now destruct (filter has_coords (rows g)).
Qed.

Lemma composition_ok (arth : DataFrame) (srt : sorter) (g : DataFrame) :
  taxon_col arth = Some "display_name" ->
  has_cols full_columns g = true ->
  composition arth srt g
  = Ok (if empty g then None
        else Some (groupby_sum site_taxon_key
               (map (collapse_other
                       (map fst (firstn 10 (sort_values_desc srt
                                              (groupby_sum taxon_key (rows g))))))
                    (rows g)))).
Proof.
  intros Htc H. unfold composition. rewrite Htc.
  destruct (empty g); simpl; [reflexivity|].
  rewrite (top_taxa_ok arth srt g 10 Htc H). simpl.
  assert (has_col "display_name" g = true) as Hd by col_present H.
  assert (has_col "site_code" g = true) as Hs by col_present H.
  assert (has_col "count" g = true) as Hc by col_present H.
  now rewrite (require_ok _ _ Hd), (require_ok _ _ Hs), (require_ok _ _ Hc).
Qed.

Lemma landuse_quarter_ok (g : DataFrame) :
  has_cols full_columns g = true ->
  landuse_quarter g
  = if empty g then None
    else Some (stable_sort region_quarter_leb
                 (map (fun x => ((fst (fst x), categorical (snd (fst x))), snd x))
                      (groupby_sum region_quarter_key (rows g)))).
Proof.
  intros H. unfold landuse_quarter.
  assert (has_col "region3" g = true) as -> by col_present H.
  assert (has_col "quarter" g = true) as -> by col_present H.
  assert (has_col "count" g = true) as -> by col_present H.
  now destruct (empty g).
Qed.

Lemma summary_ok (arth g : DataFrame) :
  taxon_col arth = Some "display_name" ->
  has_cols full_columns g = true ->
  exists rc, summary arth g = Ok rc.
Proof.
  intros Htc H. unfold summary. rewrite Htc.
  assert (has_col "display_name" g = true) as Hd by col_present H.
  rewrite (require_ok _ _ Hd). destruct (negb (empty g)); simpl; eauto.
Qed.

(** What the filters of [main.py] return on the joined table. *)
Lemma apply_filters_arth (arth : DataFrame) (pd : string -> option Timestamp)
    (sites taxa traps : list string) (sd ed : option string) (g : DataFrame) :
  has_cols full_columns arth = true ->
  apply_filters arth pd arth sites taxa traps sd ed = Ok g ->
  columns g = columns arth /\
  rows g = filter (fun r => site_ok sites r && taxon_ok taxa r
                            && trap_ok traps r && date_ok pd sd ed r) (rows arth).
Proof.
  intros H.
  assert (Hf : has_cols filter_columns arth = true).
  { unfold has_cols, filter_columns. apply forallb_forall. intros c Hc.
    apply (has_cols_In _ _ _ H). simpl in *. tauto. }
  rewrite (apply_filters_eq arth pd arth sites taxa traps sd ed Hf
             (taxon_col_present arth H)).
  cbv zeta. unfold date_ok, to_datetime.
  destruct (given sd && given ed).
  - destruct (pd (bound_text sd)) as [s|]; [|discriminate].
    destruct (pd (bound_text ed)) as [e|]; [|discriminate].
    simpl. intros [= <-]. split; [reflexivity|]. simpl. apply filter_andb.
  - intros [= <-]. split; [reflexivity|]. simpl.
    apply filter_ext. intros r. now rewrite andb_true_r.
Qed.

Lemma has_cols_columns (cs : list string) (g df : DataFrame) :
  columns g = columns df -> has_cols cs df = true -> has_cols cs g = true.
Proof. unfold has_cols, has_col. now intros ->. Qed.

Lemma diversity_fig_ok (arth g : DataFrame) :
  taxon_col arth = Some "display_name" ->
  has_cols full_columns g = true ->
  diversity_fig arth g
  = Ok (match map div_row (groupby site_year_key (rows g)) with
        | [] => None
        | d => Some d
        end).
Proof.
  intros Htc H. unfold diversity_fig.
  rewrite (compute_diversity_ok arth g Htc H). simpl.
  now destruct (map div_row (groupby site_year_key (rows g))).
Qed.

(** What the callback hands out, on a joined table with all its columns. *)
Lemma update_visuals_inv (arth : DataFrame) (pd : string -> option Timestamp)
    (srt : sorter) (sites taxa traps : list string) (sd ed : option string)
    (v : Visuals) :
  has_cols full_columns arth = true ->
  update_visuals arth pd srt sites taxa traps sd ed = Ok v ->
  exists g,
    apply_filters arth pd arth sites taxa traps sd ed = Ok g /\
    has_cols full_columns g = true /\
    table_data v = rows g /\
    ts_fig v = Some (stable_sort month_leb (groupby_sum month_site_key (rows g))) /\
    diversity_fig arth g = Ok (div_fig v) /\
    composition arth srt g = Ok (comp_fig v) /\
    landuse_fig v = landuse_quarter g /\
    site_map g = Ok (map_fig v).
Proof.
  intros H. unfold update_visuals.
  destruct (apply_filters arth pd arth sites taxa traps sd ed) as [g|e] eqn:Eg;
    [|discriminate].
  destruct (apply_filters_arth _ _ _ _ _ _ _ _ H Eg) as [Hc _].
  assert (Hg : has_cols full_columns g = true) by (eapply has_cols_columns; eauto).
  pose proof (taxon_col_present arth H) as Htc.
  cbn [bind]. rewrite (monthly_ts_ok g Hg). cbn [bind].
  rewrite (diversity_fig_ok arth g Htc Hg). cbn [bind].
  rewrite (composition_ok arth srt g Htc Hg). cbn [bind].
  rewrite (site_map_ok g Hg). cbn [bind].
  destruct (summary_ok arth g Htc Hg) as (rc & ->). cbn [bind].
  intros [= <-]. exists g. simpl.
  split; [reflexivity|]. split; [exact Hg|]. split; [reflexivity|].
  split; [reflexivity|]. split; [now apply diversity_fig_ok|].
  split; [now apply composition_ok|]. split; [reflexivity|].
  now apply site_map_ok.
Qed.

(** The callback returns whenever the two date bounds, if both given, parse. *)
Lemma update_visuals_returns (arth : DataFrame) (pd : string -> option Timestamp)
    (srt : sorter) (sites taxa traps : list string) (sd ed : option string) :
  has_cols full_columns arth = true ->
  (given sd && given ed = true ->
   exists s e, pd (bound_text sd) = Some s /\ pd (bound_text ed) = Some e) ->
  exists v, update_visuals arth pd srt sites taxa traps sd ed = Ok v.
Proof.
  intros H Hpd.
  assert (Hf : has_cols filter_columns arth = true).
  { unfold has_cols, filter_columns. apply forallb_forall. intros c Hc.
    apply (has_cols_In _ _ _ H). simpl in *. tauto. }
  pose proof (taxon_col_present arth H) as Htc.
  assert (Eg : exists g, apply_filters arth pd arth sites taxa traps sd ed = Ok g).
  { rewrite (apply_filters_eq arth pd arth sites taxa traps sd ed Hf Htc).
    cbv zeta. unfold to_datetime. destruct (given sd && given ed); [|eauto].
    destruct (Hpd eq_refl) as (s & e & -> & ->). simpl. eauto. }
  destruct Eg as (g & Eg).
  destruct (apply_filters_arth _ _ _ _ _ _ _ _ H Eg) as [Hc _].
  assert (Hg : has_cols full_columns g = true) by (eapply has_cols_columns; eauto).
  unfold update_visuals. rewrite Eg. cbn [bind].
  rewrite (monthly_ts_ok g Hg). cbn [bind].
  rewrite (diversity_fig_ok arth g Htc Hg). cbn [bind].
  rewrite (composition_ok arth srt g Htc Hg). cbn [bind].
  rewrite (site_map_ok g Hg). cbn [bind].
  destruct (summary_ok arth g Htc Hg) as (rc & ->). cbn [bind].
  eauto.
Qed.

(** ** Sorting facts *)

Section SortingFacts.

Context {A : Type} (le : A -> A -> bool).

Lemma insert_sorted_perm (x : A) (l : list A) :
  Permutation (x :: l) (insert_sorted le x l).
Proof.
  induction l as [|y l IH]; simpl; [apply Permutation_refl|].
  destruct (le x y); [apply Permutation_refl|].
  eapply Permutation_trans; [apply perm_swap|]. now constructor.
Qed.

Lemma stable_sort_perm (l : list A) : Permutation l (stable_sort le l).
Proof.
  induction l as [|x l IH]; simpl; [constructor|].
  eapply Permutation_trans; [|apply insert_sorted_perm]. now constructor.
Qed.

Lemma stable_sort_In (l : list A) (x : A) : In x (stable_sort le l) <-> In x l.
Proof.
  split; apply Permutation_in;
    [apply Permutation_sym|]; apply stable_sort_perm.
Qed.

End SortingFacts.

Lemma prepared_full_columns (pf : string -> option Q)
    (pd : string -> option Timestamp) (raw : RawFrame) (sites : SitesFrame)
    (lu : LanduseFrame) (arth : DataFrame) :
  prepare pf pd raw sites lu = Ok arth ->
  raw_complete raw = true ->
  in_cols "sample_date" (raw_columns raw) = true /\
  has_cols full_columns arth = true.
Proof.
  intros Hp Hr. unfold raw_complete in Hr. rewrite forallb_forall in Hr.
  assert (Hd : in_cols "sample_date" (raw_columns raw) = true)
    by (apply Hr; simpl; tauto).
  split; [exact Hd|].
  unfold has_cols, has_col. rewrite (prepared_columns _ _ _ _ _ _ Hp Hd).
  apply forallb_forall. intros c Hc. rewrite !in_cols_app.
  unfold full_columns in Hc. apply in_app_or in Hc. destruct Hc as [Hc|Hc].
  - now rewrite (Hr c Hc).
  - apply orb_true_iff. right.
    simpl in Hc.
    repeat (destruct Hc as [<- | Hc]; [reflexivity|]). destruct Hc.
Qed.

(** The diversity table is computed from the dated rows only. *)
Lemma diversity_ignores_undated (arth g : DataFrame) :
  taxon_col arth = Some "display_name" ->
  has_cols full_columns g = true ->
  (forall r, In r (rows g) -> derived r) ->
  diversity_fig arth (select has_date g) = diversity_fig arth g.
Proof.
  intros Htc Hg Hd.
  rewrite (diversity_fig_ok arth g Htc Hg).
  rewrite (diversity_fig_ok arth (select has_date g) Htc Hg).
  simpl.
  assert (E : filter has_date (rows g)
              = filter (fun v => match site_year_key v with
                                 | Some _ => true | None => false end) (rows g)).
  { apply filter_ext_in. intros r Hr. destruct (Hd r Hr) as (Hy & _).
    unfold has_date, site_year_key. rewrite Hy.
    now destruct (sample_date r). }
  rewrite E, groupby_drop_missing. reflexivity.
Qed.

(** ** Records whose date does not parse *)

(** C4, as stated, fails.  The record of site S3 has a date that does not
    parse.  Without a date range it is in the raw-record table and is
    counted in the monthly series, in the bucket ["NaT"]; with a date range
    it is in neither. *)
Lemma unparseable_date_counted_in_monthly :
  iso_date "not a date" = None /\
  (exists v r,
     update_visuals demo_arth iso_date insertion_sort [] [] [] None None = Ok v /\
     In r (table_data v) /\ site_code r = "S3" /\ sample_date r = None /\
     ts_fig v = Some [(("2020-01", "S1"), 10); (("2021-07", "S2"), 4);
                      (("NaT", "S3"), 3)]) /\
  (exists v,
     update_visuals demo_arth iso_date insertion_sort [] [] []
       (Some "2020-01-01") (Some "2021-12-31") = Ok v /\
     map site_code (table_data v) = ["S1"; "S1"; "S2"] /\
     ts_fig v = Some [(("2020-01", "S1"), 10); (("2021-07", "S2"), 4)]).
Proof.
  assert (Hfull : has_cols full_columns demo_arth = true) by reflexivity.
  split; [reflexivity|]. split.
  - destruct (update_visuals_returns demo_arth iso_date insertion_sort [] [] [] None None)
      as (v & Ev); [reflexivity | discriminate |].
    destruct (update_visuals_inv _ _ _ _ _ _ _ _ _ Hfull Ev)
      as (g & Eg & _ & Et & Ets & _).
    vm_compute in Eg. injection Eg as <-.
    exists v. eexists. split; [exact Ev|]. rewrite Et, Ets.
    split; [simpl; right; right; right; left; reflexivity|].
    repeat split.
  - destruct (update_visuals_returns demo_arth iso_date insertion_sort [] [] []
                (Some "2020-01-01") (Some "2021-12-31"))
      as (v & Ev); [reflexivity | intros _; eexists; eexists; split; reflexivity |].
    destruct (update_visuals_inv _ _ _ _ _ _ _ _ _ Hfull Ev)
      as (g & Eg & _ & Et & Ets & _).
    vm_compute in Eg. injection Eg as <-.
    exists v. split; [exact Ev|]. rewrite Et, Ets. split; reflexivity.
Qed.

(** C4 (amended): a record whose sample date does not parse is kept with a
    missing date, a missing year and the month bucket ["NaT"].  A date
    range (both bounds) removes it from the filtered table and so from
    every output, the raw-record table included; otherwise it is in the
    raw-record table exactly when it passes the site, taxon and trap
    filters.  Whenever it is in the raw-record table it is also counted in
    the monthly time series, in the group of ["NaT"] and its site; the
    diversity table is computed without the undated records. *)
Theorem unparseable_date_record
    (pf : string -> option Q) (pd : string -> option Timestamp)
    (raw : RawFrame) (sites : SitesFrame) (lu : LanduseFrame) (arth : DataFrame) :
  prepare pf pd raw sites lu = Ok arth ->
  raw_complete raw = true ->
  (forall x, In x (raw_rows raw) ->
     to_datetime_coerce pd (raw_sample_date x) = None ->
     exists r, In r (rows arth) /\ sample_date r = None /\
       site_code r = str_strip (astype_str (raw_site_code x)) /\
       display_name r = str_strip (astype_str (raw_display_name x)) /\
       count r = normalize_count pf (raw_count x)) /\
  (forall r, In r (rows arth) -> sample_date r = None ->
     year r = None /\ month r = "NaT" /\
     forall srt sel taxa traps sd ed v,
       update_visuals arth pd srt sel taxa traps sd ed = Ok v ->
       (given sd && given ed = true -> ~ In r (table_data v)) /\
       (given sd && given ed = false ->
        (In r (table_data v) <->
         site_ok sel r && taxon_ok taxa r && trap_ok traps r = true)) /\
       (In r (table_data v) ->
        exists ts,
          ts_fig v = Some ts /\
          In (("NaT", site_code r),
              sum_counts (filter (key_is month_site_key ("NaT", site_code r))
                            (table_data v))) ts /\
          In r (filter (key_is month_site_key ("NaT", site_code r)) (table_data v))) /\
       (exists g,
          table_data v = rows g /\
          diversity_fig arth (select has_date g) = Ok (div_fig v))).
Proof.
  intros Hp Hraw.
  destruct (prepared_full_columns _ _ _ _ _ _ Hp Hraw) as [Hd Hfull].
  pose proof (taxon_col_present arth Hfull) as Htc.
  assert (Hcols : forall c, In c arth_columns -> in_cols c (raw_columns raw) = true).
  { unfold raw_complete in Hraw. now rewrite forallb_forall in Hraw. }
  split.
  - intros x Hx Ex.
    destruct (prepared_row_kept _ _ _ _ _ _ Hp Hd x Hx) as (la & lo & l & Hin).
    eexists. split; [exact Hin|]. simpl. unfold clean.
    rewrite Hd, !Hcols by (simpl; tauto). auto.
  - intros r Hr Er.
    destruct (prepared_derived _ _ _ _ _ _ Hp Hd r Hr) as (Hy & Hm & _).
    rewrite Er in Hy, Hm. simpl in Hy, Hm.
    split; [exact Hy|]. split; [exact Hm|].
    intros srt sel taxa traps sd ed v Ev.
    destruct (update_visuals_inv _ _ _ _ _ _ _ _ _ Hfull Ev)
      as (g & Eg & Hg & Et & Ets & Ediv & _).
    destruct (apply_filters_arth _ _ _ _ _ _ _ _ Hfull Eg) as [Hc Hrows].
    assert (Hdate : given sd && given ed = true -> date_ok pd sd ed r = false).
    { intros Hb. unfold date_ok. rewrite Hb.
      (* both bounds parse, since the filters returned *)
      assert (Hf : has_cols filter_columns arth = true).
      { unfold has_cols, filter_columns. apply forallb_forall. intros c Hc'.
        apply (has_cols_In _ _ _ Hfull). simpl in *. tauto. }
      rewrite (apply_filters_eq arth pd arth sel taxa traps sd ed Hf Htc) in Eg.
      cbv zeta in Eg. rewrite Hb in Eg. unfold to_datetime in Eg.
      destruct (pd (bound_text sd)); [|discriminate].
      destruct (pd (bound_text ed)); [|discriminate].
      unfold in_range. now rewrite Er. }
    rewrite Et, Hrows.
    split; [|split; [|split]].
    + intros Hb Hin. apply filter_In in Hin. destruct Hin as [_ Hin].
      rewrite (Hdate Hb), andb_false_r in Hin. discriminate.
    + intros Hb. rewrite filter_In.
      assert (date_ok pd sd ed r = true) as ->
        by (unfold date_ok; now rewrite Hb).
      rewrite andb_true_r. tauto.
    + intros Hin. eexists. split; [rewrite Ets, Hrows; reflexivity|].
      assert (Hkey : month_site_key r = Some ("NaT", site_code r))
        by (unfold month_site_key; now rewrite Hm).
      split.
      * apply stable_sort_In. apply groupby_sum_In. split; [|reflexivity].
        exists r. split; [exact Hin | exact Hkey].
      * apply filter_In. split; [exact Hin|].
        unfold key_is. rewrite Hkey. apply keqb_refl.
    + exists g. split; [now rewrite Hrows|].
      rewrite (diversity_ignores_undated arth g Htc Hg); [exact Ediv|].
      intros x Hx. rewrite Hrows in Hx. apply filter_In in Hx.
      exact (prepared_derived _ _ _ _ _ _ Hp Hd x (proj1 Hx)).
Qed.

(** C4 (amended) on the demo table: the record of site S3. *)
Lemma unparseable_date_record_witness :
  exists r, In r (rows demo_arth) /\ sample_date r = None /\ site_code r = "S3"
            /\ year r = None /\ month r = "NaT".
Proof.
  destruct (unparseable_date_record decimal iso_date demo_raw demo_sites
              demo_landuse demo_arth eq_refl eq_refl) as [H1 H2].
  destruct (H1 (obs "S3" "Fly" "sweep" (CNum (7 # 2)) "not a date"))
    as (r & Hr & Hd & Hs & _).
  - simpl; tauto.
  - reflexivity.
  - destruct (H2 r Hr Hd) as (Hy & Hm & _).
    exists r. repeat split; assumption.
Defined.

(** ** Sites without coordinates *)

Lemma has_coords_key (r : Row) :
  has_coords r = true ->
  exists x y, lat r = Some x /\ lon r = Some y /\
              coord_key r = Some (site_code r, (x, y)).
Proof.
  unfold coord_key, has_coords.
  destruct (lat r) as [x|], (lon r) as [y|]; try discriminate. eauto.
Qed.

(** A site that the coordinate table does not list gets no coordinates. *)
Lemma merge_coords_absent (right : list (string * (Qc * Qc))) (r r' : Row) :
  ~ In (site_code r) (map fst right) ->
  In r' (merge_left put_coords right r) ->
  r' = set_coords r None None.
Proof.
  intros Hn. unfold merge_left.
  destruct (filter _ right) as [|m ms] eqn:E.
  - intros [<- | []]. reflexivity.
  - exfalso. apply Hn.
    assert (Hm : In m (filter (fun kv => String.eqb (fst kv) (site_code r)) right))
      by (rewrite E; now left).
    apply filter_In in Hm. destruct Hm as [Hm Hk].
    apply String.eqb_eq in Hk. rewrite <- Hk. now apply in_map.
Qed.

Lemma prepared_no_coords (pf : string -> option Q)
    (pd : string -> option Timestamp) (raw : RawFrame) (sites : SitesFrame)
    (lu : LanduseFrame) (arth : DataFrame) (r : Row) :
  prepare pf pd raw sites lu = Ok arth ->
  in_cols "sample_date" (raw_columns raw) = true ->
  In r (rows arth) ->
  ~ In (site_code r) (map fst (site_lookup sites)) ->
  lat r = None /\ lon r = None.
Proof.
  intros Hp Hd Hr Hn.
  rewrite (prepared_rows _ _ _ _ _ _ Hp Hd) in Hr.
  apply in_map_iff in Hr. destruct Hr as (r3 & <- & Hr).
  apply in_map_iff in Hr. destruct Hr as (r2 & <- & H2).
  apply in_flat_map in H2. destruct H2 as (r1 & H1 & H2).
  apply in_flat_map in H1. destruct H1 as (r0 & H0 & H1).
  apply merge_left_In in H2. destruct H2 as (v2 & ->).
  assert (E1 : r1 = set_coords r0 None None).
  { apply (merge_coords_absent (site_lookup sites)); [|exact H1].
    intros Hin. apply Hn.
    apply merge_left_In in H1. destruct H1 as (v1 & ->).
    destruct v1 as [[? ?]|]; destruct v2 as [?|]; exact Hin. }
  subst r1. destruct v2 as [?|]; now split.
Qed.

Lemma empty_false_In (g : DataFrame) (r : Row) : In r (rows g) -> empty g = false.
Proof. unfold empty. destruct (rows g); [intros [] | reflexivity]. Qed.

(** Membership in the aggregates that do not read the coordinates. *)
Lemma other_aggregates_In (arth : DataFrame) (srt : sorter) (g : DataFrame) (r : Row) :
  has_cols full_columns arth = true ->
  has_cols full_columns g = true ->
  In r (rows g) ->
  (exists ts z, monthly_ts g = Ok (Some ts) /\ In ((month r, site_code r), z) ts) /\
  (exists comp t z, composition arth srt g = Ok (Some comp) /\
                    In ((site_code r, t), z) comp) /\
  (exists l z, landuse_quarter g = Some l /\
               In ((region3 r, categorical (quarter r)), z) l) /\
  (forall y, year r = Some y ->
     exists d row, diversity_fig arth g = Ok (Some d) /\ In row d /\
                   d_site_code row = site_code r /\ d_year row = y).
Proof.
  intros Ha Hg Hr. pose proof (taxon_col_present arth Ha) as Htc.
  split; [|split; [|split]].
  - rewrite (monthly_ts_ok g Hg). eexists. eexists. split; [reflexivity|].
    apply stable_sort_In. apply groupby_sum_In. split; [|reflexivity].
    exists r. split; [exact Hr | reflexivity].
  - rewrite (composition_ok arth srt g Htc Hg), (empty_false_In g r Hr).
    set (top := map fst (firstn 10 (sort_values_desc srt
                                      (groupby_sum taxon_key (rows g))))).
    eexists. exists (display_name (collapse_other top r)). eexists.
    split; [reflexivity|].
    apply groupby_sum_In. split; [|reflexivity].
    exists (collapse_other top r). split; [apply in_map; exact Hr|].
    unfold site_taxon_key, collapse_other.
    destruct (isin (display_name r) top); reflexivity.
  - rewrite (landuse_quarter_ok g Hg), (empty_false_In g r Hr).
    eexists. eexists. split; [reflexivity|].
    apply stable_sort_In. apply in_map_iff.
    exists ((region3 r, quarter r), group_total region_quarter_key (region3 r, quarter r) (rows g)).
    split; [reflexivity|].
    apply groupby_sum_In. split; [|reflexivity].
    exists r. split; [exact Hr | reflexivity].
  - intros y Hy. rewrite (diversity_fig_ok arth g Htc Hg).
    assert (Hk : In (site_code r, y) (map fst (groupby site_year_key (rows g)))).
    { apply groupby_keys. exists r. split; [exact Hr|].
      unfold site_year_key. now rewrite Hy. }
    apply in_map_iff in Hk. destruct Hk as ([k vs] & Ek & Hin). simpl in Ek. subst k.
    assert (Hd : In (div_row ((site_code r, y), vs))
                    (map div_row (groupby site_year_key (rows g))))
      by (apply in_map; exact Hin).
    destruct (map div_row (groupby site_year_key (rows g))) as [|d0 ds] eqn:E;
      [destruct Hd|].
    eexists. eexists. split; [reflexivity|]. split; [exact Hd|]. split; reflexivity.
Qed.

(** The map aggregate lists exactly the sites that have a row with both
    coordinates. *)
Lemma site_map_In (g : DataFrame) :
  has_cols full_columns g = true ->
  (forall m k z, site_map g = Ok (Some m) -> In (k, z) m ->
     exists r, In r (rows g) /\ site_code r = fst k /\
               lat r = Some (fst (snd k)) /\ lon r = Some (snd (snd k))) /\
  (forall r, In r (rows g) -> has_coords r = true ->
     exists m x y z, site_map g = Ok (Some m) /\ lat r = Some x /\ lon r = Some y /\
                     In ((site_code r, (x, y)), z) m).
Proof.
  intros Hg. rewrite (site_map_ok g Hg). split.
  - intros m k z Hm Hin.
    destruct (filter has_coords (rows g)) as [|r0 rs]; [discriminate|].
    injection Hm as <-. apply groupby_sum_In in Hin.
    destruct Hin as ((r & Hr & Hk) & _). exists r. split; [exact Hr|].
    unfold coord_key in Hk. destruct (lat r), (lon r); try discriminate.
    simpl in Hk.
    injection Hk as <-. simpl. auto.
  - intros r Hr Hc.
    destruct (filter has_coords (rows g)) as [|r0 rs] eqn:E.
    + exfalso. assert (Hin : In r (filter has_coords (rows g)))
        by (apply filter_In; now split).
      rewrite E in Hin. destruct Hin.
    + destruct (has_coords_key r Hc) as (x & y & Hx & Hy & Hk).
      eexists. exists x, y. eexists. split; [reflexivity|].
      split; [exact Hx|]. split; [exact Hy|].
      apply groupby_sum_In. split; [|reflexivity]. eauto.
Qed.

Lemma composition_member (top : list string) (rs : list Row) (r : Row) :
  In r rs ->
  exists t z,
    In ((site_code r, t), z)
       (groupby_sum site_taxon_key (map (collapse_other top) rs)).
Proof.
  intros Hr. exists (display_name (collapse_other top r)). eexists.
  apply groupby_sum_In. split; [|reflexivity].
  exists (collapse_other top r). split; [now apply in_map|].
  unfold site_taxon_key, collapse_other.
  destruct (isin (display_name r) top); reflexivity.
Qed.

Lemma landuse_member (g : DataFrame) (r : Row) :
  has_cols full_columns g = true ->
  In r (rows g) ->
  exists l z, landuse_quarter g = Some l /\
              In ((region3 r, categorical (quarter r)), z) l.
Proof.
  intros Hg Hr. rewrite (landuse_quarter_ok g Hg), (empty_false_In g r Hr).
  eexists. eexists. split; [reflexivity|].
  apply stable_sort_In. apply in_map_iff.
  exists ((region3 r, quarter r),
          group_total region_quarter_key (region3 r, quarter r) (rows g)).
  split; [reflexivity|].
  apply groupby_sum_In. split; [|reflexivity].
  exists r. split; [exact Hr | reflexivity].
Qed.

Lemma composition_st_ok (arth : DataFrame)
    (srt : sorter) (g : DataFrame) :
  taxon_col arth = Some "display_name" ->
  has_cols full_columns g = true ->
  composition_st arth srt g
  = Ok (if empty g then None
        else Some (groupby_sum site_taxon_key
               (map (collapse_other
                       (map fst (firstn 10 (sort_values_desc srt
                                              (groupby_sum taxon_key (rows g))))))
                    (rows g)))).
Proof.
  intros Htc H. unfold composition_st, top_taxa_st. rewrite Htc.
  destruct (empty g); cbn [negb]; [reflexivity|].
  assert (has_col "display_name" g = true) as Hd by col_present H.
  assert (has_col "site_code" g = true) as Hs by col_present H.
  assert (has_col "count" g = true) as Hc by col_present H.
  now rewrite (require_ok _ _ Hd), (require_ok _ _ Hs), (require_ok _ _ Hc).
Qed.

(** What the page of [streamlit_app.py] shows, on a joined table with all
    its columns. *)
Lemma streamlit_page_inv (arth : DataFrame)
    (srt : sorter)
    (sites taxa : list string) (years : list Z) (p : Page) :
  has_cols full_columns arth = true ->
  streamlit_page arth srt sites taxa years = Ok p ->
  exists g,
    apply_filters_st arth arth sites taxa years = Ok g /\
    has_cols full_columns g = true /\
    rows g = filter (fun r => site_ok sites r && taxon_ok taxa r
                              && year_ok years r) (rows arth) /\
    composition_st arth srt g = Ok (page_comp p) /\
    page_landuse p = landuse_quarter g /\
    site_map g = Ok (page_map p).
Proof.
  intros H. unfold streamlit_page.
  assert (Hf : has_cols filter_columns arth = true).
  { unfold has_cols, filter_columns. apply forallb_forall. intros c Hc.
    apply (has_cols_In _ _ _ H). simpl in *. tauto. }
  pose proof (taxon_col_present arth H) as Htc.
  pose proof (apply_filters_st_eq arth arth sites taxa years Hf Htc) as Eg.
  remember (select (fun r => site_ok sites r && taxon_ok taxa r
                             && year_ok years r) arth) as g eqn:Eqg.
  assert (Hg : has_cols full_columns g = true) by (subst g; exact H).
  rewrite Eg. cbn [bind].
  destruct (summary_ok arth g Htc Hg) as (rc & ->). cbn [bind].
  rewrite (composition_st_ok arth srt g Htc Hg). cbn [bind].
  rewrite (site_map_ok g Hg). cbn [bind].
  intros [= <-]. exists g. cbn [page_comp page_landuse page_map].
  split; [reflexivity|]. split; [exact Hg|]. split; [now subst g|].
  split; [now apply composition_st_ok|]. split; [reflexivity|].
  now apply site_map_ok.
Qed.

(** C8: a site that the coordinate table does not list gets missing
    coordinates.  The filters do not read the coordinates, so its records
    are in the filtered table whenever they pass the filters, and each of
    them is counted in the monthly series, the composition table, the
    quarter-by-region table and (when it has a year) the diversity table.
    Only the map aggregate leaves it out: its groups are exactly the sites
    with a record that has both coordinates. *)
Theorem missing_coordinates_only_affect_map
    (pf : string -> option Q) (pd : string -> option Timestamp)
    (raw : RawFrame) (sites : SitesFrame) (lu : LanduseFrame) (arth : DataFrame) :
  prepare pf pd raw sites lu = Ok arth ->
  raw_complete raw = true ->
  (forall r, In r (rows arth) ->
     ~ In (site_code r) (map fst (site_lookup sites)) ->
     lat r = None /\ lon r = None) /\
  (forall srt sel taxa traps sd ed v,
     update_visuals arth pd srt sel taxa traps sd ed = Ok v ->
     (forall r, In r (table_data v) <->
        In r (rows arth) /\
        site_ok sel r && taxon_ok taxa r && trap_ok traps r
        && date_ok pd sd ed r = true) /\
     (forall r, In r (table_data v) ->
        (exists ts z, ts_fig v = Some ts /\ In ((month r, site_code r), z) ts) /\
        (exists comp t z, comp_fig v = Some comp /\ In ((site_code r, t), z) comp) /\
        (exists l z, landuse_fig v = Some l /\
                     In ((region3 r, categorical (quarter r)), z) l) /\
        (forall y, year r = Some y ->
           exists d row, div_fig v = Some d /\ In row d /\
                         d_site_code row = site_code r /\ d_year row = y)) /\
     (forall site,
        (forall r, In r (table_data v) -> site_code r = site ->
                   lat r = None \/ lon r = None) ->
        forall m k z, map_fig v = Some m -> In (k, z) m -> fst k <> site) /\
     (forall r, In r (table_data v) -> has_coords r = true ->
        exists m x y z, map_fig v = Some m /\ lat r = Some x /\ lon r = Some y /\
                        In ((site_code r, (x, y)), z) m)) /\
  (forall srt sel taxa years p,
     streamlit_page arth srt sel taxa years = Ok p ->
     exists g,
       apply_filters_st arth arth sel taxa years = Ok g /\
       (forall r, In r (rows g) <->
          In r (rows arth) /\
          site_ok sel r && taxon_ok taxa r && year_ok years r = true) /\
       (forall r, In r (rows g) ->
          (exists comp t z, page_comp p = Some comp /\ In ((site_code r, t), z) comp) /\
          (exists l z, page_landuse p = Some l /\
                       In ((region3 r, categorical (quarter r)), z) l)) /\
       (forall site,
          (forall r, In r (rows g) -> site_code r = site ->
                     lat r = None \/ lon r = None) ->
          forall m k z, page_map p = Some m -> In (k, z) m -> fst k <> site) /\
       (forall r, In r (rows g) -> has_coords r = true ->
          exists m x y z, page_map p = Some m /\ lat r = Some x /\ lon r = Some y /\
                          In ((site_code r, (x, y)), z) m)).
Proof.
  intros Hp Hraw.
  destruct (prepared_full_columns _ _ _ _ _ _ Hp Hraw) as [Hd Hfull].
  split; [|split].
  - intros r Hr Hn. exact (prepared_no_coords _ _ _ _ _ _ r Hp Hd Hr Hn).
  - intros srt sel taxa traps sd ed v Ev.
    destruct (update_visuals_inv _ _ _ _ _ _ _ _ _ Hfull Ev)
      as (g & Eg & Hg & Et & Ets & Ediv & Ecomp & Elu & Emap).
    destruct (apply_filters_arth _ _ _ _ _ _ _ _ Hfull Eg) as [Hc Hrows].
    rewrite Et. split; [|split; [|split]].
    + intros r. rewrite Hrows. apply filter_In.
    + intros r Hr.
      destruct (other_aggregates_In arth srt g r Hfull Hg Hr)
        as ((ts & z & E1 & H1) & (comp & t & z2 & E2 & H2)
            & (l & z3 & E3 & H3) & H4).
      split; [|split; [|split]].
      * rewrite (monthly_ts_ok g Hg) in E1. injection E1 as <-.
        rewrite Ets. eauto.
      * rewrite Ecomp in E2. injection E2 as E2. rewrite E2. eauto.
      * rewrite Elu, E3. eauto.
      * intros y Hy. destruct (H4 y Hy) as (d & row & E4 & H4').
        rewrite Ediv in E4. injection E4 as E4. rewrite E4. eauto.
    + intros site Hsite m k z Em Hin Hk.
      destruct (site_map_In g Hg) as [Hmap _].
      rewrite Emap, Em in Hmap.
      destruct (Hmap m k z eq_refl Hin) as (r & Hr & Hs & Hla & Hlo).
      destruct (Hsite r Hr (eq_trans Hs Hk)); congruence.
    + intros r Hr Hco.
      destruct (site_map_In g Hg) as [_ Hmap].
      destruct (Hmap r Hr Hco) as (m & x & y & z & Em & Hx & Hy & Hin).
      rewrite Emap in Em. injection Em as Em. exists m, x, y, z. auto.
  - intros srt sel taxa years p Ep.
    destruct (streamlit_page_inv _ _ _ _ _ _ Hfull Ep)
      as (g & Eg & Hg & Hrows & Ecomp & Elu & Emap).
    pose proof (taxon_col_present arth Hfull) as Htc.
    exists g. split; [exact Eg|]. split; [|split; [|split]].
    + intros r. rewrite Hrows. apply filter_In.
    + intros r Hr. split.
      * rewrite (composition_st_ok arth srt g Htc Hg), (empty_false_In g r Hr) in Ecomp.
        injection Ecomp as <-.
        destruct (composition_member
                    (map fst (firstn 10 (sort_values_desc srt
                                           (groupby_sum taxon_key (rows g)))))
                    (rows g) r Hr) as (t & z & Hin).
        eauto.
      * rewrite Elu. now apply landuse_member.
    + intros site Hsite m k z Em Hin Hk.
      destruct (site_map_In g Hg) as [Hmap _].
      rewrite Emap, Em in Hmap.
      destruct (Hmap m k z eq_refl Hin) as (r & Hr & Hs & Hla & Hlo).
      destruct (Hsite r Hr (eq_trans Hs Hk)); congruence.
    + intros r Hr Hco.
      destruct (site_map_In g Hg) as [_ Hmap].
      destruct (Hmap r Hr Hco) as (m & x & y & z & Em & Hx & Hy & Hin).
      rewrite Emap in Em. injection Em as Em. exists m, x, y, z. auto.
Qed.

(** C8 on the demo table: site S3 is not in the coordinate table. *)
Lemma missing_coordinates_only_affect_map_witness :
  exists v,
    update_visuals demo_arth iso_date insertion_sort [] [] [] None None = Ok v /\
    (exists r, In r (table_data v) /\ site_code r = "S3" /\ lat r = None) /\
    (exists ts z, ts_fig v = Some ts /\ In (("NaT", "S3"), z) ts) /\
    (forall m k z, map_fig v = Some m -> In (k, z) m -> fst k <> "S3").
Proof.
  assert (Hfull : has_cols full_columns demo_arth = true) by reflexivity.
  destruct (update_visuals_returns demo_arth iso_date insertion_sort [] [] [] None None Hfull)
    as (v & Ev); [discriminate|].
  destruct (missing_coordinates_only_affect_map decimal iso_date demo_raw
              demo_sites demo_landuse demo_arth eq_refl eq_refl) as (_ & H & _).
  destruct (H insertion_sort [] [] [] None None v Ev) as (Htab & Hagg & Hmap & _).
  destruct (update_visuals_inv _ _ _ _ _ _ _ _ _ Hfull Ev) as (g & Eg & _ & Et & _).
  vm_compute in Eg. injection Eg as <-.
  exists v. split; [exact Ev|].
  assert (Hr : exists r, In r (table_data v) /\ site_code r = "S3" /\ lat r = None
                         /\ month r = "NaT").
  { rewrite Et. eexists. split; [simpl; right; right; right; left; reflexivity|].
    repeat split. }
  destruct Hr as (r & Hr & Hs & Hl & Hm).
  split; [eauto|]. split.
  - destruct (Hagg r Hr) as ((ts & z & E1 & H1) & _).
    rewrite Hm, Hs in H1. eauto.
  - apply Hmap. intros x Hx Hxs. rewrite Et in Hx. simpl in Hx.
    destruct Hx as [<- | [<- | [<- | [<- | []]]]]; try discriminate Hxs.
    now left.
Defined.

(** ** Stable sorting *)

Section StableSort.

Context {A : Type} (le : A -> A -> bool).

Hypothesis le_total : forall x y, le x y = true \/ le y x = true.

Hypothesis le_trans : forall x y z, le x y = true -> le y z = true -> le x z = true.

Lemma insert_sorted_sorted (x : A) (l : list A) :
  StronglySorted (fun x y => le x y = true) l ->
  StronglySorted (fun x y => le x y = true) (insert_sorted le x l).
Proof.
  induction 1 as [|y l S IH F]; simpl.
  - repeat constructor.
  - destruct (le x y) eqn:E.
    + constructor; [now constructor|].
      constructor; [exact E|].
      eapply Forall_impl; [|exact F]. intros z Hz. eapply le_trans; eassumption.
    + constructor; [exact IH|].
      apply Forall_forall. intros z Hz.
      apply (Permutation_in _ (Permutation_sym (insert_sorted_perm le x l))) in Hz.
      destruct Hz as [<- | Hz].
      * destruct (le_total x y) as [H|H]; [congruence | exact H].
      * rewrite Forall_forall in F. now apply F.
Qed.

Lemma stable_sort_sorted (l : list A) :
  StronglySorted (fun x y => le x y = true) (stable_sort le l).
Proof.
  induction l as [|x l IH]; simpl; [constructor|].
  now apply insert_sorted_sorted.
Qed.

(** Stability: the sort refines an order that the input already has. *)
Variable R : A -> A -> Prop.

Lemma insert_sorted_stable (x : A) (l : list A) :
  Forall (R x) l ->
  StronglySorted (fun x y => le x y = true /\ (le y x = true -> R x y)) l ->
  StronglySorted (fun x y => le x y = true /\ (le y x = true -> R x y))
    (insert_sorted le x l).
Proof.
  intros Hx. induction 1 as [|y l S IH F]; simpl.
  - repeat constructor.
  - inversion Hx as [|? ? Hxy Hxl]; subst.
    destruct (le x y) eqn:E.
    + constructor; [now constructor|].
      constructor; [split; auto|].
      rewrite Forall_forall in F, Hxl. apply Forall_forall. intros z Hz.
      split; [|intros _; now apply Hxl].
      destruct (F z Hz) as [Hyz _]. eapply le_trans; eassumption.
    + constructor; [now apply IH|].
      apply Forall_forall. intros z Hz.
      apply (Permutation_in _ (Permutation_sym (insert_sorted_perm le x l))) in Hz.
      destruct Hz as [<- | Hz].
      * split; [|congruence].
        destruct (le_total x y) as [H|H]; [congruence | exact H].
      * rewrite Forall_forall in F. now apply F.
Qed.

Lemma stable_sort_stable (l : list A) :
  StronglySorted R l ->
  StronglySorted (fun x y => le x y = true /\ (le y x = true -> R x y))
    (stable_sort le l).
Proof.
  induction 1 as [|x l S IH F]; simpl; [constructor|].
  apply insert_sorted_stable; [|exact IH].
  apply Forall_forall. intros z Hz. apply stable_sort_In in Hz.
  rewrite Forall_forall in F. now apply F.
Qed.

End StableSort.

Lemma StronglySorted_rev {A : Type} (R : A -> A -> Prop) (l : list A) :
  StronglySorted R l -> StronglySorted (fun x y => R y x) (rev l).
Proof.
  induction 1 as [|x l S IH F]; simpl; [constructor|].
  assert (G : forall l1 : list A,
    StronglySorted (fun a b => R b a) l1 -> Forall (fun a => R x a) l1 ->
    StronglySorted (fun a b => R b a) (l1 ++ [x])).
  { induction 1 as [|a l1 S1 IH1 F1]; simpl; intros Hx.
    - repeat constructor.
    - inversion Hx; subst. constructor; [now apply IH1|].
      apply Forall_app. split; [exact F1|]. now repeat constructor. }
  apply G; [exact IH|].
  apply Forall_forall. intros a Ha. apply in_rev in Ha.
  rewrite Forall_forall in F. now apply F.
Qed.

Lemma StronglySorted_impl {A : Type} (R S : A -> A -> Prop) (l : list A) :
  (forall x y, In x l -> In y l -> R x y -> S x y) ->
  StronglySorted R l -> StronglySorted S l.
Proof.
  intros H. induction 1 as [|x l Hs IH F]; [constructor|].
  constructor.
  - apply IH. intros a b Ha Hb. apply H; now right.
  - rewrite Forall_forall in *. intros y Hy. apply H; [now left | now right | now apply F].
Qed.

Lemma StronglySorted_filter {A : Type} (R : A -> A -> Prop) (p : A -> bool)
    (l : list A) :
  StronglySorted R l -> StronglySorted R (filter p l).
Proof.
  induction 1 as [|x l Hs IH F]; simpl; [constructor|].
  destruct (p x); [|exact IH]. constructor; [exact IH|].
  rewrite Forall_forall in *. intros y Hy. apply filter_In in Hy. now apply F.
Qed.

Lemma StronglySorted_map {A B : Type} (R : B -> B -> Prop) (f : A -> B)
    (l : list A) :
  StronglySorted (fun x y => R (f x) (f y)) l -> StronglySorted R (map f l).
Proof.
  induction 1 as [|x l Hs IH F]; simpl; [constructor|].
  constructor; [exact IH|]. now apply Forall_map.
Qed.

Lemma StronglySorted_NoDup {A : Type} (R : A -> A -> Prop) (l : list A) :
  (forall x, ~ R x x) -> StronglySorted R l -> NoDup l.
Proof.
  intros Hirr. induction 1 as [|x l Hs IH F]; constructor; [|exact IH].
  intros Hin. rewrite Forall_forall in F. exact (Hirr x (F x Hin)).
Qed.

(** ** Quarter order in the quarter-by-region table *)

Lemma index_of_q_order (q : string) :
  In q q_order -> exists i, index_of q q_order = Some i /\ (i < 4)%nat.
Proof.
  simpl. intros [<- | [<- | [<- | [<- | []]]]]; simpl; eexists; split;
    try reflexivity; lia.
Qed.

Lemma index_of_inj (l : list string) (a b : string) (i : nat) :
  index_of a l = Some i -> index_of b l = Some i -> a = b.
Proof.
  revert i. induction l as [|x l IH]; simpl; intros i; [discriminate|].
  destruct (String.eqb a x) eqn:Ea, (String.eqb b x) eqn:Eb.
  - apply String.eqb_eq in Ea, Eb. congruence.
  - intros [= <-]. destruct (index_of b l); discriminate.
  - destruct (index_of a l); try discriminate. intros E [= <-]. discriminate.
  - destruct (index_of a l) as [ia|]; try discriminate.
    destruct (index_of b l) as [ib|]; try discriminate.
    simpl. intros [= <-] [= ->]. now apply (IH ia).
Qed.

Lemma region_quarter_leb_total (x y : (string * option string) * Z) :
  region_quarter_leb x y = true \/ region_quarter_leb y x = true.
Proof.
  unfold region_quarter_leb, code_leb.
  rewrite (String.compare_antisym (fst (fst x)) (fst (fst y))).
  destruct (String.compare (fst (fst y)) (fst (fst x))); cbn [CompOpp]; auto.
  destruct (Nat.le_ge_cases (cat_code (snd (fst x))) (cat_code (snd (fst y))));
    [left | right]; now apply Nat.leb_le.
Qed.

Lemma region_quarter_leb_trans (x y z : (string * option string) * Z) :
  region_quarter_leb x y = true -> region_quarter_leb y z = true ->
  region_quarter_leb x z = true.
Proof.
  unfold region_quarter_leb, code_leb.
  destruct (String.compare (fst (fst x)) (fst (fst y))) eqn:E1; try discriminate.
  - apply String.compare_eq_iff in E1. rewrite E1.
    destruct (String.compare (fst (fst y)) (fst (fst z))); try discriminate; auto.
    rewrite !Nat.leb_le. lia.
  - intros _.
    destruct (String.compare (fst (fst y)) (fst (fst z))) eqn:E2; try discriminate.
    + apply String.compare_eq_iff in E2. rewrite <- E2, E1. auto.
    + intros _.
      pose proof (@kcmp_trans string string_KeyOrd _ _ _ E1 E2) as E3.
      simpl in E3. now rewrite E3.
Qed.

(** A table sorted by [sort_values], whose labelled keys are distinct, is
    in region order and within a region in strict quarter order. *)
Lemma sorted_quarters_strict (l : list ((string * option string) * Z)) :
  StronglySorted (fun x y => region_quarter_leb x y = true) l ->
  NoDup (map fst (filter labelled l)) ->
  Forall label_ok l ->
  StronglySorted region_quarter_before l.
Proof.
  induction 1 as [|x l S IH F]; intros Hnd Hok; [constructor|].
  inversion Hok as [|? ? Hx Hl]; subst.
  assert (Hnd' : NoDup (map fst (filter labelled l))).
  { simpl in Hnd. destruct (labelled x); [now inversion Hnd | exact Hnd]. }
  constructor; [now apply IH|].
  rewrite Forall_forall in *. intros y Hy.
  specialize (F y Hy). specialize (Hl y Hy).
  unfold region_quarter_leb in F. unfold region_quarter_before.
  destruct (String.compare (fst (fst x)) (fst (fst y))) eqn:E; try discriminate.
  - right. apply String.compare_eq_iff in E. split; [exact E|].
    unfold code_leb in F. apply Nat.leb_le in F.
    unfold label_ok in Hx, Hl. unfold quarter_before.
    destruct x as [[rx [a|]] zx], y as [[ry [b|]] zy]; cbn [fst snd] in *; auto.
    + destruct (index_of_q_order a Hx) as (i & Ei & Hi).
      destruct (index_of_q_order b Hl) as (j & Ej & Hj).
      exists i, j. split; [exact Ei|]. split; [exact Ej|].
      unfold cat_code in F. rewrite Ei, Ej in F.
      destruct (Nat.eq_dec i j) as [->|Hne]; [|lia].
      exfalso. assert (a = b) by (eapply index_of_inj; eassumption). subst.
      unfold labelled in Hnd at 1. cbn [filter fst snd map] in Hnd.
      inversion Hnd as [|? ? Hnotin _]; subst. apply Hnotin.
      change (ry, Some b) with (fst ((ry, Some b), zy)).
      apply in_map. apply filter_In. split; [exact Hy | reflexivity].
    + destruct (index_of_q_order b Hl) as (j & Ej & Hj).
      unfold cat_code in F. rewrite Ej in F. simpl in F. lia.
  - now left.
Qed.

Lemma map_filter_comm {A B : Type} (f : A -> B) (p : B -> bool) (l : list A) :
  filter p (map f l) = map f (filter (fun a => p (f a)) l).
Proof.
  induction l as [|a l IH]; simpl; [reflexivity|].
  destruct (p (f a)); simpl; now rewrite IH.
Qed.

Lemma NoDup_map_inj {A B : Type} (f : A -> B) (l : list A) :
  (forall x y, In x l -> In y l -> f x = f y -> x = y) ->
  NoDup l -> NoDup (map f l).
Proof.
  intros Hinj. induction 1 as [|a l Hn Hd IH]; simpl; constructor.
  - rewrite in_map_iff. intros (y & E & Hy).
    apply Hn. rewrite (Hinj a y); auto; [now left | now right].
  - apply IH. intros x y Hx Hy. apply Hinj; now right.
Qed.

(** After the conversion to a categorical, the keys that still carry a
    label are pairwise distinct, and every label is a quarter. *)
Lemma categorical_keys (rs : list Row) :
  let lu_cat := map (fun x : (string * string) * Z =>
                       ((fst (fst x), categorical (snd (fst x))), snd x))
                    (groupby_sum region_quarter_key rs) in
  NoDup (map fst (filter labelled lu_cat)) /\ Forall label_ok lu_cat.
Proof.
  cbv zeta. split.
  - rewrite map_filter_comm, map_map.
    apply NoDup_map_inj.
    + intros [[r1 q1] z1] [[r2 q2] z2] H1 H2. cbn [fst snd].
      apply filter_In in H1, H2. destruct H1 as [H1 L1], H2 as [H2 L2].
      unfold labelled, categorical in *. cbn [fst snd] in *.
      destruct (isin q1 q_order), (isin q2 q_order); try discriminate.
      intros [= -> ->].
      apply groupby_sum_In in H1, H2. destruct H1 as [_ ->], H2 as [_ ->].
      reflexivity.
    + apply NoDup_filter.
      assert (Hk : NoDup (map fst (groupby_sum region_quarter_key rs))).
      { eapply StronglySorted_NoDup; [|apply groupby_sum_sorted].
        intros k. apply klt_irrefl. }
      now apply NoDup_map_inv in Hk.
  - apply Forall_forall. intros x Hx. apply in_map_iff in Hx.
    destruct Hx as (y & <- & _). unfold label_ok, categorical. cbn [fst snd].
    destruct (isin (snd (fst y)) q_order) eqn:E; [|exact I].
    now apply isin_In.
Qed.

(** C7: the quarter-by-region table is ordered by region and, within a
    region, by quarter in the order Q1, Q2, Q3, Q4 (each at most once; a
    missing label, if any, comes last), and it is the same for every order
    of the input rows. *)
Theorem quarters_ordered (g : DataFrame)
    (out : list ((string * option string) * Z)) :
  landuse_quarter g = Some out ->
  StronglySorted region_quarter_before out /\
  (forall region, StronglySorted quarter_before (quarters_of region out)) /\
  (forall x, In x out -> label_ok x) /\
  (forall g', columns g' = columns g -> Permutation (rows g) (rows g') ->
              landuse_quarter g' = Some out).
Proof.
  unfold landuse_quarter.
  destruct (has_col "region3" g && has_col "quarter" g && has_col "count" g
            && negb (empty g)) eqn:Eguard; [|discriminate].
  intros [= <-].
  set (lu_cat := map (fun x : (string * string) * Z =>
                        ((fst (fst x), categorical (snd (fst x))), snd x))
                     (groupby_sum region_quarter_key (rows g))).
  destruct (categorical_keys (rows g)) as [Hnd Hok]. fold lu_cat in Hnd, Hok.
  assert (Hsorted : StronglySorted region_quarter_before
                      (stable_sort region_quarter_leb lu_cat)).
  { apply sorted_quarters_strict.
    - apply (stable_sort_sorted region_quarter_leb region_quarter_leb_total
               region_quarter_leb_trans).
    - eapply Permutation_NoDup; [|exact Hnd].
      apply Permutation_map, filter_perm, stable_sort_perm.
    - apply Forall_forall. intros x Hx. apply stable_sort_In in Hx.
      rewrite Forall_forall in Hok. now apply Hok. }
  split; [exact Hsorted|]. split; [|split].
  - intros region. unfold quarters_of. apply StronglySorted_map.
    eapply StronglySorted_impl;
      [|apply StronglySorted_filter; exact Hsorted].
    intros x y Hx Hy [Hlt | [_ Hq]]; [|exact Hq].
    apply filter_In in Hx, Hy. destruct Hx as [_ Hx], Hy as [_ Hy].
    apply String.eqb_eq in Hx, Hy. rewrite Hx, Hy in Hlt.
    exfalso. exact (klt_irrefl _ Hlt).
  - intros x Hx. apply stable_sort_In in Hx.
    rewrite Forall_forall in Hok. now apply Hok.
  - intros g' Hc Hp. unfold has_col. rewrite Hc. fold (has_col "region3" g).
    fold (has_col "quarter" g). fold (has_col "count" g).
    assert (empty g' = empty g) as ->.
    { unfold empty. destruct (rows g) as [|r rs].
      - apply Permutation_nil in Hp. now rewrite Hp.
      - destruct (rows g'); [|reflexivity].
        apply Permutation_sym, Permutation_nil in Hp. discriminate. }
    rewrite Eguard. subst lu_cat.
    now rewrite (groupby_sum_perm region_quarter_key _ _ Hp).
Qed.

(** C7 on a table that meets the quarters in the order Q4, Q2, Q3, Q1. *)
Lemma quarters_ordered_witness :
  landuse_quarter shuffled_quarters
  = Some [(("Urban", Some "Q1"), 1); (("Urban", Some "Q2"), 2);
          (("Urban", Some "Q3"), 3); (("Urban", Some "Q4"), 4)] /\
  map quarter (rows shuffled_quarters) = ["Q4"; "Q2"; "Q3"; "Q1"] /\
  StronglySorted quarter_before
    (quarters_of "Urban"
       [(("Urban", Some "Q1"), 1); (("Urban", Some "Q2"), 2);
        (("Urban", Some "Q3"), 3); (("Urban", Some "Q4"), 4)]).
Proof.
  split; [reflexivity|]. split; [reflexivity|].
  apply (quarters_ordered shuffled_quarters). reflexivity.
Defined.

(** ** Ranking of the taxa *)

Lemma insertion_sort_sorts : sorts_totals insertion_sort.
Proof.
  intros l. split; [apply stable_sort_perm|].
  unfold insertion_sort.
  eapply StronglySorted_impl;
    [|apply (stable_sort_sorted (fun x y : string * Z => snd x <=? snd y))].
  - intros x y _ _ H. now apply Z.leb_le.
  - intros x y. rewrite !Z.leb_le. lia.
  - intros x y z. rewrite !Z.leb_le. lia.
Qed.

Lemma top_taxa_row_order (arth : DataFrame)
    (srt : sorter) (df df' : DataFrame) (n : nat) :
  columns df' = columns df -> Permutation (rows df) (rows df') ->
  top_taxa arth srt df' n = top_taxa arth srt df n /\
  top_taxa_st arth srt df' n = top_taxa_st arth srt df n.
Proof.
  intros Hc Hp. unfold top_taxa, top_taxa_st, require, has_col, empty.
  rewrite Hc, (groupby_sum_perm taxon_key _ _ Hp).
  assert (E : match rows df' with [] => true | _ => false end
              = match rows df with [] => true | _ => false end).
  { destruct (rows df) as [|r rs].
    - apply Permutation_nil in Hp. now rewrite Hp.
    - destruct (rows df'); [|reflexivity].
      apply Permutation_sym, Permutation_nil in Hp. discriminate. }
  rewrite E. split; reflexivity.
Qed.

(** C6, as stated, fails: Bee is met before Ant and both total 5, yet Ant
    is ranked before Bee; whatever the sort does with equal totals, the
    ranking is the same when the rows come in the opposite order (Ant met
    before Bee), so it cannot follow the order of first encounter. *)
Lemma top_taxa_tie_not_first_encountered :
  first_encountered tie_table = ["Bee"; "Ant"; "Cat"] /\
  first_encountered (reversed tie_table) = ["Cat"; "Ant"; "Bee"] /\
  taxon_total "Bee" (rows tie_table) = 5 /\
  taxon_total "Ant" (rows tie_table) = 5 /\
  top_taxa tie_table insertion_sort tie_table 20 = Ok ["Cat"; "Ant"; "Bee"] /\
  top_taxa_st tie_table insertion_sort tie_table 20 = Ok ["Cat"; "Ant"; "Bee"] /\
  top_taxa tie_table insertion_sort tie_table 2 = Ok ["Cat"; "Ant"] /\
  (forall srt n,
     top_taxa tie_table srt (reversed tie_table) n = top_taxa tie_table srt tie_table n).
Proof.
  repeat (split; [reflexivity|]).
  intros srt n. apply top_taxa_row_order; [reflexivity|].
  apply Permutation_rev.
Qed.

Lemma taxon_total_group (t : string) (rs : list Row) :
  group_total taxon_key t rs = taxon_total t rs.
Proof.
  unfold group_total, taxon_total. f_equal. apply filter_ext. intros r.
  unfold key_is, taxon_key, keqb. simpl.
  destruct (String.eqb_spec (display_name r) t) as [->|Hne].
  - pose proof (@kcmp_refl string _ t) as Hrefl. simpl in Hrefl.
    now rewrite Hrefl.
  - destruct (String.compare t (display_name r)) eqn:E; try reflexivity.
    apply String.compare_eq_iff in E. congruence.
Qed.

Lemma sort_values_desc_perm {K : Type} (srt : list (K * Z) -> list (K * Z))
    (s : list (K * Z)) :
  (forall l, Permutation l (srt l)) -> Permutation s (sort_values_desc srt s).
Proof.
  intros H. unfold sort_values_desc.
  eapply Permutation_trans; [apply Permutation_rev|].
  eapply Permutation_trans; [apply H|]. apply Permutation_rev.
Qed.

(** With a sort that keeps equal totals in place, the descending sort
    ranks by total and keeps the key order among equal totals. *)
Lemma sort_values_desc_ranked (s : list (string * Z)) :
  StronglySorted klt (map fst s) ->
  StronglySorted rank_before (sort_values_desc insertion_sort s).
Proof.
  intros Hs. unfold sort_values_desc, insertion_sort.
  set (le := fun x y : string * Z => snd x <=? snd y).
  assert (Hs' : StronglySorted (fun x y : string * Z => klt (fst x) (fst y)) s).
  { clear le. induction s as [|a s IH]; [constructor|].
    simpl in Hs. inversion Hs as [|? ? S F]; subst.
    constructor; [now apply IH|].
    rewrite Forall_forall in *. intros y Hy. apply F. now apply in_map. }
  apply StronglySorted_rev in Hs'.
  assert (Htot : forall x y, le x y = true \/ le y x = true).
  { intros x y. unfold le. rewrite !Z.leb_le. lia. }
  assert (Htr : forall x y z, le x y = true -> le y z = true -> le x z = true).
  { intros x y z. unfold le. rewrite !Z.leb_le. lia. }
  pose proof (stable_sort_stable le Htot Htr _ _ Hs') as H.
  cbv zeta in H. apply StronglySorted_rev in H.
  eapply StronglySorted_impl; [|exact H].
  intros x y _ _ [H1 H2]. unfold le in H1, H2. unfold rank_before.
  rewrite Z.leb_le in H1, H2.
  destruct (Z.eq_dec (snd x) (snd y)) as [E|E]; [right | left; lia].
  split; [exact E|]. apply H2. lia.
Qed.

(** C6 (amended): the top-N list is the first [n] taxa of a ranking that is
    determined by the totals and by the sort routine alone: it lists every
    taxon of the table once with its total count, larger totals first, and
    it is the same for every order of the rows and in both front ends, so
    ties are not broken by the order of first encounter.  When the sort
    keeps equal totals in place, taxa with equal totals come in ascending
    order of their names (the order of the grouped sums). *)
Theorem top_taxa_ranking (arth : DataFrame)
    (srt : sorter) (df : DataFrame) (n : nat) :
  taxon_col arth = Some "display_name" ->
  has_col "display_name" df = true ->
  has_col "count" df = true ->
  sorts_totals srt ->
  exists tot,
    top_taxa arth srt df n = Ok (map fst (firstn n tot)) /\
    top_taxa_st arth srt df n = Ok (map fst (firstn n tot)) /\
    StronglySorted (fun x y => snd y <= snd x) tot /\
    NoDup (map fst tot) /\
    (forall t z, In (t, z) tot <->
       (exists r, In r (rows df) /\ display_name r = t) /\
       z = taxon_total t (rows df)) /\
    (forall df', columns df' = columns df -> Permutation (rows df) (rows df') ->
       top_taxa arth srt df' n = Ok (map fst (firstn n tot)) /\
       top_taxa_st arth srt df' n = Ok (map fst (firstn n tot))) /\
    ((forall l, srt l = insertion_sort l) -> StronglySorted rank_before tot).
Proof.
  intros Htc Hd Hc Hsrt.
  set (s := groupby_sum taxon_key (rows df)).
  exists (sort_values_desc srt s).
  assert (Hperm : Permutation s (sort_values_desc srt s))
    by (apply sort_values_desc_perm; intros l; apply Hsrt).
  assert (Htop : top_taxa arth srt df n
                 = Ok (map fst (firstn n (sort_values_desc srt s)))).
  { unfold top_taxa. rewrite Htc.
    now rewrite (require_ok _ _ Hd), (require_ok _ _ Hc). }
  assert (Hst : top_taxa_st arth srt df n = top_taxa arth srt df n).
  { unfold top_taxa_st, top_taxa. rewrite Htc.
    rewrite (require_ok _ _ Hd), (require_ok _ _ Hc). cbn [bind].
    unfold empty. destruct (rows df) eqn:Er; [|reflexivity].
    assert (Hnil : sort_values_desc srt (groupby_sum taxon_key []) = []).
    { apply Permutation_nil.
      apply (sort_values_desc_perm srt (groupby_sum taxon_key []));
        intros l; apply Hsrt. }
    rewrite Hnil. now destruct n. }
  split; [exact Htop|]. split; [now rewrite Hst|].
  split.
  { unfold sort_values_desc. apply (StronglySorted_rev _ _ (proj2 (Hsrt (rev s)))). }
  split.
  { eapply Permutation_NoDup; [apply Permutation_map; exact Hperm|].
    eapply StronglySorted_NoDup; [|apply groupby_sum_sorted].
    intros k. apply klt_irrefl. }
  split.
  { intros t z.
    assert (Hin : In (t, z) (sort_values_desc srt s) <-> In (t, z) s).
    { split; apply Permutation_in; [apply Permutation_sym|]; exact Hperm. }
    rewrite Hin. unfold s. rewrite groupby_sum_In, taxon_total_group.
    split; intros ((r & Hr & Hk) & Hz); (split; [|exact Hz]); exists r;
      (split; [exact Hr|]); unfold taxon_key in *; congruence. }
  split.
  { intros df' Hcols Hp.
    destruct (top_taxa_row_order arth srt df df' n Hcols Hp) as [-> ->].
    split; [exact Htop | now rewrite Hst]. }
  intros Hstable. unfold sort_values_desc. rewrite Hstable.
  apply sort_values_desc_ranked, groupby_sum_sorted.
Qed.

(** C6 (amended) on the table with a tie, in both row orders. *)
Lemma top_taxa_ranking_witness :
  exists tot,
    top_taxa tie_table insertion_sort tie_table 2 = Ok (map fst (firstn 2 tot)) /\
    StronglySorted rank_before tot /\
    top_taxa tie_table insertion_sort (reversed tie_table) 2
    = Ok (map fst (firstn 2 tot)).
Proof.
  destruct (top_taxa_ranking tie_table insertion_sort tie_table 2
              eq_refl eq_refl eq_refl insertion_sort_sorts)
    as (tot & E1 & _ & _ & _ & _ & Hperm & Hstable).
  exists tot. split; [exact E1|]. split; [apply Hstable; reflexivity|].
  apply (Hperm (reversed tie_table)); [reflexivity | apply Permutation_rev].
Defined.

(** ** Missing columns and empty subsets *)

(** The guards that the two helpers do have: no taxon column, no year
    column, or no row. *)
Lemma aggregates_empty_when_guarded (arth : DataFrame)
    (srt : sorter) (df : DataFrame) (n : nat) :
  (forall l, Permutation l (srt l)) ->
  (taxon_col arth = None ->
   compute_diversity arth df = Ok [] /\ top_taxa arth srt df n = Ok []
   /\ top_taxa_st arth srt df n = Ok []) /\
  (has_col "year" df = false -> compute_diversity arth df = Ok []) /\
  (rows df = [] -> has_col "site_code" df = true ->
   compute_diversity arth df = Ok []) /\
  (rows df = [] -> top_taxa_st arth srt df n = Ok []) /\
  (rows df = [] -> has_col "display_name" df = true -> has_col "count" df = true ->
   top_taxa arth srt df n = Ok []).
Proof.
  intros Hsrt. unfold compute_diversity, top_taxa, top_taxa_st.
  split; [intros ->; auto|].
  split; [intros ->; now destruct (taxon_col arth)|].
  split; [|split].
  - intros Hr Hs. destruct (taxon_col arth); [|reflexivity].
    destruct (has_col "year" df); [|reflexivity]. simpl.
    rewrite (require_ok _ _ Hs), Hr. reflexivity.
  - intros Hr. destruct (taxon_col arth); [|reflexivity].
    unfold empty. now rewrite Hr.
  - intros Hr Hd Hc. destruct (taxon_col arth) as [tc|] eqn:E; [|reflexivity].
    assert (tc = "display_name") as ->.
    { unfold taxon_col, taxon_col_of in E.
      destruct (has_col "display_name" arth); congruence. }
    rewrite (require_ok _ _ Hd), (require_ok _ _ Hc), Hr. cbn [bind].
    assert (Hnil : sort_values_desc srt (groupby_sum taxon_key []) = [])
      by (apply Permutation_nil; now apply sort_values_desc_perm).
    rewrite Hnil. now destruct n.
Qed.

(** C9 does not hold for the [count] column: on a table without it both
    helpers raise [KeyError], although the loader accepts such a table and
    the quarter-by-region aggregate answers it with the placeholder. *)
Theorem aggregates_raise_without_count :
  has_col "count" no_count_table = false /\
  taxon_col no_count_table = Some "display_name" /\
  top_taxa no_count_table insertion_sort no_count_table 100
  = Raise (KeyError "count") /\
  top_taxa_st no_count_table insertion_sort no_count_table 100
  = Raise (KeyError "count") /\
  compute_diversity no_count_table no_count_table = Raise (KeyError "count") /\
  landuse_quarter no_count_table = None.
Proof. repeat split; reflexivity. Qed.

(* ================================================================== *)
(** ** The Shannon index *)

Local Open Scope R_scope.

Lemma Rpositive_true (c : R) : Rpositive c = true <-> 0 < c.
Proof. unfold Rpositive. destruct (Rlt_dec 0 c); split; auto; discriminate. Qed.

Lemma filter_Rpositive_pos (l : list R) : Forall (fun c => 0 < c) (filter Rpositive l).
Proof.
  apply Forall_forall. intros c Hc. apply filter_In in Hc.
  now apply Rpositive_true.
Qed.

Lemma sum_R_pos (l : list R) :
  Forall (fun c => 0 < c) l -> l <> [] -> 0 < sum_R l.
Proof.
  induction 1 as [|c l Hc Hl IH]; [congruence|]. intros _. simpl.
  destruct l as [|d l]; [simpl; lra|].
  assert (0 < sum_R (d :: l)) by (apply IH; discriminate). lra.
Qed.

Lemma sum_R_nonneg (l : list R) : Forall (fun c => 0 < c) l -> 0 <= sum_R l.
Proof. induction 1; simpl; lra. Qed.

Lemma sum_R_member_le (l : list R) (c : R) :
  Forall (fun c => 0 < c) l -> In c l -> c <= sum_R l.
Proof.
  induction 1 as [|d l Hd Hl IH]; simpl; [tauto|].
  pose proof (sum_R_nonneg l Hl).
  intros [-> | Hin]; [lra|]. specialize (IH Hin). lra.
Qed.

(** With two or more positive counts, each is less than their sum. *)
Lemma sum_R_member_lt (l : list R) (c : R) :
  Forall (fun c => 0 < c) l -> (2 <= List.length l)%nat -> In c l -> c < sum_R l.
Proof.
  intros H. revert c. induction H as [|d l Hd Hl IH]; simpl; [lia|].
  intros c Hlen [-> | Hin].
  - assert (0 < sum_R l); [|lra].
    apply sum_R_pos; [exact Hl|]. destruct l; [simpl in Hlen; lia | discriminate].
  - pose proof (sum_R_member_le l c Hl Hin). lra.
Qed.

Lemma ln_nonpos (x : R) : 0 < x -> x <= 1 -> ln x <= 0.
Proof.
  intros H0 H1. destruct (Req_dec x 1) as [->|Hne]; [rewrite ln_1; lra|].
  rewrite <- ln_1. left. apply ln_increasing; lra.
Qed.

Lemma ln_neg (x : R) : 0 < x -> x < 1 -> ln x < 0.
Proof. intros H0 H1. rewrite <- ln_1. now apply ln_increasing. Qed.

Lemma sum_R_nonpos_terms (l : list R) : Forall (fun t => t <= 0) l -> sum_R l <= 0.
Proof. induction 1; simpl; lra. Qed.

Lemma sum_R_neg_terms (l : list R) :
  Forall (fun t => t < 0) l -> l <> [] -> sum_R l < 0.
Proof.
  induction 1 as [|c l Hc Hl IH]; [congruence|]. intros _. simpl.
  destruct l as [|d l]; [simpl; lra|].
  assert (sum_R (d :: l) < 0) by (apply IH; discriminate). lra.
Qed.

(** The index written over the positive counts. *)
Lemma shannon_index_eq (counts : list R) :
  shannon_index counts
  = match filter Rpositive counts with
    | [] => 0
    | pos => - sum_R (map (fun c => c / sum_R pos * ln (c / sum_R pos)) pos)
    end.
Proof.
  unfold shannon_index. destruct (filter Rpositive counts) as [|c l]; [reflexivity|].
  now rewrite map_map.
Qed.

Lemma shannon_index_nonneg (counts : list R) : 0 <= shannon_index counts.
Proof.
  rewrite shannon_index_eq.
  pose proof (filter_Rpositive_pos counts) as Hpos.
  destruct (filter Rpositive counts) as [|c l] eqn:E; [lra|].
  set (pos := c :: l) in *.
  assert (HS : 0 < sum_R pos) by (apply sum_R_pos; [exact Hpos | discriminate]).
  assert (sum_R (map (fun c => c / sum_R pos * ln (c / sum_R pos)) pos) <= 0); [|lra].
  apply sum_R_nonpos_terms. apply Forall_forall. intros t Ht.
  apply in_map_iff in Ht. destruct Ht as (d & <- & Hd).
  rewrite Forall_forall in Hpos. pose proof (Hpos d Hd) as Hd0.
  pose proof (sum_R_member_le pos d (proj2 (Forall_forall _ _) Hpos) Hd) as Hle.
  assert (0 < d / sum_R pos) by (apply Rdiv_lt_0_compat; lra).
  assert (d / sum_R pos <= 1).
  { apply (Rmult_le_reg_r (sum_R pos)); [exact HS|].
    unfold Rdiv. rewrite Rmult_assoc, Rinv_l by lra. lra. }
  pose proof (ln_nonpos _ H H0). nra.
Qed.

(** The index vanishes exactly when at most one count is positive. *)
Lemma shannon_index_zero_iff (counts : list R) :
  shannon_index counts = 0 <-> (List.length (filter Rpositive counts) <= 1)%nat.
Proof.
  rewrite shannon_index_eq.
  pose proof (filter_Rpositive_pos counts) as Hpos.
  destruct (filter Rpositive counts) as [|c l] eqn:E; [simpl; split; [lia | reflexivity]|].
  destruct l as [|d l].
  - simpl. inversion Hpos; subst.
    replace (c / (c + 0)) with 1 by (field; lra). rewrite ln_1.
    split; [lia | intros _; lra].
  - set (pos := c :: d :: l) in *.
    assert (HS : 0 < sum_R pos) by (apply sum_R_pos; [exact Hpos | discriminate]).
    assert (sum_R (map (fun c => c / sum_R pos * ln (c / sum_R pos)) pos) < 0).
    { apply sum_R_neg_terms; [|discriminate].
      apply Forall_forall. intros t Ht.
      apply in_map_iff in Ht. destruct Ht as (e & <- & He).
      pose proof (proj1 (Forall_forall _ _) Hpos e He) as He0. simpl in He0.
      assert (Hlt : e < sum_R pos)
        by (apply sum_R_member_lt; [exact Hpos | simpl; lia | exact He]).
      assert (0 < e / sum_R pos) by (apply Rdiv_lt_0_compat; lra).
      assert (e / sum_R pos < 1).
      { apply (Rmult_lt_reg_r (sum_R pos)); [exact HS|].
        unfold Rdiv. rewrite Rmult_assoc, Rinv_l by lra. lra. }
      pose proof (ln_neg _ H H0). nra. }
    split; [lra | simpl; lia].
Qed.

Local Close Scope R_scope.

Lemma Rpositive_IZR (c : Z) : Rpositive (IZR c) = Zpositive c.
Proof.
  unfold Zpositive. destruct (Z.ltb_spec 0 c) as [H|H].
  - apply Rpositive_true. now apply (IZR_lt 0).
  - apply not_true_is_false. rewrite Rpositive_true. intros Hc.
    apply (lt_IZR 0) in Hc. lia.
Qed.

Lemma filter_Rpositive_IZR (l : list Z) :
  filter Rpositive (map IZR l) = map IZR (filter Zpositive l).
Proof.
  induction l as [|c l IH]; simpl; [reflexivity|].
  rewrite Rpositive_IZR. destruct (Zpositive c); simpl; now rewrite IH.
Qed.

(** C5, as stated, fails: a group whose counts are all zero has index 0
    although no taxon has a nonzero count, and so does a group with two
    nonzero counts of which one is negative. *)
Lemma shannon_zero_without_single_taxon :
  shannon_index (map IZR [0; 0]) = 0%R /\
  List.length (filter Znonzero [0; 0]) = 0%nat /\
  shannon_index (map IZR [-1; 5]) = 0%R /\
  List.length (filter Znonzero [-1; 5]) = 2%nat.
Proof.
  split; [|split; [reflexivity|split; [|reflexivity]]];
    apply shannon_index_zero_iff; rewrite filter_Rpositive_IZR; simpl; lia.
Qed.

(** C5 (amended): the Shannon index of any group of counts is
    non-negative, and it is 0 exactly when at most one taxon has a
    positive count (none, or a single one). *)
Theorem shannon_zero_iff_at_most_one_positive (counts : list R) (totals : list Z) :
  (0 <= shannon_index counts)%R /\
  (shannon_index counts = 0%R <-> (List.length (filter Rpositive counts) <= 1)%nat) /\
  (shannon_index (map IZR totals) = 0%R <->
   (List.length (filter Zpositive totals) <= 1)%nat).
Proof.
  split; [apply shannon_index_nonneg|].
  split; [apply shannon_index_zero_iff|].
  rewrite shannon_index_zero_iff, filter_Rpositive_IZR, length_map. tauto.
Qed.

(** ** The diversity table *)

Lemma key_is_site_year (site : string) (yr : Z) (r : Row) :
  key_is site_year_key (site, yr) r = in_group site yr r.
Proof.
  unfold key_is, site_year_key, in_group.
  destruct (year r) as [y|]; cbn [option_map]; [|now rewrite andb_false_r].
  destruct (keqb (site, yr) (site_code r, y)) eqn:E.
  - apply keqb_eq in E. injection E as E1 E2. subst site yr.
    now rewrite String.eqb_refl, Z.eqb_refl.
  - destruct (String.eqb_spec (site_code r) site) as [Hs|Hne]; [|reflexivity].
    destruct (Z.eqb_spec y yr) as [Hy|Hne]; [|reflexivity].
    rewrite Hs, Hy, keqb_refl in E. discriminate.
Qed.

Lemma sum_R_IZR (l : list Z) : sum_R (map IZR l) = IZR (sum_Z l).
Proof.
  induction l as [|c l IH]; simpl; [reflexivity|]. now rewrite IH, plus_IZR.
Qed.

Lemma sum_R_perm (l l' : list R) : Permutation l l' -> sum_R l = sum_R l'.
Proof.
  induction 1 as [|x l l' _ IH|x y l|l l' l'' _ IH1 _ IH2]; simpl; lra.
Qed.

(** On integer totals the index of the code is the formula. *)
Lemma shannon_index_IZR (totals : list Z) :
  shannon_index (map IZR totals) = shannon_positive totals.
Proof.
  rewrite shannon_index_eq, filter_Rpositive_IZR. unfold shannon_positive.
  destruct (filter Zpositive totals) as [|c l]; [reflexivity|].
  cbn [map]. change (IZR c :: map IZR l) with (map IZR (c :: l)).
  now rewrite sum_R_IZR, map_map.
Qed.

Lemma shannon_positive_perm (l l' : list Z) :
  Permutation l l' -> shannon_positive l = shannon_positive l'.
Proof.
  intros P. unfold shannon_positive.
  pose proof (filter_perm Zpositive l l' P) as Pf.
  destruct (filter Zpositive l) as [|c m] eqn:E.
  - apply Permutation_nil in Pf. now rewrite Pf.
  - destruct (filter Zpositive l') as [|c' m'] eqn:E'.
    + apply Permutation_sym, Permutation_nil in Pf. discriminate.
    + rewrite (sum_Z_perm _ _ Pf). f_equal.
      apply sum_R_perm. now apply Permutation_map.
Qed.

Lemma shannon_nonzero_positive (totals : list Z) :
  Forall (fun c => 0 <= c) totals ->
  shannon_nonzero totals = shannon_positive totals.
Proof.
  intros H. unfold shannon_nonzero, shannon_positive.
  assert (E : filter Znonzero totals = filter Zpositive totals).
  { apply filter_ext_in. intros c Hc. rewrite Forall_forall in H.
    specialize (H c Hc). unfold Znonzero, Zpositive.
    destruct (Z.eqb_spec c 0), (Z.ltb_spec 0 c); simpl; auto; lia. }
  cbv zeta. rewrite E. now destruct (filter Zpositive totals).
Qed.

Lemma distinct_taxa_spec (rs : list Row) :
  NoDup (distinct_taxa rs) /\
  (forall t, In t (distinct_taxa rs) <-> exists r, In r rs /\ display_name r = t).
Proof.
  unfold distinct_taxa. split; [apply NoDup_nodup|].
  intros t. rewrite nodup_In, in_map_iff. split; intros (r & H1 & H2); eauto.
Qed.

(** The taxa of the grouped sums are the distinct taxa, in name order. *)
Lemma taxon_keys_perm (rs : list Row) :
  Permutation (map fst (groupby_sum taxon_key rs)) (distinct_taxa rs).
Proof.
  apply NoDup_Permutation.
  - eapply StronglySorted_NoDup; [|apply groupby_sum_sorted].
    intros k. apply klt_irrefl.
  - apply distinct_taxa_spec.
  - intros t. rewrite groupby_sum_keys, groupby_keys.
    rewrite (proj2 (distinct_taxa_spec rs)).
    unfold taxon_key. split; intros (r & H1 & H2); exists r; split; congruence.
Qed.

Lemma taxon_counts_perm (rs : list Row) :
  Permutation (map snd (groupby_sum taxon_key rs)) (taxon_totals rs).
Proof.
  rewrite groupby_sum_expand, map_map. simpl.
  unfold taxon_totals.
  rewrite (map_ext _ (fun t => taxon_total t rs)) by (intros; apply taxon_total_group).
  apply Permutation_map. rewrite <- groupby_sum_keys. apply taxon_keys_perm.
Qed.

(** The diversity row of a group, against the formula. *)
Lemma div_row_spec (k : string * Z) (G : list Row) :
  d_site_code (div_row (k, G)) = fst k /\
  d_year (div_row (k, G)) = snd k /\
  richness (div_row (k, G)) = Z.of_nat (List.length (distinct_taxa G)) /\
  shannon (div_row (k, G)) = shannon_positive (taxon_totals G).
Proof.
  unfold div_row. cbn [d_site_code d_year richness shannon fst snd].
  split; [reflexivity|]. split; [reflexivity|]. split; [reflexivity|].
  pose proof (taxon_counts_perm G) as P.
  rewrite <- (shannon_positive_perm _ _ P).
  destruct (map snd (groupby_sum taxon_key G)) as [|c l] eqn:E; [reflexivity|].
  apply shannon_index_IZR.
Qed.

(** C1 (amended): the diversity table has exactly one row for every
    (site, year) group with at least one row; its richness is the number of
    distinct taxa of the group and its Shannon index is the negative sum of
    [p * ln p] over the taxa whose count total is positive ([p] the share
    of the taxon in the sum of these totals), 0 when no total is positive.
    When no total is negative this is the sum over the taxa with a nonzero
    total. *)
Theorem diversity_table_spec (arth df : DataFrame) :
  taxon_col arth = Some "display_name" ->
  has_cols full_columns df = true ->
  exists divs,
    compute_diversity arth df = Ok divs /\
    (forall site yr,
       (exists r, In r (rows df) /\ site_code r = site /\ year r = Some yr) ->
       let G := group_rows site yr (rows df) in
       exists d,
         In d divs /\ d_site_code d = site /\ d_year d = yr /\
         NoDup (distinct_taxa G) /\
         (forall t, In t (distinct_taxa G) <-> exists r, In r G /\ display_name r = t) /\
         richness d = Z.of_nat (List.length (distinct_taxa G)) /\
         shannon d = shannon_positive (taxon_totals G) /\
         (Forall (fun c => 0 <= c) (taxon_totals G) ->
          shannon d = shannon_nonzero (taxon_totals G)) /\
         (forall d', In d' divs -> d_site_code d' = site -> d_year d' = yr ->
                     d' = d)) /\
    (forall d, In d divs ->
       exists r, In r (rows df) /\ site_code r = d_site_code d
                 /\ year r = Some (d_year d)).
Proof.
  intros Htc Hcols.
  exists (map div_row (groupby site_year_key (rows df))).
  split; [now apply compute_diversity_ok|].
  assert (Hexp : groupby site_year_key (rows df)
                 = map (fun k => (k, group_rows (fst k) (snd k) (rows df)))
                       (map fst (groupby site_year_key (rows df)))).
  { rewrite (groupby_expand site_year_key (rows df)) at 1.
    apply map_ext. intros [s y]. unfold group_rows. simpl. f_equal.
    apply filter_ext. intros r. apply key_is_site_year. }
  assert (Hkeys : forall s y,
            In (s, y) (map fst (groupby site_year_key (rows df))) <->
            exists r, In r (rows df) /\ site_code r = s /\ year r = Some y).
  { intros s y. rewrite groupby_keys. unfold site_year_key.
    split; intros (r & Hr & Hk); exists r; (split; [exact Hr|]).
    - destruct (year r); simpl in Hk; [|discriminate]. injection Hk as -> ->. auto.
    - destruct Hk as [-> ->]. reflexivity. }
  split.
  - intros site yr Hex G.
    apply Hkeys in Hex.
    exists (div_row ((site, yr), G)).
    destruct (div_row_spec (site, yr) G) as (E1 & E2 & E3 & E4).
    split.
    { rewrite Hexp, map_map. apply in_map_iff. exists (site, yr).
      split; [reflexivity | exact Hex]. }
    split; [exact E1|]. split; [exact E2|].
    split; [apply distinct_taxa_spec|]. split; [apply distinct_taxa_spec|].
    split; [exact E3|]. split; [exact E4|]. split.
    { intros Hnn. rewrite E4. symmetry. now apply shannon_nonzero_positive. }
    intros d' Hd' Hs Hy. rewrite Hexp, map_map in Hd'.
    apply in_map_iff in Hd'. destruct Hd' as ([s y] & <- & _).
    destruct (div_row_spec (s, y) (group_rows s y (rows df))) as (F1 & F2 & _).
    cbn [fst snd] in *. rewrite F1 in Hs. rewrite F2 in Hy. subst s y. reflexivity.
  - intros d Hd. rewrite Hexp, map_map in Hd.
    apply in_map_iff in Hd. destruct Hd as ([s y] & <- & Hk).
    destruct (div_row_spec (s, y) (group_rows s y (rows df))) as (F1 & F2 & _).
    cbn [fst snd] in *. rewrite F1, F2. now apply Hkeys.
Qed.

Lemma shannon_positive_two_equal (totals : list Z) :
  filter Zpositive totals = [5; 5] -> shannon_positive totals = ln 2.
Proof.
  intros E. unfold shannon_positive. rewrite E.
  change (sum_Z [5; 5]) with 10. unfold sum_R. cbn [map fold_right].
  replace (5 / 10)%R with (/ 2)%R by lra.
  rewrite ln_Rinv by lra. lra.
Qed.

Lemma ln_nonpositive_arg (x : R) : (x <= 0)%R -> ln x = 0%R.
Proof.
  intros H. unfold ln. destruct (Rlt_dec 0 x) as [Hx|Hx]; [exfalso; lra | reflexivity].
Qed.

Lemma shannon_nonzero_mixed : shannon_nonzero [-3; 5; 5] <> ln 2.
Proof.
  unfold shannon_nonzero.
  change (filter Zpositive [-3; 5; 5]) with [5; 5].
  change (filter Znonzero [-3; 5; 5]) with [-3; 5; 5].
  cbv zeta. change (sum_Z [-3; 5; 5]) with 7. unfold sum_R. cbn [map fold_right].
  rewrite (ln_nonpositive_arg (-3 / 7)) by lra.
  replace (5 / 7)%R with (/ (7 / 5))%R by lra.
  rewrite ln_Rinv by lra.
  intros H.
  assert (E : (INR 10 * ln (7 / 5) = INR 7 * ln 2)%R).
  { rewrite !INR_IZR_INZ. simpl Z.of_nat. lra. }
  rewrite <- !ln_pow in E by lra.
  apply ln_inv in E; [|apply pow_lt; lra|apply pow_lt; lra].
  simpl in E. lra.
Qed.

(** C1, as stated, fails on a group with a negative total: all three
    taxa have a nonzero total, yet the index is the one of the two taxa
    with a positive total. *)
Lemma shannon_ignores_negative_total :
  exists d,
    compute_diversity mixed_sign_table mixed_sign_table = Ok [d] /\
    taxon_totals (group_rows "S1" 2020 (rows mixed_sign_table)) = [-3; 5; 5] /\
    filter Znonzero [-3; 5; 5] = [-3; 5; 5] /\
    filter Zpositive [-3; 5; 5] = [5; 5] /\
    shannon d = ln 2 /\
    shannon d = shannon_positive [5; 5] /\
    shannon d <> shannon_nonzero [-3; 5; 5].
Proof.
  assert (Hc : has_cols full_columns mixed_sign_table = true) by reflexivity.
  assert (Ht : taxon_col mixed_sign_table = Some "display_name") by reflexivity.
  rewrite (compute_diversity_ok _ _ Ht Hc).
  set (gs := groupby site_year_key (rows mixed_sign_table)).
  vm_compute in gs. subst gs. cbn [map].
  eexists. split; [reflexivity|].
  split; [reflexivity|]. split; [reflexivity|]. split; [reflexivity|].
  match goal with |- shannon (div_row (?k, ?G)) = _ /\ _ =>
    destruct (div_row_spec k G) as (_ & _ & _ & E) end.
  rewrite E.
  assert (E5 : shannon_positive [5; 5] = ln 2)
    by (apply shannon_positive_two_equal; reflexivity).
  match goal with |- shannon_positive ?t = _ /\ _ =>
    assert (E' : shannon_positive t = ln 2)
      by (apply shannon_positive_two_equal; reflexivity) end.
  rewrite E', E5. split; [reflexivity|]. split; [reflexivity|].
  intros H. apply shannon_nonzero_mixed. now symmetry.
Qed.

(** ** The value of [ln 2]

    [exp] is bounded from below through [1 + x <= exp x] and repeated
    squaring in fixed-point arithmetic (12 decimals, rounded down). *)

Lemma sq_chain_lower (n : nat) :
  forall (m : Z) (x : R),
    0 <= m -> (IZR m / IZR scale <= exp x)%R ->
    (IZR (sq_chain n m) / IZR scale <= exp (2 ^ n * x))%R.
Proof.
  assert (Hs : (0 < IZR scale)%R) by (apply (IZR_lt 0); reflexivity).
  induction n as [|n IH]; intros m x Hm H; simpl.
  - now rewrite Rmult_1_l.
  - replace (2 * 2 ^ n * x)%R with (2 ^ n * (2 * x))%R by ring.
    apply IH.
    + apply Z.div_pos; [nia | reflexivity].
    + replace (2 * x)%R with (x + x)%R by ring. rewrite exp_plus.
      assert (H0 : (0 <= IZR m / IZR scale)%R).
      { apply Rmult_le_pos; [now apply (IZR_le 0)|].
        left. now apply Rinv_0_lt_compat. }
      assert (H1 : (IZR (m * m / scale) / IZR scale
                    <= (IZR m / IZR scale) * (IZR m / IZR scale))%R).
      { assert (Hz : (m * m / scale) * scale <= m * m)
          by (rewrite Z.mul_comm; apply Z.mul_div_le; reflexivity).
        apply IZR_le in Hz. rewrite !mult_IZR in Hz.
        apply (Rmult_le_reg_r (IZR scale)); [exact Hs|].
        apply (Rmult_le_reg_r (IZR scale)); [exact Hs|].
        unfold Rdiv.
        replace (IZR (m * m / scale) * / IZR scale * IZR scale * IZR scale)%R
          with (IZR (m * m / scale) * IZR scale)%R by (field; lra).
        replace (IZR m * / IZR scale * (IZR m * / IZR scale) * IZR scale * IZR scale)%R
          with (IZR m * IZR m)%R by (field; lra).
        exact Hz. }
      pose proof (exp_pos x). nra.
Qed.

(** [ln 2] to four decimals. *)
Lemma ln2_bounds : (0.6931 < ln 2 < 0.6932)%R.
Proof.
  assert (Hs : (0 < IZR scale)%R) by (apply (IZR_lt 0); reflexivity).
  assert (Hpow : (2 ^ 14 = 16384)%R) by (simpl; lra).
  split.
  - (* exp (-0.6931) > 1/2 *)
    assert (H : (IZR (sq_chain 14 999957696533) / IZR scale
                 <= exp (2 ^ 14 * (- (0.6931 / 16384))))%R).
    { apply sq_chain_lower; [lia|].
      eapply Rle_trans; [|apply exp_ineq1_le].
      unfold scale. lra. }
    replace (2 ^ 14 * (- (0.6931 / 16384)))%R with (Ropp 0.6931) in H
      by (rewrite Hpow; lra).
    assert (Hc : (/ 2 < IZR (sq_chain 14 999957696533) / IZR scale)%R).
    { assert (Hz : scale < 2 * sq_chain 14 999957696533) by (vm_compute; reflexivity).
      apply IZR_lt in Hz. rewrite mult_IZR in Hz.
      apply (Rmult_lt_reg_r (IZR scale)); [exact Hs|].
      unfold Rdiv. rewrite Rmult_assoc, Rinv_l by lra. lra. }
    assert (He : (exp 0.6931 < 2)%R).
    { rewrite exp_Ropp in H. pose proof (exp_pos 0.6931) as Hp.
      assert (Hi : (/ 2 < / exp 0.6931)%R) by lra.
      assert (Hm : (/ exp 0.6931 * exp 0.6931 = 1)%R) by (apply Rinv_l; lra).
      nra. }
    apply exp_lt_inv. rewrite exp_ln by lra. exact He.
  - (* exp 0.6932 > 2 *)
    assert (H : (IZR (sq_chain 14 1000042309570) / IZR scale
                 <= exp (2 ^ 14 * (0.6932 / 16384)))%R).
    { apply sq_chain_lower; [lia|].
      eapply Rle_trans; [|apply exp_ineq1_le].
      unfold scale. lra. }
    replace (2 ^ 14 * (0.6932 / 16384))%R with 0.6932%R in H
      by (rewrite Hpow; lra).
    assert (Hc : (2 < IZR (sq_chain 14 1000042309570) / IZR scale)%R).
    { assert (Hz : 2 * scale < sq_chain 14 1000042309570) by (vm_compute; reflexivity).
      apply IZR_lt in Hz. rewrite mult_IZR in Hz.
      apply (Rmult_lt_reg_r (IZR scale)); [exact Hs|].
      unfold Rdiv. rewrite Rmult_assoc, Rinv_l by lra. lra. }
    apply exp_lt_inv. rewrite exp_ln by lra. lra.
Qed.

(** C1 (amended), the example of the specification: the group (S1, 2020)
    of the rows (S1, Ant, 5, 2020-01-15) and (S1, Bee, 5, 2020-01-20) has
    richness 2 and Shannon index [ln 2], about 0.6931. *)
Lemma diversity_table_spec_witness :
  exists d,
    compute_diversity ant_bee_table ant_bee_table = Ok [d] /\
    d_site_code d = "S1" /\ d_year d = 2020 /\
    richness d = 2 /\ shannon d = ln 2 /\
    (0.6931 < shannon d < 0.6932)%R.
Proof.
  assert (Hc : has_cols full_columns ant_bee_table = true) by reflexivity.
  assert (Ht : taxon_col ant_bee_table = Some "display_name") by reflexivity.
  destruct (diversity_table_spec ant_bee_table ant_bee_table Ht Hc)
    as (divs & E & Hgroup & _).
  destruct (Hgroup "S1" 2020) as (d & Hin & Hs & Hy & _ & _ & Hr & Hsh & _).
  { eexists. split; [left; reflexivity|]. split; reflexivity. }
  rewrite (compute_diversity_ok _ _ Ht Hc) in E. injection E as E.
  set (gs := groupby site_year_key (rows ant_bee_table)) in E.
  vm_compute in gs. subst gs. cbn [map] in E. subst divs.
  destruct Hin as [<- | []].
  eexists. split; [rewrite (compute_diversity_ok _ _ Ht Hc); reflexivity|].
  split; [reflexivity|]. split; [reflexivity|]. split; [reflexivity|].
  assert (Hln : shannon_positive
                  (taxon_totals (group_rows "S1" 2020 (rows ant_bee_table))) = ln 2)
    by (apply shannon_positive_two_equal; reflexivity).
  split.
  - rewrite <- Hln. exact Hsh.
  - replace (shannon _) with (ln 2) by (rewrite <- Hln; symmetry; exact Hsh).
    exact ln2_bounds.
Defined.

(* ================================================================== *)
(** ** The coordinate lookup and the two joins *)

Lemma filter_map_In {A B : Type} (f : A -> option B) (l : list A) (b : B) :
  In b (filter_map f l) <-> exists a, In a l /\ f a = Some b.
Proof.
  induction l as [|a l IH]; simpl.
  - split; [intros [] | intros (a & [] & _)].
  - destruct (f a) as [b'|] eqn:E; simpl; rewrite IH; split.
    + intros [<- | (a' & Ha & Hf)]; eauto.
    + intros (a' & [<- | Ha] & Hf); [left; congruence | eauto].
    + intros (a' & Ha & Hf); eauto.
    + intros (a' & [<- | Ha] & Hf); [congruence | eauto].
Qed.

Lemma filter_map_split {A B : Type} (f : A -> option B) (l : list A) :
  forall (pre' : list B) (b : B) (post' : list B),
    filter_map f l = pre' ++ b :: post' ->
    exists pre a post,
      l = pre ++ a :: post /\ f a = Some b /\
      filter_map f pre = pre' /\ filter_map f post = post'.
Proof.
  induction l as [|a l IH]; simpl; intros pre' b post' E.
  - now destruct pre'.
  - destruct (f a) as [b'|] eqn:Ea.
    + destruct pre' as [|p pre']; simpl in E; injection E as -> E.
      * exists [], a, l. repeat split; auto.
      * destruct (IH _ _ _ E) as (pre & a' & post & -> & Hf & Hpre & Hpost).
        exists (a :: pre), a', post. simpl. rewrite Ea, Hpre. repeat split; auto.
    + destruct (IH _ _ _ E) as (pre & a' & post & -> & Hf & Hpre & Hpost).
      exists (a :: pre), a', post. simpl. rewrite Ea. repeat split; auto.
Qed.

Lemma drop_duplicates_keys {V : Type} (l : list (string * V)) :
  forall seen,
    NoDup (map fst (drop_duplicates seen l)) /\
    (forall k, In k (map fst (drop_duplicates seen l)) -> ~ In k seen).
Proof.
  induction l as [|[k v] l IH]; intros seen; simpl.
  - split; [constructor | intros k []].
  - destruct (isin k seen) eqn:E; [apply IH|].
    destruct (IH (k :: seen)) as [Hnd Hs]. simpl. split.
    + constructor; [|exact Hnd]. intros Hin. apply (Hs k Hin). now left.
    + intros k' [<- | Hin].
      * rewrite <- isin_In, E. discriminate.
      * intros Hk. apply (Hs k' Hin). now right.
Qed.

Lemma drop_duplicates_first {V : Type} (l : list (string * V)) :
  forall seen k v,
    In (k, v) (drop_duplicates seen l) ->
    exists pre post, l = pre ++ (k, v) :: post /\ ~ In k (map fst pre).
Proof.
  induction l as [|[k0 v0] l IH]; intros seen k v; simpl; [intros []|].
  destruct (isin k0 seen) eqn:E.
  - intros Hin.
    assert (Hk : ~ In k seen).
    { apply (proj2 (drop_duplicates_keys l seen)).
      change k with (fst (k, v)). now apply in_map. }
    destruct (IH _ _ _ Hin) as (pre & post & -> & Hpre).
    exists ((k0, v0) :: pre), post. split; [reflexivity|].
    simpl. intros [-> | H]; [|tauto].
    apply Hk. now apply isin_In.
  - intros [[= -> ->] | Hin].
    + exists [], l. split; [reflexivity | intros []].
    + assert (Hk : ~ In k (k0 :: seen)).
      { apply (proj2 (drop_duplicates_keys l (k0 :: seen))).
        change k with (fst (k, v)). now apply in_map. }
      destruct (IH _ _ _ Hin) as (pre & post & -> & Hpre).
      exists ((k0, v0) :: pre), post. split; [reflexivity|].
      simpl. intros [-> | H]; [|tauto]. apply Hk. now left.
Qed.

Lemma drop_duplicates_complete {V : Type} (l : list (string * V)) :
  forall seen k,
    In k (map fst l) -> ~ In k seen -> In k (map fst (drop_duplicates seen l)).
Proof.
  induction l as [|[k0 v0] l IH]; intros seen k; simpl; [intros []|].
  intros [-> | Hin] Hk.
  - destruct (isin k seen) eqn:E; [|now left].
    exfalso. apply Hk. now apply isin_In.
  - destruct (isin k0 seen) eqn:E; [now apply IH|].
    simpl. destruct (String.eqb k0 k) eqn:Ek.
    + left. now apply String.eqb_eq.
    + right. apply IH; [exact Hin|].
      intros [-> | H]; [|tauto]. now rewrite String.eqb_refl in Ek.
Qed.

Lemma complete_site_inv (la lo : string) (s : SiteRecord) (k : string) (x y : Qc) :
  complete_site la lo s = Some (k, (x, y)) <->
  s_site_code s = Some k /\ s_value s la = Some x /\ s_value s lo = Some y.
Proof.
  unfold complete_site.
  destruct (s_site_code s) as [k'|], (s_value s la) as [x'|], (s_value s lo) as [y'|];
    split; try discriminate; try (intros (? & ? & ?); discriminate).
  - intros [= -> -> ->]. auto.
  - intros ([= ->] & [= ->] & [= ->]). reflexivity.
Qed.

(** X1 (lines 34-49 of [main.py], 36-48 of [streamlit_app.py]): the
    coordinate lookup lists every site at most once; the pair it holds for a
    site is the one of the first row of the site table that gives this site
    with both coordinates under the detected headers; every site that has
    such a row is listed; and the lookup is empty when a header is not
    recognised. *)
Theorem site_lookup_first_complete_row (sites : SitesFrame) :
  NoDup (map fst (site_lookup sites)) /\
  (forall k x y, In (k, (x, y)) (site_lookup sites) ->
     exists la lo pre s post,
       lat_col sites = Some la /\ lon_col sites = Some lo /\
       sites_rows sites = pre ++ s :: post /\
       s_site_code s = Some k /\ s_value s la = Some x /\ s_value s lo = Some y /\
       (forall s', In s' pre -> s_site_code s' = Some k ->
                   s_value s' la = None \/ s_value s' lo = None)) /\
  (forall la lo s k,
     lat_col sites = Some la -> lon_col sites = Some lo ->
     in_cols "site_code" (sites_columns sites) = true ->
     In s (sites_rows sites) -> s_site_code s = Some k ->
     s_value s la <> None -> s_value s lo <> None ->
     In k (map fst (site_lookup sites))) /\
  (lat_col sites = None \/ lon_col sites = None \/
   in_cols "site_code" (sites_columns sites) = false ->
   site_lookup sites = []).
Proof.
  unfold site_lookup.
  destruct (lat_col sites) as [la|] eqn:Ela;
    [destruct (lon_col sites) as [lo|] eqn:Elo;
     [destruct (in_cols "site_code" (sites_columns sites)) eqn:Ec|]|].
  - split; [apply drop_duplicates_keys|]. split; [|split].
    + intros k x y Hin.
      destruct (drop_duplicates_first _ _ _ _ Hin) as (pre' & post' & E & Hpre).
      destruct (filter_map_split _ _ _ _ _ E)
        as (pre & s & post & Es & Hs & Hp & _).
      apply complete_site_inv in Hs. destruct Hs as (Hk & Hx & Hy).
      exists la, lo, pre, s, post. repeat split; auto.
      intros s' Hs' Hk'.
      destruct (s_value s' la) as [x'|] eqn:Ex; [|now left].
      destruct (s_value s' lo) as [y'|] eqn:Ey; [|now right].
      exfalso. apply Hpre. rewrite <- Hp.
      change k with (fst (k, (x', y'))). apply in_map.
      apply filter_map_In. exists s'. split; [exact Hs'|].
      apply complete_site_inv. auto.
    + intros la' lo' s k [= <-] [= <-] _ Hs Hk Hx Hy.
      destruct (s_value s la) as [x|] eqn:Ex; [|congruence].
      destruct (s_value s lo) as [y|] eqn:Ey; [|congruence].
      apply drop_duplicates_complete; [|intros []].
      change k with (fst (k, (x, y))). apply in_map.
      apply filter_map_In. exists s. split; [exact Hs|].
      apply complete_site_inv. auto.
    + intros [H | [H | H]]; discriminate.
  - split; [constructor|]. split; [intros k x y []|]. split; [|reflexivity].
    intros la' lo' s k _ _ H. discriminate.
  - split; [constructor|]. split; [intros k x y []|]. split; [|reflexivity].
    intros la' lo' s k _ H. discriminate.
  - split; [constructor|]. split; [intros k x y []|]. split; [|reflexivity].
    intros la' lo' s k H. discriminate.
Qed.

Lemma filter_key_unique {V : Type} (l : list (string * V)) (k : string) :
  NoDup (map fst l) ->
  filter (fun kv => String.eqb (fst kv) k) l
  = match find (fun kv => String.eqb (fst kv) k) l with
    | Some kv => [kv]
    | None => []
    end.
Proof.
  induction l as [|[k0 v0] l IH]; simpl; [reflexivity|].
  intros Hnd. inversion Hnd as [|? ? Hk0 Hnd']; subst.
  destruct (String.eqb k0 k) eqn:E; [|now apply IH].
  apply String.eqb_eq in E. subst k0. f_equal.
  apply filter_false. intros [k' v'] Hin. simpl.
  apply String.eqb_neq. intros ->. apply Hk0.
  change k with (fst (k, v')). now apply in_map.
Qed.

Lemma site_lookup_NoDup (sites : SitesFrame) : NoDup (map fst (site_lookup sites)).
Proof.
  unfold site_lookup.
  destruct (lat_col sites), (lon_col sites); try constructor.
  destruct (in_cols "site_code" (sites_columns sites)); [|constructor].
  apply drop_duplicates_keys.
Qed.

(** The coordinate join, row by row. *)
Lemma merge_coords_one (sites : SitesFrame) (r : Row) :
  merge_left put_coords (site_lookup sites) r
  = [put_coords r (coords_of (site_code r) (site_lookup sites))].
Proof.
  unfold merge_left, coords_of.
  rewrite (filter_key_unique _ _ (site_lookup_NoDup sites)).
  destruct (find _ (site_lookup sites)) as [kv|]; reflexivity.
Qed.

Lemma coords_join_map (sites : SitesFrame) (rs : list Row) :
  flat_map (merge_left put_coords (site_lookup sites)) rs
  = map (fun r => put_coords r (coords_of (site_code r) (site_lookup sites))) rs.
Proof.
  induction rs as [|r rs IH]; simpl; [reflexivity|].
  now rewrite IH, merge_coords_one.
Qed.

Lemma put_coords_fields (r : Row) (v : option (Qc * Qc)) :
  site_code (put_coords r v) = site_code r /\
  count (put_coords r v) = count r /\
  display_name (put_coords r v) = display_name r /\
  sample_date (put_coords r v) = sample_date r.
Proof. destruct v as [[x y]|]; repeat split. Qed.

(** X2 (line 51 of [main.py] with the [drop_duplicates] of line 46; lines
    44 and 50 of [streamlit_app.py]): the
    coordinate join yields exactly one row per observation, in the order of
    the observations, with the pair that the lookup holds for its site; a
    row carries both coordinates or none. *)
Theorem coordinate_join_one_row_each (sites : SitesFrame) (rs : list Row) :
  let joined := flat_map (merge_left put_coords (site_lookup sites)) rs in
  joined = map (fun r => put_coords r (coords_of (site_code r) (site_lookup sites))) rs /\
  List.length joined = List.length rs /\
  map site_code joined = map site_code rs /\
  map count joined = map count rs /\
  (forall r, In r joined ->
     match coords_of (site_code r) (site_lookup sites) with
     | Some (x, y) => lat r = Some x /\ lon r = Some y
     | None => lat r = None /\ lon r = None
     end).
Proof.
  cbv zeta. rewrite coords_join_map.
  split; [reflexivity|]. split; [apply length_map|].
  split; [|split].
  - rewrite map_map. apply map_ext. intros r. apply put_coords_fields.
  - rewrite map_map. apply map_ext. intros r. apply put_coords_fields.
  - intros r Hr. apply in_map_iff in Hr. destruct Hr as (r0 & <- & _).
    rewrite (proj1 (put_coords_fields r0 _)).
    destruct (coords_of (site_code r0) (site_lookup sites)) as [[x y]|]; now split.
Qed.

(** The rows of the joined table, with the coordinate join written row by
    row; [fin] fills in the derived fields when there is a date column. *)
Lemma prepare_rows_gen (pf : string -> option Q) (pd : string -> option Timestamp)
    (raw : RawFrame) (sites : SitesFrame) (lu : LanduseFrame) (arth : DataFrame) :
  prepare pf pd raw sites lu = Ok arth ->
  exists fin : Row -> Row,
    (fin = set_derived \/ fin = (fun r => r)) /\
    rows arth
    = map fin (map fill_region3
        (flat_map (merge_left put_landuse (landuse_pairs lu))
           (map (fun r => put_coords r (coords_of (site_code r) (site_lookup sites)))
              (map (normalize_record pf pd (raw_columns raw)) (raw_rows raw))))).
Proof.
  unfold prepare. rewrite coords_join_map.
  destruct (negb (in_cols "site_code" (raw_columns raw))); [discriminate|].
  destruct (negb (in_cols "site_code" (lu_columns lu))); [discriminate|].
  destruct (negb (in_cols "landuse" (lu_columns lu))); [discriminate|].
  destruct (in_cols "sample_date" (raw_columns raw)); intros [= <-]; simpl.
  - exists set_derived. split; [now left | reflexivity].
  - exists (fun r => r). split; [now right | now rewrite map_id].
Qed.

Lemma fin_fields (fin : Row -> Row) (r : Row) :
  fin = set_derived \/ fin = (fun r => r) ->
  site_code (fin r) = site_code r /\ count (fin r) = count r /\
  landuse (fin r) = landuse r /\ region3 (fin r) = region3 r /\
  lat (fin r) = lat r /\ lon (fin r) = lon r.
Proof. intros [-> | ->]; repeat split. Qed.

(** What the land-use join makes of one row. *)
Lemma merge_landuse_In (P : list (string * option string)) (r r' : Row) :
  In r' (merge_left put_landuse P r) ->
  (exists l, In (site_code r, l) P /\ r' = set_landuse r l) \/
  (~ In (site_code r) (map fst P) /\ r' = set_landuse r None).
Proof.
  unfold merge_left.
  destruct (filter _ P) as [|m ms] eqn:E.
  - intros [<- | []]. right. split; [|reflexivity].
    intros Hin. apply in_map_iff in Hin. destruct Hin as ([k l] & Hk & Hin).
    simpl in Hk. subst k.
    assert (H : In (site_code r, l)
                   (filter (fun kv => String.eqb (fst kv) (site_code r)) P)).
    { apply filter_In. split; [exact Hin|]. apply String.eqb_refl. }
    now rewrite E in H.
  - intros Hin. apply in_map_iff in Hin. destruct Hin as ([k l] & <- & Hin).
    rewrite <- E in Hin. apply filter_In in Hin. destruct Hin as [Hin Hk].
    simpl in Hk. apply String.eqb_eq in Hk. subst k.
    left. exists l. split; [exact Hin | reflexivity].
Qed.

Lemma merge_landuse_length (lu : LanduseFrame) (r : Row) :
  List.length (merge_left put_landuse (landuse_pairs lu) r) = copies lu (site_code r).
Proof.
  unfold merge_left, copies, landuse_matches.
  destruct (filter _ (landuse_pairs lu)) as [|m ms]; [reflexivity|].
  rewrite length_map. simpl. lia.
Qed.

Lemma sum_counts_const (c : Z) (l : list Row) :
  (forall r, In r l -> count r = c) -> sum_counts l = c * Z.of_nat (List.length l).
Proof.
  induction l as [|r l IH]; intros H.
  - simpl. unfold sum_counts. simpl. lia.
  - unfold sum_counts in *. cbn [map sum_Z fold_right List.length].
    rewrite (H r) by now left.
    fold (sum_Z (map count l)). rewrite IH by (intros; apply H; now right). lia.
Qed.

Lemma sum_counts_app (l1 l2 : list Row) :
  sum_counts (l1 ++ l2) = sum_counts l1 + sum_counts l2.
Proof.
  unfold sum_counts, sum_Z. rewrite map_app, fold_right_app.
  induction (map count l1) as [|z l IH]; simpl; [reflexivity|].
  rewrite IH. lia.
Qed.

Lemma sum_counts_map (f : Row -> Row) (l : list Row) :
  (forall r, count (f r) = count r) -> sum_counts (map f l) = sum_counts l.
Proof.
  intros H. unfold sum_counts. rewrite map_map. f_equal. apply map_ext. exact H.
Qed.

Lemma merge_landuse_fields (P : list (string * option string)) (r r' : Row) :
  In r' (merge_left put_landuse P r) ->
  site_code r' = site_code r /\ count r' = count r.
Proof.
  intros H. apply merge_landuse_In in H.
  destruct H as [(l & _ & ->) | (_ & ->)]; now split.
Qed.

Lemma landuse_join_counts (lu : LanduseFrame) (rs : list Row) :
  let joined := flat_map (merge_left put_landuse (landuse_pairs lu)) rs in
  List.length joined = list_sum (map (fun r => copies lu (site_code r)) rs) /\
  sum_counts joined
  = sum_Z (map (fun r => count r * Z.of_nat (copies lu (site_code r))) rs) /\
  (NoDup (map fst (landuse_pairs lu)) ->
   map site_code joined = map site_code rs /\ map count joined = map count rs).
Proof.
  cbv zeta. induction rs as [|r rs (IHl & IHs & IHn)].
  - split; [reflexivity|]. split; [reflexivity|]. intros _. split; reflexivity.
  - cbn [flat_map map list_sum fold_right sum_Z].
    rewrite length_app, sum_counts_app, IHl, merge_landuse_length. unfold sum_Z in IHs.
    rewrite IHs.
    split; [reflexivity|]. split.
    + f_equal. rewrite <- merge_landuse_length.
      apply sum_counts_const. intros r' Hr'.
      now apply merge_landuse_fields in Hr'.
    + intros Hnd. destruct (IHn Hnd) as (IHa & IHb).
      rewrite !map_app, IHa, IHb.
      unfold merge_left. rewrite (filter_key_unique _ _ Hnd).
      destruct (find _ (landuse_pairs lu)) as [kv|]; split; reflexivity.
Qed.

(** X3 (lines 55-59 of [main.py], 53-57 of [streamlit_app.py]): the
    land-use table is joined as it is read, without removing repeated
    sites.  An observation of a site that the table lists [n] times is in
    the joined table [max 1 n] times, so the number of rows and the sum of
    the counts grow with repeated sites; when the table lists no site
    twice, the joined table has the observations one for one. *)
Theorem landuse_join_multiplicity (pf : string -> option Q)
    (pd : string -> option Timestamp) (raw : RawFrame) (sites : SitesFrame)
    (lu : LanduseFrame) (arth : DataFrame) :
  prepare pf pd raw sites lu = Ok arth ->
  let recs := map (normalize_record pf pd (raw_columns raw)) (raw_rows raw) in
  List.length (rows arth)
  = list_sum (map (fun r => copies lu (site_code r)) recs) /\
  sum_counts (rows arth)
  = sum_Z (map (fun r => count r * Z.of_nat (copies lu (site_code r))) recs) /\
  (NoDup (map fst (landuse_pairs lu)) ->
   map site_code (rows arth) = map site_code recs /\
   map count (rows arth) = map count recs).
Proof.
  intros Hp recs. destruct (prepare_rows_gen _ _ _ _ _ _ Hp) as (fin & Hfin & ->).
  fold recs.
  set (h := fun r => put_coords r (coords_of (site_code r) (site_lookup sites))).
  rewrite !length_map.
  rewrite (sum_counts_map fin) by (intros r; apply (fin_fields fin r Hfin)).
  rewrite (sum_counts_map fill_region3) by reflexivity.
  destruct (landuse_join_counts lu (map h recs)) as (Hl & Hs & Hn).
  rewrite Hl, Hs, !map_map.
  assert (Hhs : forall r, site_code (h r) = site_code r)
    by (intros r; apply put_coords_fields).
  assert (Hhc : forall r, count (h r) = count r)
    by (intros r; apply put_coords_fields).
  split; [f_equal; apply map_ext; intros r; now rewrite Hhs|].
  split; [f_equal; apply map_ext; intros r; now rewrite Hhs, Hhc|].
  intros Hnd. destruct (Hn Hnd) as (Ha & Hb).
  rewrite map_map in Ha, Hb.
  split.
  - rewrite <- (map_ext _ _ Hhs), <- Ha.
    apply map_ext. intros r.
    now rewrite (proj1 (fin_fields fin _ Hfin)).
  - rewrite <- (map_ext _ _ Hhc), <- Hb.
    apply map_ext. intros r.
    destruct (fin_fields fin (fill_region3 r) Hfin) as (_ & -> & _). reflexivity.
Qed.

(** X3 on the demo observations and a land-use table that lists S1 twice:
    the two observations of S1 are doubled. *)
Lemma landuse_join_multiplicity_witness :
  exists arth,
    prepare decimal iso_date demo_raw demo_sites doubled_landuse = Ok arth /\
    List.length (raw_rows demo_raw) = 4%nat /\
    List.length (rows arth) = 6%nat /\
    sum_counts (rows arth) = 27 /\
    sum_counts (rows demo_arth) = 17.
Proof.
  destruct (prepare decimal iso_date demo_raw demo_sites doubled_landuse)
    as [arth|e] eqn:E; [|vm_compute in E; discriminate].
  exists arth.
  destruct (landuse_join_multiplicity _ _ _ _ _ _ E) as (Hl & Hs & _).
  split; [reflexivity|]. split; [reflexivity|].
  split; [rewrite Hl; reflexivity|].
  split; [rewrite Hs; reflexivity | reflexivity].
Defined.

(** X4 (line 62 of [main.py], line 59 of [streamlit_app.py]): the region of
    a record is its land use, and "Unknown" when the land use is missing;
    the land use of a record is a value that the land-use table lists for
    its site, and it is missing, with region "Unknown", when the table does
    not list the site. *)
Theorem region3_defaults_to_unknown (pf : string -> option Q)
    (pd : string -> option Timestamp) (raw : RawFrame) (sites : SitesFrame)
    (lu : LanduseFrame) (arth : DataFrame) :
  prepare pf pd raw sites lu = Ok arth ->
  forall r, In r (rows arth) ->
    region3 r = match landuse r with Some s => s | None => "Unknown" end /\
    (In (site_code r) (map fst (landuse_pairs lu)) ->
     In (site_code r, landuse r) (landuse_pairs lu)) /\
    (~ In (site_code r) (map fst (landuse_pairs lu)) ->
     landuse r = None /\ region3 r = "Unknown").
Proof.
  intros Hp r Hr. destruct (prepare_rows_gen _ _ _ _ _ _ Hp) as (fin & Hfin & E).
  rewrite E in Hr.
  apply in_map_iff in Hr. destruct Hr as (r3 & <- & Hr).
  apply in_map_iff in Hr. destruct Hr as (r2 & <- & Hr).
  apply in_flat_map in Hr. destruct Hr as (r1 & _ & Hr).
  destruct (fin_fields fin (fill_region3 r2) Hfin) as (-> & _ & -> & -> & _).
  cbn [fill_region3 set_region3 landuse region3 site_code].
  split; [reflexivity|].
  apply merge_landuse_In in Hr.
  destruct Hr as [(l & Hl & ->) | (Hn & ->)];
    cbn [set_landuse landuse site_code].
  - split; [intros _; exact Hl|]. intros Hn. exfalso. apply Hn.
    change (site_code r1) with (fst (site_code r1, l)). now apply in_map.
  - split; [intros Hin; now elim Hn|]. intros _. now split.
Qed.

(** X4 on the demo table: S3 is not in the land-use table. *)
Lemma region3_defaults_to_unknown_witness :
  map (fun r => (site_code r, region3 r)) (rows demo_arth)
  = [("S1", "Urban"); ("S1", "Urban"); ("S2", "Desert"); ("S3", "Unknown")] /\
  (forall r, In r (rows demo_arth) -> site_code r = "S3" -> region3 r = "Unknown").
Proof.
  split; [reflexivity|].
  intros r Hr Hs.
  assert (Hp : prepare decimal iso_date demo_raw demo_sites demo_landuse = Ok demo_arth)
    by reflexivity.
  destruct (region3_defaults_to_unknown _ _ _ _ _ _ Hp r Hr) as (_ & _ & H).
  apply H. rewrite Hs. simpl. intros [H1 | [H1 | []]]; discriminate.
Defined.

(* ================================================================== *)
(** ** The derived calendar fields *)

(** X5 (lines 65-68 of [main.py], 62-65 of [streamlit_app.py], with the
    categorical conversion of lines 252-257): a dated record has the year
    of its date, and, its month being a calendar month, the quarter label
    Q1..Q4 of that month, which the categorical conversion keeps; a record
    without a date has no year, the month text "NaT" and the label "Q<NA>",
    which the categorical conversion turns into a missing value. *)
Theorem derived_fields_by_date (pf : string -> option Q)
    (pd : string -> option Timestamp) (raw : RawFrame) (sites : SitesFrame)
    (lu : LanduseFrame) (arth : DataFrame) :
  prepare pf pd raw sites lu = Ok arth ->
  in_cols "sample_date" (raw_columns raw) = true ->
  forall r, In r (rows arth) ->
    match sample_date r with
    | Some t =>
        year r = Some (ts_year t) /\
        (1 <= ts_month t <= 12 ->
         quarter r = nth (Z.to_nat ((ts_month t - 1) / 3)) q_order "" /\
         categorical (quarter r) = Some (quarter r))
    | None =>
        year r = None /\ month r = "NaT" /\ quarter r = "Q<NA>" /\
        categorical (quarter r) = None
    end.
Proof.
  intros Hp Hd r Hr.
  destruct (prepared_derived _ _ _ _ _ _ Hp Hd r Hr) as (Hy & Hm & Hq).
  rewrite Hy, Hm, Hq.
  destruct (sample_date r) as [t|]; [|repeat split].
  split; [reflexivity|]. intros Hmonth.
  unfold quarter_label, dt_quarter, option_map.
  assert (Hcases : ts_month t = 1 \/ ts_month t = 2 \/ ts_month t = 3 \/
                   ts_month t = 4 \/ ts_month t = 5 \/ ts_month t = 6 \/
                   ts_month t = 7 \/ ts_month t = 8 \/ ts_month t = 9 \/
                   ts_month t = 10 \/ ts_month t = 11 \/ ts_month t = 12) by lia.
  repeat (destruct Hcases as [-> | Hcases]; [split; reflexivity|]).
  rewrite Hcases. split; reflexivity.
Qed.

(** X5 on the demo table: January is in Q1, July in Q3, and the record
    whose date does not parse has the label "Q<NA>". *)
Lemma derived_fields_by_date_witness :
  map (fun r => (month r, quarter r, categorical (quarter r))) (rows demo_arth)
  = [("2020-01", "Q1", Some "Q1"); ("2020-01", "Q1", Some "Q1");
     ("2021-07", "Q3", Some "Q3"); ("NaT", "Q<NA>", None)] /\
  (forall r, In r (rows demo_arth) -> sample_date r = None -> quarter r = "Q<NA>").
Proof.
  split; [reflexivity|].
  intros r Hr Hn.
  assert (Hp : prepare decimal iso_date demo_raw demo_sites demo_landuse = Ok demo_arth)
    by reflexivity.
  assert (Hd : in_cols "sample_date" (raw_columns demo_raw) = true) by reflexivity.
  pose proof (derived_fields_by_date _ _ _ _ _ _ Hp Hd r Hr) as H.
  rewrite Hn in H. apply H.
Defined.

(* ================================================================== *)
(** ** Text cleaning *)

Lemma lstrip_fixed (s : string) : starts_with_space s = false -> lstrip s = s.
Proof.
  destruct s as [|c1 [|c2 [|c3 s3]]]; simpl; [reflexivity|..].
  - now rewrite orb_false_r; intros ->.
  - rewrite !orb_false_iff. intros (-> & -> & _). reflexivity.
  - rewrite !orb_false_iff. intros (-> & -> & ->). reflexivity.
Qed.

Lemma lstrip_no_space_bounded (n : nat) :
  forall s, (String.length s <= n)%nat -> starts_with_space (lstrip s) = false.
Proof.
  induction n as [|n IH]; intros s Hs.
  - destruct s; [reflexivity | simpl in Hs; lia].
  - destruct s as [|c1 s1]; [reflexivity|]. simpl in Hs.
    cbn [lstrip]. destruct (is_space c1) eqn:E1; [apply IH; lia|].
    destruct s1 as [|c2 s2]; [simpl; now rewrite E1|]. simpl in Hs.
    destruct (is_space2 c1 c2) eqn:E2; [apply IH; lia|].
    destruct s2 as [|c3 s3]; [simpl; now rewrite E1, E2|]. simpl in Hs.
    destruct (is_space3 c1 c2 c3) eqn:E3; [apply IH; lia|].
    simpl. now rewrite E1, E2, E3.
Qed.

Lemma lstrip_no_space (s : string) : starts_with_space (lstrip s) = false.
Proof. apply (lstrip_no_space_bounded (String.length s)). lia. Qed.

Lemma rstrip_no_space (s : string) : ends_with_space (rstrip s) = false.
Proof.
  induction s as [|c s IH]; [reflexivity|]. cbn [rstrip]. cbv zeta.
  destruct (whole_space (String c (rstrip s))) eqn:E; [reflexivity|].
  cbn [ends_with_space]. now rewrite E, IH.
Qed.

Lemma rstrip_fixed (s : string) : ends_with_space s = false -> rstrip s = s.
Proof.
  induction s as [|c s IH]; [reflexivity|]. cbn [ends_with_space rstrip]. cbv zeta.
  rewrite orb_false_iff. intros [Hw He]. rewrite (IH He). now rewrite Hw.
Qed.

Lemma rstrip_prefix (s : string) : exists u, s = (rstrip s ++ u)%string.
Proof.
  induction s as [|c s (u & IH)]; [now exists EmptyString|].
  cbn [rstrip]. cbv zeta.
  destruct (whole_space (String c (rstrip s))).
  - now exists (String c s).
  - exists u. simpl. now rewrite <- IH.
Qed.

Lemma starts_with_space_prefix (p u : string) :
  starts_with_space p = true -> starts_with_space (p ++ u) = true.
Proof.
  destruct p as [|c1 [|c2 [|c3 p3]]]; simpl; try discriminate.
  - rewrite orb_false_r. now intros ->.
  - rewrite orb_false_r. intros H. apply orb_true_iff in H.
    destruct H as [-> | ->]; [reflexivity|]. now rewrite orb_true_r.
  - auto.
Qed.

Lemma str_strip_no_space (s : string) :
  starts_with_space (str_strip s) = false /\ ends_with_space (str_strip s) = false.
Proof.
  unfold str_strip. split; [|apply rstrip_no_space].
  destruct (starts_with_space (rstrip (lstrip s))) eqn:E; [|reflexivity].
  destruct (rstrip_prefix (lstrip s)) as (u & Hu).
  pose proof (starts_with_space_prefix _ u E) as H.
  rewrite <- Hu, lstrip_no_space in H. discriminate.
Qed.

Lemma str_strip_idem (s : string) : str_strip (str_strip s) = str_strip s.
Proof.
  destruct (str_strip_no_space s) as [H1 H2].
  unfold str_strip at 1. rewrite (lstrip_fixed _ H1). now apply rstrip_fixed.
Qed.

Lemma str_strip_fixed (s : string) :
  starts_with_space s = false -> ends_with_space s = false -> str_strip s = s.
Proof.
  intros H1 H2. unfold str_strip. rewrite (lstrip_fixed _ H1). now apply rstrip_fixed.
Qed.

Lemma lstrip_decompose_bounded (n : nat) :
  forall s, (String.length s <= n)%nat ->
            exists pre, s = (pre ++ lstrip s)%string /\ spaces pre.
Proof.
  induction n as [|n IH]; intros s Hs.
  - destruct s; [|simpl in Hs; lia]. exists EmptyString. split; [reflexivity | constructor].
  - destruct s as [|c1 s1]; [exists EmptyString; split; [reflexivity | constructor]|].
    simpl in Hs. cbn [lstrip]. destruct (is_space c1) eqn:E1.
    { destruct (IH s1) as (pre & E & Hp); [lia|].
      exists (String c1 pre). split; [simpl; now rewrite <- E | now constructor]. }
    destruct s1 as [|c2 s2];
      [exists EmptyString; split; [reflexivity | constructor]|].
    simpl in Hs. destruct (is_space2 c1 c2) eqn:E2.
    { destruct (IH s2) as (pre & E & Hp); [lia|].
      exists (String c1 (String c2 pre)).
      split; [simpl; now rewrite <- E | now constructor]. }
    destruct s2 as [|c3 s3];
      [exists EmptyString; split; [reflexivity | constructor]|].
    simpl in Hs. destruct (is_space3 c1 c2 c3) eqn:E3.
    { destruct (IH s3) as (pre & E & Hp); [lia|].
      exists (String c1 (String c2 (String c3 pre))).
      split; [simpl; now rewrite <- E | now constructor]. }
    exists EmptyString. split; [reflexivity | constructor].
Qed.

Lemma lstrip_decompose (s : string) :
  exists pre, s = (pre ++ lstrip s)%string /\ spaces pre.
Proof. apply (lstrip_decompose_bounded (String.length s)). lia. Qed.

Lemma whole_space_spaces (s : string) : whole_space s = true -> spaces s.
Proof.
  destruct s as [|c1 [|c2 [|c3 [|c4 s4]]]]; simpl; try discriminate; intros H.
  - apply spaces_1; [exact H | constructor].
  - apply spaces_2; [exact H | constructor].
  - apply spaces_3; [exact H | constructor].
Qed.

Lemma spaces_app (a b : string) : spaces a -> spaces b -> spaces (a ++ b).
Proof.
  induction 1 as [|c s Hc Hs IH|c1 c2 s Hc Hs IH|c1 c2 c3 s Hc Hs IH];
    intros Hb; simpl.
  - exact Hb.
  - apply spaces_1; auto.
  - apply spaces_2; auto.
  - apply spaces_3; auto.
Qed.

Lemma rstrip_decompose (s : string) :
  exists post, s = (rstrip s ++ post)%string /\ spaces post.
Proof.
  induction s as [|c s (post & E & Hp)];
    [exists EmptyString; split; [reflexivity | constructor]|].
  cbn [rstrip]. cbv zeta.
  destruct (whole_space (String c (rstrip s))) eqn:Ew.
  - exists (String c (rstrip s) ++ post)%string. split.
    + simpl. now rewrite <- E.
    + apply spaces_app; [now apply whole_space_spaces | exact Hp].
  - exists post. split; [simpl; now rewrite <- E | exact Hp].
Qed.

Lemma str_strip_decompose (s : string) :
  exists pre post, s = (pre ++ str_strip s ++ post)%string /\ spaces pre /\ spaces post.
Proof.
  destruct (lstrip_decompose s) as (pre & E1 & H1).
  destruct (rstrip_decompose (lstrip s)) as (post & E2 & H2).
  exists pre, post. unfold str_strip. split; [|split; assumption].
  now rewrite <- E2.
Qed.

(** X6 (lines 29-31 of [main.py], 30-33 of [streamlit_app.py]): a cleaned
    text cell neither begins nor ends with a white-space character, those
    outside ASCII included; it is what is left of the cell when a run of
    white-space characters is taken off its beginning and another off its
    end; cleaning it again changes nothing; and a missing cell becomes the
    text "nan" (so that the cleaned column has no missing value). *)
Theorem cleaned_text_is_trimmed (cols : list string) (c : string)
    (v : option string) :
  let s := clean cols c v in
  starts_with_space s = false /\ ends_with_space s = false /\
  str_strip s = s /\
  (in_cols c cols = true -> v = None -> s = "nan") /\
  (in_cols c cols = true -> forall t, v = Some t ->
     exists pre post, t = (pre ++ s ++ post)%string /\ spaces pre /\ spaces post).
Proof.
  cbv zeta. unfold clean. destruct (in_cols c cols).
  - split; [apply str_strip_no_space|]. split; [apply str_strip_no_space|].
    split; [apply str_strip_idem|].
    split; [intros _ ->; reflexivity|].
    intros _ t ->. apply str_strip_decompose.
  - split; [reflexivity|]. split; [reflexivity|]. split; [reflexivity|].
    split; discriminate.
Qed.

(** A site code followed by a no-break space (U+00A0, the bytes C2 A0) and
    one preceded by an em space (U+2003, the bytes E2 80 83) are both
    cleaned to the bare code. *)
Example strip_removes_unicode_space :
  str_strip ("S1" ++ String (ascii_of_nat 194) (String (ascii_of_nat 160) ""))%string
  = "S1" /\
  str_strip (String (ascii_of_nat 226) (String (ascii_of_nat 128)
               (String (ascii_of_nat 131) " S1 ")))
  = "S1".
Proof. split; reflexivity. Qed.

(* ================================================================== *)
(** ** The filters on any table *)

(** X7 (lines 181-193 of [main.py]): the four filter dimensions are
    independent steps.  Filtering by sites, taxa, traps and date range at
    once gives what filtering by the sites alone, then the result by the
    taxa alone, then by the traps alone, then by the date range alone
    gives, the raised error included. *)
Theorem apply_filters_stepwise (arth : DataFrame)
    (pd : string -> option Timestamp) (df : DataFrame)
    (sites taxa traps : list string) (sd ed : option string) :
  apply_filters arth pd df sites taxa traps sd ed
  = (g1 <- apply_filters arth pd df sites [] [] None None ;;
     g2 <- apply_filters arth pd g1 [] taxa [] None None ;;
     g3 <- apply_filters arth pd g2 [] [] traps None None ;;
     apply_filters arth pd g3 [] [] [] sd ed).
Proof.
  rewrite (apply_filters_nf arth pd df sites taxa traps).
  rewrite (apply_filters_nf arth pd df sites [] []).
  destruct (selected sites && negb (has_col "site_code" df)) eqn:E1;
    [reflexivity|].
  unfold taxa_active at 2. cbn [selected andb].
  rewrite date_step_none. cbn [bind].
  rewrite (apply_filters_nf arth pd _ [] taxa []). cbn [selected andb].
  rewrite has_col_select.
  destruct (taxa_active arth taxa && negb (has_col "display_name" df)) eqn:E2;
    [reflexivity|].
  rewrite date_step_none. cbn [bind].
  rewrite (apply_filters_nf arth pd _ [] [] traps).
  unfold taxa_active at 1. cbn [selected andb].
  rewrite date_step_none. cbn [bind].
  rewrite (apply_filters_nf arth pd _ [] [] []).
  unfold taxa_active at 1. cbn [selected andb].
  f_equal. rewrite !select_select. apply select_ext. intros r.
  unfold list_ok, site_ok, taxa_active, traps_active.
  rewrite !has_col_select. cbn [selected andb negb orb].
  now rewrite ?andb_true_r, ?andb_assoc.
Qed.

Lemma filter_idem {A : Type} (p : A -> bool) (l : list A) :
  filter p (filter p l) = filter p l.
Proof.
  apply filter_true. intros x Hx. now apply filter_In in Hx.
Qed.

Lemma select_fixed (p : Row -> bool) (g : DataFrame) :
  (forall r, In r (rows g) -> p r = true) -> select p g = g.
Proof.
  intros H. destruct g as [cs rs]. unfold select. simpl. f_equal.
  now apply filter_true.
Qed.

Lemma date_step_inv (pd : string -> option Timestamp) (sd ed : option string)
    (g0 g : DataFrame) :
  date_step pd sd ed g0 = Ok g ->
  columns g = columns g0 /\
  (exists p, rows g = filter p (rows g0)) /\
  date_step pd sd ed g = Ok g.
Proof.
  unfold date_step, to_datetime.
  destruct (has_col "sample_date" g0 && given sd && given ed) eqn:E.
  - destruct (pd (bound_text sd)) as [s|]; [|discriminate].
    destruct (pd (bound_text ed)) as [e|]; [|discriminate].
    cbn [bind]. intros [= <-]. rewrite has_col_select, E. cbn [bind].
    split; [reflexivity|]. split; [now exists (in_range s e)|].
    rewrite select_select. f_equal. apply select_ext. intros r.
    now destruct (in_range s e r).
  - intros [= <-]. rewrite E. split; [reflexivity|]. split; [|reflexivity].
    exists (fun _ => true). symmetry. now apply filter_true.
Qed.

Lemma has_col_columns (c : string) (g df : DataFrame) :
  columns g = columns df -> has_col c g = has_col c df.
Proof. unfold has_col. now intros ->. Qed.

(** X8 (lines 181-193 of [main.py], 78-86 of [streamlit_app.py]): filtering
    the outcome of a filter again with the same selections changes
    nothing; the outcome has the columns of the table and its rows are rows
    of the table, in table order. *)
Theorem apply_filters_idempotent (arth : DataFrame)
    (pd : string -> option Timestamp) (df : DataFrame)
    (sites taxa traps : list string) (sd ed : option string) (g : DataFrame) :
  apply_filters arth pd df sites taxa traps sd ed = Ok g ->
  columns g = columns df /\
  (exists p, rows g = filter p (rows df)) /\
  apply_filters arth pd g sites taxa traps sd ed = Ok g /\
  (forall years g',
     apply_filters_st arth df sites taxa years = Ok g' ->
     columns g' = columns df /\
     (exists p, rows g' = filter p (rows df)) /\
     apply_filters_st arth g' sites taxa years = Ok g').
Proof.
  intros H. rewrite apply_filters_nf in H.
  destruct (selected sites && negb (has_col "site_code" df)) eqn:E1;
    [discriminate|].
  destruct (taxa_active arth taxa && negb (has_col "display_name" df)) eqn:E2;
    [discriminate|].
  destruct (date_step_inv _ _ _ _ _ H) as (Hc & (p & Hp) & Hd).
  cbn [select columns rows] in Hc, Hp.
  split; [exact Hc|]. split.
  { exists (fun r => list_ok arth df sites taxa traps r && p r).
    now rewrite Hp, filter_andb. }
  split.
  { rewrite apply_filters_nf.
    rewrite !(has_col_columns _ g df Hc), E1, E2.
    rewrite select_fixed; [exact Hd|].
    intros r Hr. rewrite Hp in Hr. apply filter_In in Hr. destruct Hr as [Hr _].
    apply filter_In in Hr. destruct Hr as [_ Hr].
    unfold list_ok, traps_active in *. now rewrite (has_col_columns _ g df Hc). }
  intros years g' H'. rewrite apply_filters_st_nf in H'.
  rewrite E1, E2 in H'. injection H' as <-.
  split; [reflexivity|]. split; [now eexists|].
  rewrite apply_filters_st_nf, !has_col_select, E1, E2.
  f_equal. rewrite select_select. apply select_ext. intros r.
  unfold list_ok_st, years_active. rewrite has_col_select.
  now destruct (site_ok sites r && _ && _).
Qed.

(** X8 on the demo table, with site S1 and the year 2020 selected. *)
Lemma apply_filters_idempotent_witness :
  exists g,
    apply_filters demo_arth iso_date demo_arth ["S1"] [] []
      (Some "2020-01-01") (Some "2020-12-31") = Ok g /\
    map display_name (rows g) = ["Ant"; "Bee"] /\
    apply_filters demo_arth iso_date g ["S1"] [] []
      (Some "2020-01-01") (Some "2020-12-31") = Ok g.
Proof.
  destruct (apply_filters demo_arth iso_date demo_arth ["S1"] [] []
              (Some "2020-01-01") (Some "2020-12-31")) as [g|e] eqn:E;
    [|vm_compute in E; discriminate].
  exists g.
  destruct (apply_filters_idempotent _ _ _ _ _ _ _ _ _ E) as (_ & _ & H & _).
  split; [reflexivity|]. split; [|exact H].
  vm_compute in E. injection E as <-. reflexivity.
Defined.

(** X9 (lines 181-193 of [main.py], 78-86 of [streamlit_app.py]): what the
    filters raise.  [apply_filters] of [main.py] fails only with a
    [KeyError] for a selected site or taxon dimension whose column is
    absent, or with a [ValueError] when both date bounds are given, the
    table has a date column and a bound does not parse; on a table with the
    site and taxon columns it fails exactly in the latter case.  A missing
    trap, date or year column never raises.  [apply_filters] of
    [streamlit_app.py] fails only with the two [KeyError]s, and returns on
    every table with the site and taxon columns. *)
Theorem apply_filters_raises (arth : DataFrame)
    (pd : string -> option Timestamp) (df : DataFrame)
    (sites taxa traps : list string) (sd ed : option string) (years : list Z) :
  (forall e, apply_filters arth pd df sites taxa traps sd ed = Raise e ->
     (e = KeyError "site_code" /\ selected sites = true
      /\ has_col "site_code" df = false) \/
     (e = KeyError "display_name" /\ taxa_active arth taxa = true
      /\ has_col "display_name" df = false) \/
     (e = ValueError /\ has_col "sample_date" df = true
      /\ given sd = true /\ given ed = true
      /\ (pd (bound_text sd) = None \/ pd (bound_text ed) = None))) /\
  (has_col "site_code" df = true -> has_col "display_name" df = true ->
   ((exists e, apply_filters arth pd df sites taxa traps sd ed = Raise e) <->
    has_col "sample_date" df = true /\ given sd = true /\ given ed = true
    /\ (pd (bound_text sd) = None \/ pd (bound_text ed) = None))) /\
  (forall e, apply_filters_st arth df sites taxa years = Raise e ->
     (e = KeyError "site_code" /\ selected sites = true
      /\ has_col "site_code" df = false) \/
     (e = KeyError "display_name" /\ taxa_active arth taxa = true
      /\ has_col "display_name" df = false)) /\
  (has_col "site_code" df = true -> has_col "display_name" df = true ->
   exists g, apply_filters_st arth df sites taxa years = Ok g).
Proof.
  rewrite apply_filters_nf, apply_filters_st_nf.
  assert (Hdate : forall g e,
    date_step pd sd ed g = Raise e ->
    e = ValueError /\ has_col "sample_date" g = true
    /\ given sd = true /\ given ed = true
    /\ (pd (bound_text sd) = None \/ pd (bound_text ed) = None)).
  { intros g e. unfold date_step, to_datetime.
    destruct (has_col "sample_date" g) eqn:Hc; [|discriminate].
    destruct (given sd); [|discriminate]. destruct (given ed); [|discriminate].
    cbn [andb].
    destruct (pd (bound_text sd)) as [s|];
      [destruct (pd (bound_text ed)) as [e'|]; [discriminate|]|];
      cbn [bind]; intros [= <-]; auto 10. }
  split; [|split; [|split]].
  - intros e.
    destruct (selected sites) eqn:Es, (has_col "site_code" df) eqn:Hs;
      cbn [andb negb]; try (intros [= <-]; now left);
      (destruct (taxa_active arth taxa) eqn:Et, (has_col "display_name" df) eqn:Ht;
       cbn [andb negb]; try (intros [= <-]; right; now left);
       intros H; right; right; rewrite <- (has_col_select "sample_date"
         (list_ok arth df sites taxa traps) df); now apply Hdate).
  - intros Hs Ht. rewrite Hs, Ht, !andb_false_r. split.
    + intros (e & H). apply Hdate in H. rewrite has_col_select in H. tauto.
    + intros (Hc & Hsd & Hed & Hpd). unfold date_step, to_datetime.
      rewrite has_col_select, Hc, Hsd, Hed. cbn [andb].
      destruct Hpd as [-> | Hpd]; [now eexists|].
      destruct (pd (bound_text sd)); cbn [bind]; [rewrite Hpd|]; now eexists.
  - intros e.
    destruct (selected sites) eqn:Es, (has_col "site_code" df) eqn:Hs;
      cbn [andb negb]; try (intros [= <-]; now left);
      (destruct (taxa_active arth taxa) eqn:Et, (has_col "display_name" df) eqn:Ht;
       cbn [andb negb]; try (intros [= <-]; now right); discriminate).
  - intros Hs Ht. rewrite Hs, Ht, !andb_false_r. now eexists.
Qed.

(* ================================================================== *)
(** ** The counts that the Shannon index reads *)

Local Open Scope R_scope.

Lemma Rpositive_nonpos (c : R) : c <= 0 -> Rpositive c = false.
Proof.
  intros Hc. apply not_true_is_false. intros H. apply Rpositive_true in H. lra.
Qed.

(** X12 (lines 73-78 of [main.py], [shannon_index]): the index reads only
    the positive counts.  It is the index of the positive counts alone; a
    count that is zero or negative, wherever it stands among the others,
    does not change it; and it is 0 when no count is positive.  Each
    equation has the same arithmetic on the same numbers on both sides:
    no property of the arithmetic is used. *)
Theorem shannon_index_reads_positive_counts (counts : list R) :
  shannon_index counts = shannon_index (filter Rpositive counts) /\
  (forall pre post c, counts = pre ++ c :: post -> c <= 0 ->
     shannon_index counts = shannon_index (pre ++ post)) /\
  (Forall (fun c => c <= 0) counts -> shannon_index counts = 0).
Proof.
  split; [|split].
  - unfold shannon_index. now rewrite filter_idem.
  - intros pre post c -> Hc. unfold shannon_index.
    rewrite !filter_app. cbn [filter]. now rewrite (Rpositive_nonpos c Hc).
  - intros Hall. unfold shannon_index.
    rewrite filter_false; [reflexivity|].
    intros c Hc. apply Rpositive_nonpos.
    rewrite Forall_forall in Hall. now apply Hall.
Qed.

(** X12 on the counts 5, 0, 5 and -2. *)
Lemma shannon_index_reads_positive_counts_witness :
  shannon_index [5; 0; 5; -2] = shannon_index [5; 5; -2] /\
  shannon_index [0; -2] = 0.
Proof.
  destruct (shannon_index_reads_positive_counts [5; 0; 5; -2]) as (_ & H & _).
  destruct (shannon_index_reads_positive_counts [0; -2]) as (_ & _ & H0).
  split.
  - apply (H [5] [5; -2] 0); [reflexivity | lra].
  - apply H0. repeat constructor; lra.
Defined.

Local Close Scope R_scope.

(* ================================================================== *)
(** ** Shape of the diversity table *)

Lemma nodup_length_le (l : list string) :
  (List.length (nodup string_dec l) <= List.length l)%nat.
Proof.
  induction l as [|x l IH]; simpl; [lia|].
  destruct (in_dec string_dec x l); simpl; lia.
Qed.

(** The rows of a group of [groupby]: the rows of its key, and at least
    one. *)
Lemma groupby_group {K V : Type} `{KeyOrd K} (key : V -> option K) (l : list V)
    (k : K) (G : list V) :
  In (k, G) (groupby key l) ->
  G = filter (key_is key k) l /\ exists v, In v G /\ key v = Some k.
Proof.
  intros Hin. rewrite groupby_expand in Hin.
  apply in_map_iff in Hin. destruct Hin as (k' & [= -> <-] & Hk).
  split; [reflexivity|].
  apply groupby_keys in Hk. destruct Hk as (v & Hv & Hkv).
  exists v. split; [|exact Hkv].
  apply filter_In. split; [exact Hv|]. unfold key_is. rewrite Hkv.
  apply keqb_refl.
Qed.

Lemma nunique_perm (l l' : list string) :
  Permutation l l' -> nunique l = nunique l'.
Proof.
  intros Hp. unfold nunique. apply Permutation_length.
  apply NoDup_Permutation; try apply NoDup_nodup.
  intros x. rewrite !nodup_In. split; apply Permutation_in; [|apply Permutation_sym];
    exact Hp.
Qed.

Lemma div_row_perm (k : string * Z) (G G' : list Row) :
  Permutation G G' -> div_row (k, G) = div_row (k, G').
Proof.
  intros Hp. unfold div_row. cbn [fst snd].
  rewrite (groupby_sum_perm taxon_key G G' Hp).
  now rewrite (nunique_perm _ _ (Permutation_map display_name Hp)).
Qed.

(** X13 (lines 80-93 of [main.py], [compute_diversity]): the diversity
    table has its rows in ascending order of (site, year), one row per
    pair; the richness of a row is at least 1 and at most the number of
    records of its group, and its Shannon index is not negative; the
    table does not depend on the order of the records. *)
Theorem diversity_rows_bounds (arth df : DataFrame) :
  taxon_col arth = Some "display_name" ->
  has_cols full_columns df = true ->
  exists divs,
    compute_diversity arth df = Ok divs /\
    StronglySorted klt (map (fun d => (d_site_code d, d_year d)) divs) /\
    (forall d, In d divs ->
       1 <= richness d
         <= Z.of_nat (List.length (group_rows (d_site_code d) (d_year d) (rows df))) /\
       (0 <= shannon d)%R) /\
    (forall df', columns df' = columns df -> Permutation (rows df) (rows df') ->
                 compute_diversity arth df' = Ok divs).
Proof.
  intros Ht Hc. rewrite (compute_diversity_ok _ _ Ht Hc).
  eexists. split; [reflexivity|]. split; [|split].
  3: { intros df' Hcols Hp.
       rewrite (compute_diversity_ok _ _ Ht (has_cols_columns _ _ _ Hcols Hc)).
       f_equal.
       pose proof (groupby_keys_perm site_year_key _ _ Hp) as Hk.
       pose proof (groupby_expand site_year_key (rows df)) as E1.
       pose proof (groupby_expand site_year_key (rows df')) as E2.
       rewrite <- Hk in E2. rewrite E1, E2, !map_map.
       apply map_ext. intros k. apply div_row_perm.
       apply Permutation_sym, filter_perm, Hp. }
  - rewrite map_map.
    rewrite (map_ext _ fst); [apply groupby_sorted|].
    intros [[site yr] G]. reflexivity.
  - intros d Hd. apply in_map_iff in Hd. destruct Hd as ([[site yr] G] & <- & Hin).
    destruct (groupby_group _ _ _ _ Hin) as (EG & v & Hv & _).
    destruct (div_row_spec (site, yr) G) as (-> & -> & Hr & Hs).
    cbn [fst snd].
    assert (EG' : G = group_rows site yr (rows df)).
    { rewrite EG. unfold group_rows. apply filter_ext. intros r.
      apply key_is_site_year. }
    rewrite <- EG'.
    assert (Hne : (1 <= List.length (distinct_taxa G))%nat).
    { destruct (distinct_taxa G) as [|t ts] eqn:E; [|simpl; lia].
      exfalso. assert (Hin' : In (display_name v) (distinct_taxa G)).
      { apply distinct_taxa_spec. eauto. }
      now rewrite E in Hin'. }
    assert (Hle : (List.length (distinct_taxa G) <= List.length G)%nat).
    { unfold distinct_taxa. rewrite <- (length_map display_name G).
      apply nodup_length_le. }
    split; [rewrite Hr; lia|].
    rewrite Hs, <- shannon_index_IZR. apply shannon_index_nonneg.
Qed.

(** X13 on the demo table: two groups, (S1, 2020) with two taxa and
    (S2, 2021) with one; the record without a date is in no group. *)
Lemma diversity_rows_bounds_witness :
  exists divs,
    compute_diversity demo_arth demo_arth = Ok divs /\
    map (fun d => (d_site_code d, d_year d, richness d)) divs
    = [("S1", 2020, 2); ("S2", 2021, 1)] /\
    (forall d, In d divs ->
       1 <= richness d /\ (0 <= shannon d)%R).
Proof.
  assert (Hc : has_cols full_columns demo_arth = true) by reflexivity.
  assert (Ht : taxon_col demo_arth = Some "display_name") by reflexivity.
  destruct (diversity_rows_bounds demo_arth demo_arth Ht Hc) as (divs & E & _ & H & _).
  exists divs. split; [exact E|].
  split; [|intros d Hd; destruct (H d Hd) as [[H1 _] H2]; now split].
  rewrite (compute_diversity_ok _ _ Ht Hc) in E. injection E as <-.
  set (gs := groupby site_year_key (rows demo_arth)).
  vm_compute in gs. subst gs. reflexivity.
Defined.

(* ================================================================== *)
(** ** The aggregates of the callback *)

Lemma add_to_group_total {K : Type} `{KeyOrd K} (k : K) (r : Row)
    (gs : list (K * list Row)) :
  sum_Z (map (fun g => sum_counts (snd g)) (add_to_group k r gs))
  = count r + sum_Z (map (fun g => sum_counts (snd g)) gs).
Proof.
  induction gs as [|[k' vs] gs IH]; simpl.
  - unfold sum_counts. simpl. lia.
  - destruct (kcmp k k'); simpl.
    + unfold sum_counts. simpl. unfold sum_Z. lia.
    + unfold sum_counts. simpl. unfold sum_Z. lia.
    + unfold sum_Z in *. rewrite IH. lia.
Qed.

(** Grouping conserves the counts: the group totals add up to the total
    of the rows that have a key. *)
Lemma groupby_sum_total {K : Type} `{KeyOrd K} (key : Row -> option K)
    (rs : list Row) :
  sum_Z (map snd (groupby_sum key rs))
  = sum_counts (filter (fun r => match key r with Some _ => true | None => false end) rs).
Proof.
  unfold groupby_sum. rewrite map_map. cbn [snd].
  induction rs as [|r rs IH]; [reflexivity|].
  cbn [groupby filter]. destruct (key r) as [k|].
  - rewrite add_to_group_total, IH. unfold sum_counts. simpl. unfold sum_Z. lia.
  - exact IH.
Qed.

Lemma groupby_sum_total_all {K : Type} `{KeyOrd K} (key : Row -> option K)
    (rs : list Row) :
  (forall r, key r <> None) ->
  sum_Z (map snd (groupby_sum key rs)) = sum_counts rs.
Proof.
  intros Hk. rewrite groupby_sum_total. f_equal. apply filter_true.
  intros r _. specialize (Hk r). now destruct (key r).
Qed.

Lemma collapse_other_count (top : list string) (r : Row) :
  count (collapse_other top r) = count r /\
  site_code (collapse_other top r) = site_code r /\
  display_name (collapse_other top r)
  = if isin (display_name r) top then display_name r else "Other".
Proof. unfold collapse_other. destruct (isin (display_name r) top); repeat split. Qed.

(** What the callback hands out, the summary line included. *)
Lemma update_visuals_parts (arth : DataFrame) (pd : string -> option Timestamp)
    (srt : sorter) (sites taxa traps : list string) (sd ed : option string)
    (v : Visuals) :
  has_cols full_columns arth = true ->
  update_visuals arth pd srt sites taxa traps sd ed = Ok v ->
  exists g,
    apply_filters arth pd arth sites taxa traps sd ed = Ok g /\
    has_cols full_columns g = true /\
    table_data v = rows g /\
    ts_fig v = Some (stable_sort month_leb (groupby_sum month_site_key (rows g))) /\
    div_fig v = (match map div_row (groupby site_year_key (rows g)) with
                 | [] => None
                 | d => Some d
                 end) /\
    comp_fig v = (if empty g then None
                  else Some (groupby_sum site_taxon_key
                         (map (collapse_other
                                 (map fst (firstn 10 (sort_values_desc srt
                                             (groupby_sum taxon_key (rows g))))))
                              (rows g)))) /\
    landuse_fig v = landuse_quarter g /\
    map_fig v = (match filter has_coords (rows g) with
                 | [] => None
                 | _ => Some (groupby_sum coord_key (rows g))
                 end) /\
    summary arth g = Ok (record_count v).
Proof.
  intros H. unfold update_visuals.
  destruct (apply_filters arth pd arth sites taxa traps sd ed) as [g|e] eqn:Eg;
    [|discriminate].
  destruct (apply_filters_arth _ _ _ _ _ _ _ _ H Eg) as [Hc _].
  assert (Hg : has_cols full_columns g = true) by (eapply has_cols_columns; eauto).
  pose proof (taxon_col_present arth H) as Htc.
  cbn [bind]. rewrite (monthly_ts_ok g Hg). cbn [bind].
  rewrite (diversity_fig_ok arth g Htc Hg). cbn [bind].
  rewrite (composition_ok arth srt g Htc Hg). cbn [bind].
  rewrite (site_map_ok g Hg). cbn [bind].
  destruct (summary arth g) as [rc|e] eqn:Es; [|discriminate]. cbn [bind].
  intros [= <-]. exists g. simpl. repeat split; auto.
Qed.

(** X14 (lines 214-216, 231-238, 245-250 and 275-279 of [main.py]): the
    aggregates conserve the counts.  The totals of the monthly series, of
    the composition table and of the quarter-by-region table each add up
    to the total count of the filtered table; the totals of the map add up
    to the total count of its records that have both coordinates. *)
Theorem aggregates_conserve_counts (arth : DataFrame)
    (pd : string -> option Timestamp) (srt : sorter)
    (sites taxa traps : list string) (sd ed : option string) (v : Visuals) :
  has_cols full_columns arth = true ->
  update_visuals arth pd srt sites taxa traps sd ed = Ok v ->
  (exists ts, ts_fig v = Some ts /\
              sum_Z (map snd ts) = sum_counts (table_data v)) /\
  (forall comp, comp_fig v = Some comp ->
                sum_Z (map snd comp) = sum_counts (table_data v)) /\
  (forall l, landuse_fig v = Some l ->
             sum_Z (map snd l) = sum_counts (table_data v)) /\
  (forall m, map_fig v = Some m ->
             sum_Z (map snd m) = sum_counts (filter has_coords (table_data v))).
Proof.
  intros H Hv.
  destruct (update_visuals_parts _ _ _ _ _ _ _ _ _ H Hv)
    as (g & _ & Hg & -> & Hts & _ & Hcomp & Hlu & Hmap & _).
  split; [|split; [|split]].
  - eexists. split; [exact Hts|].
    rewrite <- (sum_Z_perm _ _ (Permutation_map snd (stable_sort_perm month_leb _))).
    apply groupby_sum_total_all. discriminate.
  - intros comp Hc. rewrite Hcomp in Hc. destruct (empty g); [discriminate|].
    injection Hc as <-. rewrite groupby_sum_total_all by discriminate.
    apply sum_counts_map. intros r. apply collapse_other_count.
  - intros l Hl. rewrite Hlu, (landuse_quarter_ok g Hg) in Hl.
    destruct (empty g); [discriminate|]. injection Hl as <-.
    rewrite <- (sum_Z_perm _ _ (Permutation_map snd (stable_sort_perm region_quarter_leb _))).
    rewrite map_map. cbn [snd].
    change (map (fun x : string * string * Z => snd x)
              (groupby_sum region_quarter_key (rows g)))
      with (map snd (groupby_sum region_quarter_key (rows g))).
    apply groupby_sum_total_all. discriminate.
  - intros m Hm. rewrite Hmap in Hm.
    destruct (filter has_coords (rows g)) as [|r0 rest] eqn:E; [discriminate|].
    injection Hm as <-. rewrite <- E, groupby_sum_total. f_equal.
    apply filter_ext. intros r. unfold coord_key, has_coords.
    now destruct (lat r), (lon r).
Qed.

(** X14 on the demo table without any filter: every aggregate adds up to
    17 but the map, which leaves out the 3 of the site without
    coordinates. *)
Lemma aggregates_conserve_counts_witness :
  exists v ts m,
    update_visuals demo_arth iso_date insertion_sort [] [] [] None None = Ok v /\
    ts_fig v = Some ts /\ sum_Z (map snd ts) = 17 /\
    map_fig v = Some m /\ sum_Z (map snd m) = 14.
Proof.
  assert (Hc : has_cols full_columns demo_arth = true) by reflexivity.
  destruct (update_visuals_returns demo_arth iso_date insertion_sort [] [] [] None None Hc)
    as (v & E); [discriminate|].
  destruct (aggregates_conserve_counts _ _ _ _ _ _ _ _ _ Hc E)
    as ((ts & Hts & Hsum) & _ & _ & Hmap).
  destruct (update_visuals_parts _ _ _ _ _ _ _ _ _ Hc E)
    as (g & Eg & _ & Ht & _ & _ & _ & _ & Hm & _).
  vm_compute in Eg. injection Eg as <-.
  match type of Hm with _ = ?rhs => set (m := rhs) in Hm end.
  vm_compute in m.
  match eval unfold m in m with
  | Some ?l => exists v, ts, l
  end.
  split; [exact E|]. split; [exact Hts|].
  split; [rewrite Hsum, Ht; reflexivity|].
  split; [exact Hm|].
  rewrite (Hmap _ Hm), Ht. reflexivity.
Defined.

Lemma key_is_site_taxon (site t : string) (r : Row) :
  key_is site_taxon_key (site, t) r
  = String.eqb (site_code r) site && String.eqb (display_name r) t.
Proof.
  apply eq_iff_eq_true. unfold key_is, site_taxon_key.
  rewrite keqb_eq, andb_true_iff, !String.eqb_eq. split.
  - intros [= -> ->]. auto.
  - intros [<- <-]. reflexivity.
Qed.

Lemma sum_counts_filter_map (f : Row -> Row) (p : Row -> bool) (l : list Row) :
  (forall r, count (f r) = count r) ->
  sum_counts (filter p (map f l)) = sum_counts (filter (fun r => p (f r)) l).
Proof.
  intros H. rewrite map_filter_comm. now apply sum_counts_map.
Qed.

(** X15 (lines 231-238 of [main.py], 129-135 of [streamlit_app.py]): the
    composition table shows, per site, the ten top taxa of the filtered
    table and the label "Other".  The total of a top taxon at a site is the
    sum of the counts of its records at this site; the total of "Other" is
    the sum of the counts of the records of the site whose taxon is not
    among the ten; the rows come in ascending order of (site, label).  Both
    front ends compute the same table. *)
Theorem composition_top_ten_and_other (arth : DataFrame) (srt : sorter)
    (g : DataFrame) (comp : list ((string * string) * Z)) :
  taxon_col arth = Some "display_name" ->
  has_cols full_columns g = true ->
  composition arth srt g = Ok (Some comp) ->
  exists top,
    top_taxa arth srt g 10 = Ok top /\ (List.length top <= 10)%nat /\
    composition_st arth srt g = Ok (Some comp) /\
    StronglySorted klt (map fst comp) /\
    (forall site t z, In ((site, t), z) comp -> In t top \/ t = "Other") /\
    (forall site t z, In ((site, t), z) comp -> In t top -> t <> "Other" ->
       z = sum_counts (filter (fun r => String.eqb (site_code r) site
                                        && String.eqb (display_name r) t) (rows g))) /\
    (forall site z, In ((site, "Other"), z) comp -> ~ In "Other" top ->
       z = sum_counts (filter (fun r => String.eqb (site_code r) site
                                        && negb (isin (display_name r) top)) (rows g))).
Proof.
  intros Ht Hc Hcomp.
  rewrite (composition_ok arth srt g Ht Hc) in Hcomp.
  rewrite (composition_st_ok arth srt g Ht Hc), (top_taxa_ok arth srt g 10 Ht Hc).
  remember (map fst (firstn 10 (sort_values_desc srt (groupby_sum taxon_key (rows g)))))
    as top eqn:Etop.
  destruct (empty g); [discriminate|]. injection Hcomp as <-.
  exists top. split; [reflexivity|].
  split; [rewrite Etop, length_map; apply firstn_le_length|].
  clear Etop.
  split; [reflexivity|]. split; [apply groupby_sum_sorted|].
  assert (Htot : forall site t,
    group_total site_taxon_key (site, t) (map (collapse_other top) (rows g))
    = sum_counts (filter (fun r => String.eqb (site_code r) site
                           && String.eqb (if isin (display_name r) top
                                          then display_name r else "Other") t)
                    (rows g))).
  { intros site t. unfold group_total.
    rewrite sum_counts_filter_map by (intros r; apply collapse_other_count).
    f_equal. apply filter_ext. intros r. rewrite key_is_site_taxon.
    destruct (collapse_other_count top r) as (_ & E1 & E2).
    now rewrite E1, E2. }
  split; [|split].
  - intros site t z Hin. apply groupby_sum_In in Hin.
    destruct Hin as ((r' & Hr' & Hk) & _).
    apply in_map_iff in Hr'. destruct Hr' as (r & <- & _).
    unfold site_taxon_key in Hk. injection Hk as _ <-.
    destruct (collapse_other_count top r) as (_ & _ & ->).
    destruct (isin (display_name r) top) eqn:E; [left; now apply isin_In | now right].
  - intros site t z Hin Htop Hne. apply groupby_sum_In in Hin.
    destruct Hin as (_ & ->). rewrite Htot. f_equal. apply filter_ext. intros r.
    f_equal. destruct (isin (display_name r) top) eqn:E; [reflexivity|].
    assert (E1 : String.eqb "Other" t = false)
      by (apply String.eqb_neq; congruence).
    assert (E2 : String.eqb (display_name r) t = false).
    { apply String.eqb_neq. intros Heq. apply isin_In in Htop.
      rewrite <- Heq in Htop. congruence. }
    now rewrite E1, E2.
  - intros site z Hin Hno. apply groupby_sum_In in Hin.
    destruct Hin as (_ & ->). rewrite Htot. f_equal. apply filter_ext. intros r.
    f_equal. destruct (isin (display_name r) top) eqn:E; [|reflexivity].
    cbn [negb]. apply String.eqb_neq. intros Heq. apply Hno.
    rewrite <- Heq. now apply isin_In.
Qed.

(** X15 on the demo table: three taxa, all among the top ten, so that no
    row is labelled "Other". *)
Lemma composition_top_ten_and_other_witness :
  exists comp top,
    composition demo_arth insertion_sort demo_arth = Ok (Some comp) /\
    top_taxa demo_arth insertion_sort demo_arth 10 = Ok top /\
    top = ["Ant"; "Bee"; "Fly"] /\
    comp = [(("S1", "Ant"), 5); (("S1", "Bee"), 5); (("S2", "Ant"), 4);
            (("S3", "Fly"), 3)].
Proof.
  assert (Hc : has_cols full_columns demo_arth = true) by reflexivity.
  assert (Ht : taxon_col demo_arth = Some "display_name") by reflexivity.
  assert (E : composition demo_arth insertion_sort demo_arth
              = Ok (Some [(("S1", "Ant"), 5); (("S1", "Bee"), 5); (("S2", "Ant"), 4);
                          (("S3", "Fly"), 3)])) by reflexivity.
  destruct (composition_top_ten_and_other _ _ _ _ Ht Hc E) as (top & Etop & _).
  exists [(("S1", "Ant"), 5); (("S1", "Bee"), 5); (("S2", "Ant"), 4);
          (("S3", "Fly"), 3)], top.
  split; [exact E|]. split; [exact Etop|]. split; [|reflexivity].
  vm_compute in Etop. now injection Etop as <-.
Defined.

Lemma key_is_month_site (m s : string) (r : Row) :
  key_is month_site_key (m, s) r
  = String.eqb (month r) m && String.eqb (site_code r) s.
Proof.
  apply eq_iff_eq_true. unfold key_is, month_site_key.
  rewrite keqb_eq, andb_true_iff, !String.eqb_eq. split.
  - intros [= -> ->]. auto.
  - intros [<- <-]. reflexivity.
Qed.

Lemma String_leb_iff (a b : string) :
  String.leb a b = true <-> a = b \/ klt a b.
Proof.
  unfold String.leb, klt. cbn [kcmp string_KeyOrd].
  destruct (String.compare a b) eqn:E.
  - apply String.compare_eq_iff in E. tauto.
  - tauto.
  - split; [discriminate|]. intros [-> | H]; [|discriminate].
    pose proof (proj2 (kcmp_eq (K := string) b b) eq_refl) as R.
    cbn [kcmp string_KeyOrd] in R. congruence.
Qed.

Lemma String_leb_trans (a b c : string) :
  String.leb a b = true -> String.leb b c = true -> String.leb a c = true.
Proof.
  rewrite !String_leb_iff. intros [-> | H1] [-> | H2]; auto.
  right. exact (kcmp_trans _ _ _ H1 H2).
Qed.

Lemma monthly_ts_by_ok (srt : series_sorter) (g : DataFrame) :
  has_cols full_columns g = true ->
  monthly_ts_by srt g = Ok (Some (srt (groupby_sum month_site_key (rows g)))).
Proof.
  intros H. unfold monthly_ts_by.
  assert (has_col "month" g = true) as -> by col_present H.
  assert (has_col "site_code" g = true) as Hs by col_present H.
  assert (has_col "count" g = true) as Hc by col_present H.
  now rewrite (require_ok _ _ Hs), (require_ok _ _ Hc).
Qed.

Lemma month_leb_le (x y : (string * string) * Z) :
  month_leb x y = true <-> month_le x y.
Proof.
  unfold month_leb, month_le, String.leb.
  destruct (String.compare (fst (fst x)) (fst (fst y)));
    split; congruence.
Qed.

(** The sort with which the callback is modelled is a sort by month. *)
Lemma stable_sort_sorts_months : sorts_months (stable_sort month_leb).
Proof.
  intros l. split; [apply stable_sort_perm|].
  assert (Hs : StronglySorted (fun x y => month_leb x y = true)
                 (stable_sort month_leb l)).
  { apply stable_sort_sorted.
    - intros x y. apply String.leb_total.
    - intros x y z. apply String_leb_trans. }
  induction Hs as [|x l' Hl IH Hx]; constructor; [exact IH|].
  eapply Forall_impl; [|exact Hx]. intros y Hy. now apply month_leb_le.
Qed.

(** X16 (lines 214-220 of [main.py]): whichever sort by month line 216
    runs, the monthly series has exactly one row per (month, site) that
    occurs in the filtered table, carrying the sum of the counts of its
    records; its rows are in ascending order of the month text; and it
    does not depend on the order of the records.  Nothing is said of the
    order of the sites within a month, which the sort does not fix. *)
Theorem monthly_series_ordered (srt : series_sorter) (g : DataFrame) :
  sorts_months srt ->
  has_cols full_columns g = true ->
  exists ts,
    monthly_ts_by srt g = Ok (Some ts) /\
    StronglySorted month_le ts /\
    NoDup (map fst ts) /\
    (forall m s z, In ((m, s), z) ts <->
       (exists r, In r (rows g) /\ month r = m /\ site_code r = s) /\
       z = sum_counts (filter (fun r => String.eqb (month r) m
                                        && String.eqb (site_code r) s) (rows g))) /\
    (forall g', columns g' = columns g -> Permutation (rows g) (rows g') ->
                monthly_ts_by srt g' = Ok (Some ts)).
Proof.
  intros Hsrt Hc.
  destruct (Hsrt (groupby_sum month_site_key (rows g))) as [Hperm Hsorted].
  exists (srt (groupby_sum month_site_key (rows g))).
  split; [apply (monthly_ts_by_ok srt g Hc)|].
  split; [exact Hsorted|]. split; [|split].
  - eapply Permutation_NoDup; [apply Permutation_map; exact Hperm|].
    eapply StronglySorted_NoDup; [|apply groupby_sum_sorted].
    apply klt_irrefl.
  - intros m s z.
    assert (Hin : In ((m, s), z) (srt (groupby_sum month_site_key (rows g)))
                  <-> In ((m, s), z) (groupby_sum month_site_key (rows g))).
    { split; apply Permutation_in; [apply Permutation_sym|]; exact Hperm. }
    rewrite Hin, groupby_sum_In. unfold month_site_key at 1.
    unfold group_total.
    rewrite (filter_ext _ _ (key_is_month_site m s)).
    split; intros ((r & Hr & Hk) & Hz); (split; [|exact Hz]); exists r.
    + injection Hk as <- <-. auto.
    + destruct Hk as (<- & <-). auto.
  - intros g' Hcols Hp.
    rewrite (monthly_ts_by_ok srt g' (has_cols_columns _ _ _ Hcols Hc)).
    now rewrite (groupby_sum_perm _ _ _ Hp).
Qed.

(** X16 on the demo table, with the sort of the modelled callback. *)
Lemma monthly_series_ordered_witness :
  exists ts,
    monthly_ts demo_arth = Ok (Some ts) /\
    ts = [(("2020-01", "S1"), 10); (("2021-07", "S2"), 4); (("NaT", "S3"), 3)] /\
    StronglySorted month_le ts /\ NoDup (map fst ts).
Proof.
  assert (Hc : has_cols full_columns demo_arth = true) by reflexivity.
  destruct (monthly_series_ordered (stable_sort month_leb) demo_arth
              stable_sort_sorts_months Hc) as (ts & E & Hs & Hn & _).
  exists ts. split; [exact E|]. split; [|split; assumption].
  vm_compute in E. now injection E as <-.
Defined.

Lemma filter_nonempty {A : Type} (p : A -> bool) (l : list A) (x : A) :
  In x l -> p x = true -> filter p l <> [].
Proof.
  intros Hx Hp E.
  assert (H : In x (filter p l)) by (apply filter_In; auto).
  now rewrite E in H.
Qed.

Lemma groupby_nil_iff {K V : Type} `{KeyOrd K} (key : V -> option K) (l : list V) :
  groupby key l = [] <-> forall v, In v l -> key v = None.
Proof.
  split.
  - intros E v Hv. destruct (key v) as [k|] eqn:Ek; [|reflexivity].
    assert (Hin : In k (map fst (groupby key l))) by (apply groupby_keys; eauto).
    now rewrite E in Hin.
  - intros Hn. destruct (groupby key l) as [|[k vs] gs] eqn:E; [reflexivity|].
    assert (Hin : In k (map fst (groupby key l))) by (rewrite E; now left).
    apply groupby_keys in Hin. destruct Hin as (v & Hv & Hk).
    rewrite (Hn v Hv) in Hk. discriminate.
Qed.

Lemma nunique_nil_iff (l : list string) : nunique l = 0%nat <-> l = [].
Proof.
  unfold nunique. split.
  - destruct l as [|x l]; [reflexivity|]. intros E.
    assert (Hin : In x (nodup string_dec (x :: l))) by (apply nodup_In; now left).
    destruct (nodup string_dec (x :: l)); [destruct Hin | discriminate].
  - now intros ->.
Qed.

Lemma summary_value (arth g : DataFrame) :
  taxon_col arth = Some "display_name" ->
  has_cols full_columns g = true ->
  summary arth g
  = Ok (List.length (rows g), nunique (map site_code (rows g)),
        nunique (map display_name (rows g))).
Proof.
  intros Ht Hc. unfold summary. rewrite Ht.
  assert (Hs : has_col "site_code" g = true) by col_present Hc.
  assert (Hd : has_col "display_name" g = true) by col_present Hc.
  rewrite Hs. unfold require. rewrite Hd. cbn [bind].
  unfold empty. destruct (rows g); reflexivity.
Qed.

(** X17 (lines 210-288 of [main.py], [update_visuals]): when each figure
    is a placeholder.  On a joined table with the columns of the data
    model the monthly series is always drawn; the composition and the
    quarter-by-region figures are placeholders exactly when no record
    passes the filters; the diversity figure exactly when no record that
    passes has a year; the map exactly when no record that passes has both
    coordinates.  The summary line gives the number of records, and at
    least one site and one taxon unless there is no record, when it reads
    0, 0, 0. *)
Theorem placeholders_exactly_when (arth : DataFrame)
    (pd : string -> option Timestamp) (srt : sorter)
    (sites taxa traps : list string) (sd ed : option string) (v : Visuals) :
  has_cols full_columns arth = true ->
  update_visuals arth pd srt sites taxa traps sd ed = Ok v ->
  (exists ts, ts_fig v = Some ts /\ (ts = [] <-> table_data v = [])) /\
  (comp_fig v = None <-> table_data v = []) /\
  (landuse_fig v = None <-> table_data v = []) /\
  (div_fig v = None <-> forall r, In r (table_data v) -> year r = None) /\
  (map_fig v = None <-> forall r, In r (table_data v) -> has_coords r = false) /\
  (exists n s t, record_count v = (n, s, t) /\ n = List.length (table_data v)
                 /\ (s <= n)%nat /\ (t <= n)%nat
                 /\ (n = 0%nat <-> s = 0%nat) /\ (n = 0%nat <-> t = 0%nat)).
Proof.
  intros H Hv.
  destruct (update_visuals_parts _ _ _ _ _ _ _ _ _ H Hv)
    as (g & _ & Hg & Ht & Hts & Hdiv & Hcomp & Hlu & Hmap & Hsum).
  rewrite (summary_value arth g (taxon_col_present arth H) Hg) in Hsum.
  injection Hsum as Hsum. rewrite <- Hsum, Hts, Hdiv, Hcomp, Hlu, Hmap, Ht.
  rewrite (landuse_quarter_ok g Hg). unfold empty.
  assert (Hgs : forall (K : Type) (KO : KeyOrd K) (key : Row -> option K)
                       (l : list Row),
            (forall r, key r <> None) -> groupby_sum key l = [] <-> l = []).
  { intros K KO key l Hk. split; [|now intros ->].
    intros Hs. unfold groupby_sum in Hs. apply map_eq_nil in Hs.
    destruct l as [|x l]; [reflexivity|].
    elim (Hk x). apply (proj1 (groupby_nil_iff key (x :: l)) Hs). now left. }
  assert (Hsort : forall (A : Type) (le : A -> A -> bool) (l : list A),
            stable_sort le l = [] <-> l = []).
  { intros A le l. split; [|now intros ->]. intros Hs.
    apply Permutation_nil. rewrite <- Hs. apply Permutation_sym, stable_sort_perm. }
  split; [|split; [|split; [|split; [|split]]]].
  - eexists. split; [reflexivity|]. rewrite Hsort. apply Hgs. discriminate.
  - destruct (rows g); split; try reflexivity; discriminate.
  - destruct (rows g); split; try reflexivity; discriminate.
  - assert (E : map div_row (groupby site_year_key (rows g)) = []
                <-> forall r, In r (rows g) -> year r = None).
    { split.
      - intros Hm. apply map_eq_nil in Hm. intros r Hr.
        pose proof (proj1 (groupby_nil_iff site_year_key (rows g)) Hm r Hr) as Hk.
        unfold site_year_key in Hk. now destruct (year r).
      - intros Hy.
        assert (Hn : groupby site_year_key (rows g) = []).
        { apply groupby_nil_iff. intros r Hr. unfold site_year_key.
          now rewrite (Hy r Hr). }
        now rewrite Hn. }
    rewrite <- E.
    destruct (map div_row (groupby site_year_key (rows g)));
      split; try reflexivity; discriminate.
  - assert (E : filter has_coords (rows g) = []
                <-> forall r, In r (rows g) -> has_coords r = false).
    { split.
      - intros Hf r Hr. destruct (has_coords r) eqn:Ec; [|reflexivity].
        now elim (filter_nonempty _ _ r Hr Ec).
      - apply filter_false. }
    rewrite <- E.
    destruct (filter has_coords (rows g)); split; try reflexivity; discriminate.
  - do 3 eexists. split; [reflexivity|]. split; [reflexivity|].
    pose proof (nodup_length_le (map site_code (rows g))) as H1.
    pose proof (nodup_length_le (map display_name (rows g))) as H2.
    rewrite length_map in H1, H2.
    pose proof (nunique_nil_iff (map site_code (rows g))) as N1.
    pose proof (nunique_nil_iff (map display_name (rows g))) as N2.
    unfold nunique in *.
    assert (L : forall (f : Row -> string),
              map f (rows g) = [] <-> List.length (rows g) = 0%nat).
    { intros f. destruct (rows g); simpl; split; congruence. }
    rewrite L in N1, N2.
    repeat split; try assumption; try tauto.
Qed.

(** X17 on the demo table: no record of site S9. *)
Lemma placeholders_exactly_when_witness :
  exists v,
    update_visuals demo_arth iso_date insertion_sort ["S9"] [] [] None None = Ok v /\
    table_data v = [] /\ ts_fig v = Some [] /\ comp_fig v = None /\
    landuse_fig v = None /\ div_fig v = None /\ map_fig v = None /\
    record_count v = (0%nat, 0%nat, 0%nat).
Proof.
  assert (Hc : has_cols full_columns demo_arth = true) by reflexivity.
  destruct (update_visuals_returns demo_arth iso_date insertion_sort ["S9"] [] []
              None None Hc) as (v & E); [discriminate|].
  destruct (update_visuals_parts _ _ _ _ _ _ _ _ _ Hc E) as (g & Eg & _ & Ht & _).
  vm_compute in Eg. injection Eg as <-. cbn [rows] in Ht.
  destruct (placeholders_exactly_when _ _ _ _ _ _ _ _ _ Hc E)
    as ((ts & Hts & Hts') & Hcomp & Hlu & Hdiv & Hmap & (n & s & t & Hrc & Hn & _ & _ & Hs0 & Ht0)).
  exists v. split; [exact E|]. split; [exact Ht|].
  split; [now rewrite Hts, (proj2 Hts' Ht)|].
  split; [now apply Hcomp|]. split; [now apply Hlu|].
  split; [apply Hdiv; rewrite Ht; intros r []|].
  split; [apply Hmap; rewrite Ht; intros r []|].
  rewrite Ht in Hn. cbn [List.length] in Hn.
  rewrite Hrc, (proj1 Hs0 Hn), (proj1 Ht0 Hn), Hn. reflexivity.
Defined.

Lemma full_has_filter_columns (arth : DataFrame) :
  has_cols full_columns arth = true -> has_cols filter_columns arth = true.
Proof.
  intros H. unfold has_cols, filter_columns. apply forallb_forall. intros c Hc.
  apply (has_cols_In _ _ _ H). simpl in *. tauto.
Qed.

Lemma streamlit_page_returns (arth : DataFrame) (srt : sorter)
    (sites taxa : list string) (years : list Z) :
  has_cols full_columns arth = true ->
  exists p, streamlit_page arth srt sites taxa years = Ok p.
Proof.
  intros H. unfold streamlit_page.
  pose proof (taxon_col_present arth H) as Htc.
  rewrite (apply_filters_st_eq arth arth sites taxa years
             (full_has_filter_columns arth H) Htc).
  remember (select (fun r => site_ok sites r && taxon_ok taxa r
                             && year_ok years r) arth) as g eqn:Eqg.
  assert (Hg : has_cols full_columns g = true) by (subst g; exact H).
  cbn [bind]. rewrite (summary_value arth g Htc Hg). cbn [bind].
  rewrite (composition_st_ok arth srt g Htc Hg). cbn [bind].
  rewrite (site_map_ok g Hg). cbn [bind]. eauto.
Qed.

(** X18 (lines 210-288 of [main.py], 116-196 of [streamlit_app.py]): on a
    joined table with the columns of the data model, the computation of
    the tables that the callback of [main.py] hands to its plotting calls
    fails in one case only: both date bounds are given and one of them
    does not parse, and the error is then a [ValueError]; in every other
    case the table of each figure, the data table and the summary are all
    computed.  The tables of the page of [streamlit_app.py], which has no
    date bounds, are always computed.  What a plotting call does with its
    table is outside the model. *)
Theorem figure_tables_fail_only_on_dates (arth : DataFrame)
    (pd : string -> option Timestamp) (srt : sorter)
    (sites taxa traps : list string) (sd ed : option string) (years : list Z) :
  has_cols full_columns arth = true ->
  (given sd = true -> given ed = true ->
   pd (bound_text sd) = None \/ pd (bound_text ed) = None ->
   update_visuals arth pd srt sites taxa traps sd ed = Raise ValueError) /\
  (given sd = false \/ given ed = false \/
   (pd (bound_text sd) <> None /\ pd (bound_text ed) <> None) ->
   exists v, update_visuals arth pd srt sites taxa traps sd ed = Ok v) /\
  (exists p, streamlit_page arth srt sites taxa years = Ok p).
Proof.
  intros H. split; [|split].
  - intros Hs He Hp. unfold update_visuals.
    rewrite (apply_filters_eq arth pd arth sites taxa traps sd ed
               (full_has_filter_columns arth H) (taxon_col_present arth H)).
    cbv zeta. rewrite Hs, He. cbn [andb]. unfold to_datetime.
    destruct Hp as [-> | Hp]; [reflexivity|].
    destruct (pd (bound_text sd)); [rewrite Hp|]; reflexivity.
  - intros Hok. apply update_visuals_returns; [exact H|].
    intros Hg. apply andb_true_iff in Hg. destruct Hg as [Hs He].
    destruct Hok as [Hf | [Hf | [H1 H2]]]; try congruence.
    destruct (pd (bound_text sd)) as [s|]; [|congruence].
    destruct (pd (bound_text ed)) as [e|]; [|congruence]. eauto.
  - now apply streamlit_page_returns.
Qed.

(** X18 on the demo table: a start date that does not parse. *)
Lemma figure_tables_fail_only_on_dates_witness :
  update_visuals demo_arth iso_date insertion_sort [] [] []
    (Some "soon") (Some "2020-12-31") = Raise ValueError /\
  (exists v, update_visuals demo_arth iso_date insertion_sort [] [] []
               (Some "soon") None = Ok v) /\
  (exists p, streamlit_page demo_arth insertion_sort [] [] [] = Ok p).
Proof.
  assert (Hc : has_cols full_columns demo_arth = true) by reflexivity.
  split; [|split].
  - apply (figure_tables_fail_only_on_dates demo_arth iso_date insertion_sort [] [] []
             (Some "soon") (Some "2020-12-31") [] Hc); [reflexivity..|].
    left. reflexivity.
  - apply (figure_tables_fail_only_on_dates demo_arth iso_date insertion_sort [] [] []
             (Some "soon") None [] Hc). right. left. reflexivity.
  - apply (figure_tables_fail_only_on_dates demo_arth iso_date insertion_sort [] [] []
             None None [] Hc).
Defined.

(* ================================================================== *)
(** ** The filter options *)

Lemma unique_In (l : list string) :
  forall seen x, In x (unique seen l) <-> In x l /\ ~ In x seen.
Proof.
  induction l as [|a l IH]; intros seen x; simpl; [tauto|].
  destruct (isin a seen) eqn:E.
  - rewrite IH. apply isin_In in E. split; [tauto|].
    intros [[-> | H] Hn]; tauto.
  - assert (Ha : ~ In a seen) by (rewrite <- isin_In, E; discriminate).
    simpl. rewrite IH. simpl. split.
    + intros [<- | [H Hn]]; tauto.
    + intros [[-> | H] Hn]; [now left|].
      destruct (string_dec a x) as [-> | Hne]; [now left | right; tauto].
Qed.

Lemma unique_NoDup (l : list string) : forall seen, NoDup (unique seen l).
Proof.
  induction l as [|a l IH]; intros seen; simpl; [constructor|].
  destruct (isin a seen); [apply IH|].
  constructor; [|apply IH]. rewrite unique_In. simpl. tauto.
Qed.

Lemma unique_Z_In (l : list Z) :
  forall seen x, In x (unique_Z seen l) <-> In x l /\ ~ In x seen.
Proof.
  induction l as [|a l IH]; intros seen x; simpl; [tauto|].
  destruct (isin_Z a seen) eqn:E.
  - rewrite IH. apply isin_Z_In in E. split; [tauto|].
    intros [[-> | H] Hn]; tauto.
  - assert (Ha : ~ In a seen) by (rewrite <- isin_Z_In, E; discriminate).
    simpl. rewrite IH. simpl. split.
    + intros [<- | [H Hn]]; tauto.
    + intros [[-> | H] Hn]; [now left|].
      destruct (Z.eq_dec a x) as [-> | Hne]; [now left | right; tauto].
Qed.

Lemma unique_Z_NoDup (l : list Z) : forall seen, NoDup (unique_Z seen l).
Proof.
  induction l as [|a l IH]; intros seen; simpl; [constructor|].
  destruct (isin_Z a seen); [apply IH|].
  constructor; [|apply IH]. rewrite unique_Z_In. simpl. tauto.
Qed.

(** A sorted list without repetition is strictly ascending. *)
Lemma sorted_NoDup_strict {A : Type} (le : A -> A -> bool) (lt : A -> A -> Prop)
    (l : list A) :
  (forall x y, le x y = true -> x <> y -> lt x y) ->
  StronglySorted (fun x y => le x y = true) l -> NoDup l -> StronglySorted lt l.
Proof.
  intros Hlt Hs. induction Hs as [|x l Hs IH Hx]; intros Hnd; [constructor|].
  inversion Hnd as [|? ? Hin Hnd']; subst.
  constructor; [now apply IH|].
  rewrite Forall_forall in *. intros y Hy. apply Hlt; [now apply Hx|].
  intros ->. now apply Hin.
Qed.

Lemma sorted_unique_spec (l : list string) :
  StronglySorted klt (sorted (unique [] l)) /\
  (forall x, In x (sorted (unique [] l)) <-> In x l).
Proof.
  unfold sorted. split.
  - apply (sorted_NoDup_strict String.leb).
    + intros x y Hxy Hne. apply String_leb_iff in Hxy. tauto.
    + apply stable_sort_sorted; [apply String.leb_total | apply String_leb_trans].
    + apply (Permutation_NoDup (stable_sort_perm String.leb _)), unique_NoDup.
  - intros x. rewrite stable_sort_In, unique_In. simpl. tauto.
Qed.

Lemma sorted_unique_Z_spec (l : list Z) :
  StronglySorted Z.lt (sorted_Z (unique_Z [] l)) /\
  (forall x, In x (sorted_Z (unique_Z [] l)) <-> In x l).
Proof.
  unfold sorted_Z. split.
  - apply (sorted_NoDup_strict Z.leb).
    + intros x y Hxy Hne. apply Z.leb_le in Hxy. lia.
    + apply stable_sort_sorted.
      * intros x y. rewrite !Z.leb_le. lia.
      * intros x y z. rewrite !Z.leb_le. lia.
    + apply (Permutation_NoDup (stable_sort_perm Z.leb _)), unique_Z_NoDup.
  - intros x. rewrite stable_sort_In, unique_Z_In. simpl. tauto.
Qed.

(** X19 (lines 102-105 and 110-113 of [main.py], line 102 of
    [streamlit_app.py]): the site and trap options are in strictly
    ascending order, without repetition, and list exactly the values that
    occur in the joined table; selecting one offered value alone returns
    the records with this value, and there is at least one. *)
Theorem site_and_trap_options_select_records (arth : DataFrame)
    (pd : string -> option Timestamp) :
  StronglySorted klt (site_options arth) /\
  StronglySorted klt (trap_options arth) /\
  (has_col "site_code" arth = true ->
   forall s, In s (site_options arth) <-> exists r, In r (rows arth) /\ site_code r = s) /\
  (has_col "trap_name" arth = true ->
   forall t, In t (trap_options arth) <-> exists r, In r (rows arth) /\ trap_name r = t) /\
  (forall s, In s (site_options arth) ->
     exists g, apply_filters arth pd arth [s] [] [] None None = Ok g /\
               rows g <> [] /\
               rows g = filter (fun r => String.eqb (site_code r) s) (rows arth)) /\
  (forall t, In t (trap_options arth) ->
     exists g, apply_filters arth pd arth [] [] [t] None None = Ok g /\
               rows g <> [] /\
               rows g = filter (fun r => String.eqb (trap_name r) t) (rows arth)).
Proof.
  unfold site_options, trap_options.
  assert (Hm : forall (f : Row -> string) (x : string),
            In x (map f (rows arth)) <-> exists r, In r (rows arth) /\ f r = x).
  { intros f x. rewrite in_map_iff. split; intros (r & H1 & H2); eauto. }
  split; [destruct (has_col "site_code" arth);
          [apply sorted_unique_spec | constructor]|].
  split; [destruct (has_col "trap_name" arth);
          [apply sorted_unique_spec | constructor]|].
  split; [intros ->; intros s;
          now rewrite (proj2 (sorted_unique_spec _)), Hm|].
  split; [intros ->; intros t;
          now rewrite (proj2 (sorted_unique_spec _)), Hm|].
  split.
  - intros s Hs. destruct (has_col "site_code" arth) eqn:Hc; [|destruct Hs].
    apply (proj2 (sorted_unique_spec _)), Hm in Hs. destruct Hs as (r & Hr & Er).
    rewrite apply_filters_nf, Hc. unfold taxa_active. cbn [selected andb negb].
    rewrite date_step_none. eexists. split; [reflexivity|].
    assert (E : rows (select (list_ok arth arth [s] [] []) arth)
                = filter (fun r => String.eqb (site_code r) s) (rows arth)).
    { cbn [select rows]. apply filter_ext. intros x.
      unfold list_ok, site_ok, taxa_active, traps_active, isin.
      cbn [selected andb negb orb existsb]. now rewrite !andb_true_r, orb_false_r. }
    rewrite E. split; [|reflexivity].
    apply (filter_nonempty _ _ r Hr). rewrite Er. apply String.eqb_refl.
  - intros t Ht. destruct (has_col "trap_name" arth) eqn:Hc; [|destruct Ht].
    apply (proj2 (sorted_unique_spec _)), Hm in Ht. destruct Ht as (r & Hr & Er).
    rewrite apply_filters_nf. unfold taxa_active. cbn [selected andb negb].
    rewrite date_step_none. eexists. split; [reflexivity|].
    assert (E : rows (select (list_ok arth arth [] [] [t]) arth)
                = filter (fun r => String.eqb (trap_name r) t) (rows arth)).
    { cbn [select rows]. apply filter_ext. intros x.
      unfold list_ok, site_ok, taxa_active, traps_active, isin. rewrite Hc.
      cbn [selected andb negb orb existsb]. now rewrite orb_false_r. }
    rewrite E. split; [|reflexivity].
    apply (filter_nonempty _ _ r Hr). rewrite Er. apply String.eqb_refl.
Qed.

(** X20 (lines 104-113 of [streamlit_app.py]): the year
    options are the years that occur in the joined table, in strictly
    ascending order; selecting one offered year alone returns the records
    of this year, and there is at least one; a record without a date is
    under no year option. *)
Theorem year_options_select_records (arth : DataFrame) :
  StronglySorted Z.lt (year_values arth) /\
  (has_col "year" arth = true ->
   forall y, In y (year_values arth) <-> exists r, In r (rows arth) /\ year r = Some y) /\
  (forall y, In y (year_values arth) ->
     exists g, apply_filters_st arth arth [] [] [y] = Ok g /\
               rows g <> [] /\
               rows g = filter (fun r => match year r with
                                         | Some y' => y' =? y
                                         | None => false
                                         end) (rows arth)).
Proof.
  unfold year_values.
  assert (Hm : forall y, In y (filter_map year (rows arth))
                         <-> exists r, In r (rows arth) /\ year r = Some y)
    by (intros y; apply filter_map_In).
  split; [destruct (has_col "year" arth);
          [apply sorted_unique_Z_spec | constructor]|].
  split; [intros ->; intros y;
          now rewrite (proj2 (sorted_unique_Z_spec _)), Hm|].
  intros y Hy. destruct (has_col "year" arth) eqn:Hc; [|destruct Hy].
  apply (proj2 (sorted_unique_Z_spec _)), Hm in Hy. destruct Hy as (r & Hr & Er).
  rewrite apply_filters_st_nf. unfold taxa_active. cbn [selected andb negb].
  eexists. split; [reflexivity|].
  assert (E : rows (select (list_ok_st arth arth [] [] [y]) arth)
              = filter (fun r => match year r with
                                 | Some y' => y' =? y
                                 | None => false
                                 end) (rows arth)).
  { cbn [select rows]. apply filter_ext. intros x.
    unfold list_ok_st, site_ok, taxa_active, years_active, year_isin, isin_Z.
    rewrite Hc. cbn [selected andb negb orb existsb].
    destruct (year x); [now rewrite orb_false_r | reflexivity]. }
  rewrite E. split; [|reflexivity].
  apply (filter_nonempty _ _ r Hr). rewrite Er. apply Z.eqb_refl.
Qed.

(* ================================================================== *)
(** ** The default date range *)

Lemma ts_leb_refl (a : Timestamp) : ts_leb a a = true.
Proof. apply ts_leb_spec. lia. Qed.

Lemma ts_leb_trans (a b c : Timestamp) :
  ts_leb a b = true -> ts_leb b c = true -> ts_leb a c = true.
Proof. rewrite !ts_leb_spec. lia. Qed.

Lemma ts_leb_total (a b : Timestamp) : ts_leb a b = true \/ ts_leb b a = true.
Proof. rewrite !ts_leb_spec. lia. Qed.

Lemma fold_ts_min (l : list Timestamp) :
  forall t,
    In (fold_left ts_min l t) (t :: l) /\
    (forall d, In d (t :: l) -> ts_leb (fold_left ts_min l t) d = true).
Proof.
  induction l as [|a l IH]; intros t; cbn [fold_left].
  - split; [now left|]. intros d [<- | []]. apply ts_leb_refl.
  - destruct (IH (ts_min t a)) as (Hin & Hle). split.
    + destruct Hin as [E | Hin]; [|right; now right].
      rewrite <- E. unfold ts_min. destruct (ts_leb t a); [now left | right; now left].
    + assert (Hm : ts_leb (fold_left ts_min l (ts_min t a)) (ts_min t a) = true)
        by (apply Hle; now left).
      intros d [<- | [<- | Hd]].
      * apply (ts_leb_trans _ _ _ Hm). unfold ts_min.
        destruct (ts_leb t a) eqn:E; [apply ts_leb_refl|].
        destruct (ts_leb_total t a); congruence.
      * apply (ts_leb_trans _ _ _ Hm). unfold ts_min.
        destruct (ts_leb t a) eqn:E; [exact E | apply ts_leb_refl].
      * apply Hle. now right.
Qed.

Lemma fold_ts_max (l : list Timestamp) :
  forall t,
    In (fold_left ts_max l t) (t :: l) /\
    (forall d, In d (t :: l) -> ts_leb d (fold_left ts_max l t) = true).
Proof.
  induction l as [|a l IH]; intros t; cbn [fold_left].
  - split; [now left|]. intros d [<- | []]. apply ts_leb_refl.
  - destruct (IH (ts_max t a)) as (Hin & Hle). split.
    + destruct Hin as [E | Hin]; [|right; now right].
      rewrite <- E. unfold ts_max. destruct (ts_leb t a); [right; now left | now left].
    + assert (Hm : ts_leb (ts_max t a) (fold_left ts_max l (ts_max t a)) = true)
        by (apply Hle; now left).
      intros d [<- | [<- | Hd]].
      * apply (fun H => ts_leb_trans _ _ _ H Hm). unfold ts_max.
        destruct (ts_leb t a) eqn:E; [exact E | apply ts_leb_refl].
      * apply (fun H => ts_leb_trans _ _ _ H Hm). unfold ts_max.
        destruct (ts_leb t a) eqn:E; [apply ts_leb_refl|].
        destruct (ts_leb_total t a); congruence.
      * apply Hle. now right.
Qed.

(** X21 (lines 115-116 and 136-142 of [main.py], with the date range of
    lines 189-192): the first and the last sample date of the joined table
    are dates of its records and bound the dates of all its records.  With
    the date picker at its initial range, from the first to the last sample
    date, the filter keeps every dated record and drops exactly the records
    without a date. *)
Theorem default_date_range_keeps_dated (arth : DataFrame)
    (pd : string -> option Timestamp) (sd ed : string) (s e : Timestamp) :
  min_date arth = Some s -> max_date arth = Some e ->
  pd sd = Some s -> pd ed = Some e -> sd <> "" -> ed <> "" ->
  (exists r, In r (rows arth) /\ sample_date r = Some s) /\
  (exists r, In r (rows arth) /\ sample_date r = Some e) /\
  (forall r d, In r (rows arth) -> sample_date r = Some d ->
               ts_leb s d = true /\ ts_leb d e = true) /\
  apply_filters arth pd arth [] [] [] (Some sd) (Some ed)
  = Ok (select has_date arth).
Proof.
  unfold min_date, max_date. intros Hmin Hmax Hs He Hsd Hed.
  destruct (has_col "sample_date" arth) eqn:Hc; [|discriminate].
  unfold series_min in Hmin. unfold series_max in Hmax.
  destruct (filter_map sample_date (rows arth)) as [|t l] eqn:E; [discriminate|].
  injection Hmin as <-. injection Hmax as <-.
  destruct (fold_ts_min l t) as (Hin1 & Hle1).
  destruct (fold_ts_max l t) as (Hin2 & Hle2).
  rewrite <- E in Hin1, Hin2, Hle1, Hle2.
  split; [now apply filter_map_In in Hin1|].
  split; [now apply filter_map_In in Hin2|].
  assert (Hb : forall r d, In r (rows arth) -> sample_date r = Some d ->
                 ts_leb (fold_left ts_min l t) d = true
                 /\ ts_leb d (fold_left ts_max l t) = true).
  { intros r d Hr Hd.
    assert (Hin : In d (filter_map sample_date (rows arth)))
      by (apply filter_map_In; eauto).
    split; [now apply Hle1 | now apply Hle2]. }
  split; [exact Hb|].
  rewrite apply_filters_nf. unfold taxa_active. cbn [selected andb negb].
  unfold date_step, to_datetime, given.
  rewrite has_col_select, Hc. cbn [bound_text].
  rewrite (proj2 (String.eqb_neq sd "") Hsd), (proj2 (String.eqb_neq ed "") Hed).
  cbn [andb negb]. rewrite Hs, He. cbn [bind]. rewrite select_select.
  unfold select. cbn [columns rows]. do 2 f_equal. apply filter_ext_in. intros r Hr.
  unfold list_ok, site_ok, taxa_active, traps_active, in_range, has_date.
  cbn [selected andb negb orb].
  destruct (sample_date r) as [d|] eqn:Ed; [|reflexivity].
  destruct (Hb r d Hr Ed) as (-> & ->). reflexivity.
Qed.

(** X21 on the demo table: the dated records run from 2020-01-15 to
    2021-07-04; the record whose date does not parse is dropped. *)
Lemma default_date_range_keeps_dated_witness :
  min_date demo_arth = Some {| ts_year := 2020; ts_month := 1; ts_day := 15 |} /\
  max_date demo_arth = Some {| ts_year := 2021; ts_month := 7; ts_day := 4 |} /\
  List.length (rows demo_arth) = 4%nat /\
  exists g,
    apply_filters demo_arth iso_date demo_arth [] [] []
      (Some "2020-01-15") (Some "2021-07-04") = Ok g /\
    map site_code (rows g) = ["S1"; "S1"; "S2"].
Proof.
  split; [reflexivity|]. split; [reflexivity|]. split; [reflexivity|].
  destruct (default_date_range_keeps_dated demo_arth iso_date
              "2020-01-15" "2021-07-04"
              {| ts_year := 2020; ts_month := 1; ts_day := 15 |}
              {| ts_year := 2021; ts_month := 7; ts_day := 4 |})
    as (_ & _ & _ & E); try reflexivity; try discriminate.
  rewrite E. eexists. split; reflexivity.
Defined.

Lemma NoDup_firstn {A : Type} (n : nat) (l : list A) : NoDup l -> NoDup (firstn n l).
Proof.
  intros H. rewrite <- (firstn_skipn n l) in H. now apply NoDup_app_remove_r in H.
Qed.

Lemma In_firstn {A : Type} (n : nat) (l : list A) (x : A) :
  In x (firstn n l) -> In x l.
Proof.
  intros H. rewrite <- (firstn_skipn n l). apply in_or_app. now left.
Qed.

(** The ranked totals: the taxa of the table, each once. *)
Lemma ranked_taxa (srt : sorter) (rs : list Row) :
  (forall l, Permutation l (srt l)) ->
  let tot := sort_values_desc srt (groupby_sum taxon_key rs) in
  NoDup (map fst tot) /\
  (forall t, In t (map fst tot) <-> exists r, In r rs /\ display_name r = t) /\
  List.length tot = List.length (distinct_taxa rs).
Proof.
  intros Hsrt tot.
  assert (Hp : Permutation (map fst (groupby_sum taxon_key rs)) (map fst tot))
    by (apply Permutation_map, sort_values_desc_perm, Hsrt).
  split; [|split].
  - apply (Permutation_NoDup Hp).
    apply (StronglySorted_NoDup klt); [apply klt_irrefl | apply groupby_sum_sorted].
  - intros t. split.
    + intros Hin. apply (Permutation_in _ (Permutation_sym Hp)) in Hin.
      rewrite groupby_sum_keys in Hin. apply groupby_keys in Hin.
      destruct Hin as (r & Hr & [= Hk]). eauto.
    + intros (r & Hr & Hk). apply (Permutation_in _ Hp).
      rewrite groupby_sum_keys. apply groupby_keys. exists r. split; [exact Hr|].
      unfold taxon_key. now rewrite Hk.
  - rewrite <- (length_map fst tot), <- (Permutation_length Hp).
    apply Permutation_length, taxon_keys_perm.
Qed.

(** X22 (lines 106-109 of [main.py], line 103 of [streamlit_app.py]): the
    taxon options are at most 100 taxa of the joined table, each once, and
    all its taxa when it has at most 100; both front ends offer the same
    list; selecting one offered taxon alone returns the records of this
    taxon, and there is at least one.  The ten taxa that the composition
    chart shows for the unfiltered table are the first ten options. *)
Theorem taxa_options_top_hundred (arth : DataFrame) (srt : sorter)
    (pd : string -> option Timestamp) :
  has_col "count" arth = true ->
  (forall l, Permutation l (srt l)) ->
  exists opts,
    taxa_options arth srt = Ok opts /\ taxa_values arth srt = Ok opts /\
    (List.length opts <= 100)%nat /\ NoDup opts /\
    top_taxa arth srt arth 10 = Ok (firstn 10 opts) /\
    (forall t, In t opts -> exists r, In r (rows arth) /\ display_name r = t) /\
    (has_col "display_name" arth = true ->
     (List.length (distinct_taxa (rows arth)) <= 100)%nat ->
     forall r, In r (rows arth) -> In (display_name r) opts) /\
    (forall t, In t opts ->
       exists g, apply_filters arth pd arth [] [t] [] None None = Ok g /\
                 rows g <> [] /\
                 rows g = filter (fun r => String.eqb (display_name r) t) (rows arth)).
Proof.
  intros Hcount Hsrt.
  unfold taxa_options, taxa_values, top_taxa, top_taxa_st, taxon_col, taxon_col_of,
    require.
  destruct (has_col "display_name" arth) eqn:Hd.
  - cbv iota beta. rewrite ?Hd, ?Hcount. cbn [bind].
    destruct (ranked_taxa srt (rows arth) Hsrt) as (Hnd & Hin & Hlen).
    remember (sort_values_desc srt (groupby_sum taxon_key (rows arth))) as tot eqn:Etot.
    exists (map fst (firstn 100 tot)).
    split; [reflexivity|]. split.
    { unfold empty. destruct (rows arth) eqn:E; [|reflexivity].
      assert (Htot : tot = []).
      { apply length_zero_iff_nil. rewrite Hlen. reflexivity. }
      now rewrite Htot. }
    split; [rewrite length_map; apply firstn_le_length|].
    split; [rewrite <- firstn_map; now apply NoDup_firstn|].
    split; [now rewrite <- !firstn_map, firstn_firstn|].
    split.
    { intros t Ht. apply Hin. rewrite <- firstn_map in Ht.
      now apply In_firstn in Ht. }
    split.
    { intros _ Hle r Hr. rewrite firstn_all2 by (rewrite Hlen; exact Hle).
      apply Hin. eauto. }
    intros t Ht. rewrite <- firstn_map in Ht. apply In_firstn, Hin in Ht.
    destruct Ht as (r & Hr & Er).
    rewrite apply_filters_nf. unfold taxa_active, taxon_col, taxon_col_of.
    rewrite Hd. cbn [selected andb negb]. rewrite date_step_none.
    eexists. split; [reflexivity|].
    assert (E : rows (select (list_ok arth arth [] [t] []) arth)
                = filter (fun r => String.eqb (display_name r) t) (rows arth)).
    { cbn [select rows]. apply filter_ext. intros x.
      unfold list_ok, site_ok, taxa_active, traps_active, taxon_col, taxon_col_of, isin.
      rewrite Hd. cbn [selected andb negb orb existsb].
      now rewrite andb_true_r, orb_false_r. }
    rewrite E. split; [|reflexivity].
    apply (filter_nonempty _ _ r Hr). rewrite Er. apply String.eqb_refl.
  - exists []. split; [reflexivity|]. split; [reflexivity|].
    split; [simpl; lia|]. split; [constructor|]. split; [reflexivity|].
    split; [intros t []|]. split; [discriminate|]. intros t [].
Qed.

(** X22 on the demo table. *)
Lemma taxa_options_top_hundred_witness :
  taxa_options demo_arth insertion_sort = Ok ["Ant"; "Bee"; "Fly"] /\
  taxa_values demo_arth insertion_sort = Ok ["Ant"; "Bee"; "Fly"] /\
  exists g,
    apply_filters demo_arth iso_date demo_arth [] ["Bee"] [] None None = Ok g /\
    rows g <> [].
Proof.
  destruct (taxa_options_top_hundred demo_arth insertion_sort iso_date)
    as (opts & E1 & E2 & _ & _ & _ & _ & _ & Hsel).
  - reflexivity.
  - intros l. apply insertion_sort_sorts.
  - assert (Eo : opts = ["Ant"; "Bee"; "Fly"]).
    { vm_compute in E1. now injection E1 as <-. }
    subst opts. split; [exact E1|]. split; [exact E2|].
    destruct (Hsel "Bee") as (g & Eg & Hne & _); [simpl; tauto|].
    exists g. split; assumption.
Defined.

(* ================================================================== *)
(** ** The two front ends, and the map *)

(** What the page of [streamlit_app.py] shows. *)
Lemma streamlit_page_parts (arth : DataFrame) (srt : sorter)
    (sites taxa : list string) (years : list Z) (p : Page) :
  has_cols full_columns arth = true ->
  streamlit_page arth srt sites taxa years = Ok p ->
  exists g,
    apply_filters_st arth arth sites taxa years = Ok g /\
    has_cols full_columns g = true /\
    summary arth g = Ok (caption p) /\
    page_comp p = (if empty g then None
                   else Some (groupby_sum site_taxon_key
                          (map (collapse_other
                                  (map fst (firstn 10 (sort_values_desc srt
                                              (groupby_sum taxon_key (rows g))))))
                               (rows g)))) /\
    page_landuse p = landuse_quarter g /\
    page_map p = (match filter has_coords (rows g) with
                  | [] => None
                  | _ => Some (groupby_sum coord_key (rows g))
                  end).
Proof.
  intros H. unfold streamlit_page.
  pose proof (taxon_col_present arth H) as Htc.
  rewrite (apply_filters_st_eq arth arth sites taxa years
             (full_has_filter_columns arth H) Htc).
  remember (select (fun r => site_ok sites r && taxon_ok taxa r
                             && year_ok years r) arth) as g eqn:Eqg.
  assert (Hg : has_cols full_columns g = true) by (subst g; exact H).
  cbn [bind]. rewrite (summary_value arth g Htc Hg). cbn [bind].
  rewrite (composition_st_ok arth srt g Htc Hg). cbn [bind].
  rewrite (site_map_ok g Hg). cbn [bind].
  intros [= <-]. exists g. cbn [caption page_comp page_landuse page_map].
  split; [reflexivity|]. split; [exact Hg|].
  split; [now apply summary_value|]. repeat split.
Qed.

(** X23 (lines 210-288 of [main.py] against lines 116-196 of
    [streamlit_app.py]): for the same selection of sites and taxa, with no
    trap selected and no complete date range in [main.py] and no year
    selected in [streamlit_app.py], the two front ends show the same
    summary numbers, the same composition table, the same
    quarter-by-region table and the same map. *)
Theorem front_ends_agree (arth : DataFrame) (pd : string -> option Timestamp)
    (srt : sorter) (sites taxa : list string) (sd ed : option string)
    (v : Visuals) (p : Page) :
  has_cols full_columns arth = true ->
  given sd && given ed = false ->
  update_visuals arth pd srt sites taxa [] sd ed = Ok v ->
  streamlit_page arth srt sites taxa [] = Ok p ->
  caption p = record_count v /\
  page_comp p = comp_fig v /\
  page_landuse p = landuse_fig v /\
  page_map p = map_fig v.
Proof.
  intros H Hd Hv Hp.
  destruct (update_visuals_parts _ _ _ _ _ _ _ _ _ H Hv)
    as (g & Eg & _ & _ & _ & _ & Hcomp & Hlu & Hmap & Hsum).
  destruct (streamlit_page_parts _ _ _ _ _ _ H Hp)
    as (g' & Eg' & _ & Hsum' & Hcomp' & Hlu' & Hmap').
  pose proof (taxon_col_present arth H) as Htc.
  rewrite (apply_filters_eq arth pd arth sites taxa [] sd ed
             (full_has_filter_columns arth H) Htc) in Eg.
  cbv zeta in Eg. rewrite Hd in Eg.
  rewrite (apply_filters_st_eq arth arth sites taxa []
             (full_has_filter_columns arth H) Htc) in Eg'.
  assert (E : g' = g).
  { injection Eg as <-. injection Eg' as <-. apply select_ext. intros r.
    unfold trap_ok, year_ok. reflexivity. }
  subst g'. rewrite Hsum in Hsum'. injection Hsum' as Hsum'.
  rewrite Hcomp, Hlu, Hmap, Hcomp', Hlu', Hmap'. auto.
Qed.

(** X23 on the demo table, with site S1 selected. *)
Lemma front_ends_agree_witness :
  exists v p,
    update_visuals demo_arth iso_date insertion_sort ["S1"] [] [] None None = Ok v /\
    streamlit_page demo_arth insertion_sort ["S1"] [] [] = Ok p /\
    caption p = record_count v /\ page_comp p = comp_fig v /\
    page_map p = map_fig v.
Proof.
  assert (Hc : has_cols full_columns demo_arth = true) by reflexivity.
  destruct (update_visuals_returns demo_arth iso_date insertion_sort ["S1"] [] []
              None None Hc) as (v & Ev); [discriminate|].
  destruct (streamlit_page_returns demo_arth insertion_sort ["S1"] [] [] Hc)
    as (p & Ep).
  destruct (front_ends_agree demo_arth iso_date insertion_sort ["S1"] [] None None
              v p Hc eq_refl Ev Ep)
    as (H1 & H2 & _ & H4).
  exists v, p. repeat split; assumption.
Defined.

(** The coordinates of a row of the joined table are those that the
    lookup holds for its site. *)
Lemma prepared_coord_key (pf : string -> option Q) (pd : string -> option Timestamp)
    (raw : RawFrame) (sites : SitesFrame) (lu : LanduseFrame) (arth : DataFrame)
    (r : Row) :
  prepare pf pd raw sites lu = Ok arth ->
  In r (rows arth) ->
  coord_key r
  = option_map (fun c => (site_code r, c)) (coords_of (site_code r) (site_lookup sites)).
Proof.
  intros Hp Hr. destruct (prepare_rows_gen _ _ _ _ _ _ Hp) as (fin & Hfin & E).
  rewrite E in Hr.
  apply in_map_iff in Hr. destruct Hr as (r3 & <- & Hr).
  apply in_map_iff in Hr. destruct Hr as (r2 & <- & Hr).
  apply in_flat_map in Hr. destruct Hr as (r1 & Hr1 & Hr).
  apply in_map_iff in Hr1. destruct Hr1 as (r0 & <- & _).
  apply merge_left_In in Hr. destruct Hr as (l & ->).
  set (c := coords_of (site_code r0) (site_lookup sites)).
  set (r := fill_region3 (put_landuse (put_coords r0 c) l)).
  assert (Hs : site_code r = site_code r0)
    by (unfold r; destruct c as [[? ?]|], l as [?|]; reflexivity).
  assert (Hl : lat r = option_map fst c /\ lon r = option_map snd c)
    by (unfold r; destruct c as [[? ?]|], l as [?|]; split; reflexivity).
  unfold coord_key.
  destruct (fin_fields fin r Hfin) as (-> & _ & _ & _ & -> & ->).
  destruct Hl as [-> ->]. rewrite Hs. fold c.
  destruct c as [[x y]|]; reflexivity.
Qed.

(** X24 (lines 275-282 of [main.py], 181-196 of [streamlit_app.py], with
    the lookup of lines 34-51): the map has at most one bubble per site.
    The coordinates of a bubble are those that the lookup holds for its
    site, and its size is the total count of all the records of the site
    in the filtered table. *)
Theorem map_one_bubble_per_site (pf : string -> option Q)
    (pd : string -> option Timestamp) (raw : RawFrame) (sites : SitesFrame)
    (lu : LanduseFrame) (arth : DataFrame) :
  prepare pf pd raw sites lu = Ok arth ->
  raw_complete raw = true ->
  forall srt sel taxa traps sd ed v m,
    update_visuals arth pd srt sel taxa traps sd ed = Ok v ->
    map_fig v = Some m ->
    NoDup (map (fun x => fst (fst x)) m) /\
    (forall s c z, In ((s, c), z) m ->
       coords_of s (site_lookup sites) = Some c /\
       z = sum_counts (filter (fun r => String.eqb (site_code r) s) (table_data v))).
Proof.
  intros Hp Hraw srt sel taxa traps sd ed v m Hv Hm.
  destruct (prepared_full_columns _ _ _ _ _ _ Hp Hraw) as (_ & Hc).
  destruct (update_visuals_parts _ _ _ _ _ _ _ _ _ Hc Hv)
    as (g & Eg & _ & Ht & _ & _ & _ & _ & Hmap & _).
  destruct (apply_filters_arth _ _ _ _ _ _ _ _ Hc Eg) as (_ & Hrows).
  assert (Hsub : forall r, In r (rows g) -> In r (rows arth)).
  { intros r Hr. rewrite Hrows in Hr. now apply filter_In in Hr. }
  assert (Hck : forall r, In r (rows g) ->
            coord_key r = option_map (fun c => (site_code r, c))
                            (coords_of (site_code r) (site_lookup sites))).
  { intros r Hr. apply (prepared_coord_key _ _ _ _ _ _ _ Hp). now apply Hsub. }
  rewrite Hmap in Hm.
  destruct (filter has_coords (rows g)) as [|r0 rest]; [discriminate|].
  injection Hm as <-. rewrite Ht.
  assert (Hkey : forall s c z, In ((s, c), z) (groupby_sum coord_key (rows g)) ->
                   coords_of s (site_lookup sites) = Some c).
  { intros s c z Hin. apply groupby_sum_In in Hin.
    destruct Hin as ((r & Hr & Hk) & _). rewrite (Hck r Hr) in Hk.
    destruct (coords_of (site_code r) (site_lookup sites)) as [c'|] eqn:E;
      [|discriminate].
    simpl in Hk. injection Hk as <- <-. exact E. }
  split.
  - rewrite <- (map_map fst fst). apply NoDup_map_inj.
    + intros [s c] [s' c'] Hx Hy Hs. simpl in Hs. subst s'.
      apply in_map_iff in Hx. destruct Hx as ([k z] & Ek & Hx).
      apply in_map_iff in Hy. destruct Hy as ([k' z'] & Ek' & Hy).
      simpl in Ek, Ek'. subst k k'.
      pose proof (Hkey _ _ _ Hx) as E1. pose proof (Hkey _ _ _ Hy) as E2.
      congruence.
    + apply (StronglySorted_NoDup klt); [apply klt_irrefl | apply groupby_sum_sorted].
  - intros s c z Hin. split; [now apply (Hkey s c z)|].
    pose proof (Hkey _ _ _ Hin) as Ec.
    apply groupby_sum_In in Hin. destruct Hin as (_ & ->).
    unfold group_total. f_equal. apply filter_ext_in. intros r Hr.
    unfold key_is. rewrite (Hck r Hr).
    destruct (String.eqb (site_code r) s) eqn:Es.
    + apply String.eqb_eq in Es. rewrite Es, Ec. simpl. apply keqb_refl.
    + destruct (coords_of (site_code r) (site_lookup sites)) as [c'|];
        [|reflexivity].
      simpl. apply not_true_is_false. intros Hk. apply keqb_eq in Hk.
      injection Hk as Hk _. rewrite Hk, String.eqb_refl in Es. discriminate.
Qed.

(** X24 on the demo table: the bubbles of S1 and S2. *)
Lemma map_one_bubble_per_site_witness :
  exists v m,
    update_visuals demo_arth iso_date insertion_sort [] [] [] None None = Ok v /\
    map_fig v = Some m /\
    map (fun x => (fst (fst x), snd x)) m = [("S1", 10); ("S2", 4)] /\
    NoDup (map (fun x => fst (fst x)) m).
Proof.
  assert (Hc : has_cols full_columns demo_arth = true) by reflexivity.
  assert (Hp : prepare decimal iso_date demo_raw demo_sites demo_landuse = Ok demo_arth)
    by reflexivity.
  destruct (update_visuals_returns demo_arth iso_date insertion_sort [] [] [] None None Hc)
    as (v & E); [discriminate|].
  destruct (update_visuals_parts _ _ _ _ _ _ _ _ _ Hc E)
    as (g & Eg & _ & _ & _ & _ & _ & _ & Hm & _).
  vm_compute in Eg. injection Eg as <-.
  match type of Hm with _ = ?rhs => set (m := rhs) in Hm end.
  vm_compute in m.
  match eval unfold m in m with
  | Some ?l => exists v, l
  end.
  split; [exact E|]. split; [exact Hm|]. split; [reflexivity|].
  apply (map_one_bubble_per_site _ _ _ _ _ _ Hp eq_refl _ _ _ _ _ _ _ _ E Hm).
Defined.

(* ================================================================== *)
(** ** The month text sorts chronologically *)

Lemma zfill4_check :
  forallb (fun n => String.eqb (zfill 4 (str_of_Z (1000 + Z.of_nat n)))
                               (four_digits (1000 + Z.of_nat n)))
          (seq 0 (Z.to_nat 9000)) = true.
Proof. vm_compute. reflexivity. Qed.

Lemma zfill2_check :
  forallb (fun n => String.eqb (zfill 2 (str_of_Z (Z.of_nat n)))
                               (two_digits (Z.of_nat n)))
          (seq 0 (Z.to_nat 100)) = true.
Proof. vm_compute. reflexivity. Qed.

Lemma zfill4_digits (y : Z) :
  1000 <= y <= 9999 -> zfill 4 (str_of_Z y) = four_digits y.
Proof.
  intros Hy. pose proof zfill4_check as H. rewrite forallb_forall in H.
  specialize (H (Z.to_nat (y - 1000))).
  replace (1000 + Z.of_nat (Z.to_nat (y - 1000))) with y in H by lia.
  apply String.eqb_eq, H, in_seq. lia.
Qed.

Lemma zfill2_digits (m : Z) :
  0 <= m <= 99 -> zfill 2 (str_of_Z m) = two_digits m.
Proof.
  intros Hm. pose proof zfill2_check as H. rewrite forallb_forall in H.
  specialize (H (Z.to_nat m)). rewrite Z2Nat.id in H by lia.
  apply String.eqb_eq, H, in_seq. lia.
Qed.

Lemma digit_cases (d : Z) :
  0 <= d <= 9 ->
  d = 0 \/ d = 1 \/ d = 2 \/ d = 3 \/ d = 4 \/ d = 5 \/ d = 6 \/ d = 7 \/ d = 8 \/ d = 9.
Proof. lia. Qed.

Lemma digit_char_compare (d d' : Z) :
  0 <= d <= 9 -> 0 <= d' <= 9 ->
  Ascii.compare (digit_char d) (digit_char d') = (d ?= d').
Proof.
  intros H H'. apply digit_cases in H, H'.
  repeat (destruct H as [-> | H]); try subst d;
    repeat (destruct H' as [-> | H']); try subst d'; reflexivity.
Qed.

Lemma digit_char_before_N (d : Z) :
  0 <= d <= 9 -> Ascii.compare (digit_char d) "N"%char = Lt.
Proof.
  intros H. apply digit_cases in H.
  repeat (destruct H as [-> | H]); try subst d; reflexivity.
Qed.

Lemma period_M_digits (t : Timestamp) :
  1000 <= ts_year t <= 9999 -> 1 <= ts_month t <= 12 ->
  period_M_str (Some t)
  = (four_digits (ts_year t) ++ "-" ++ two_digits (ts_month t))%string.
Proof.
  intros Hy Hm. unfold period_M_str.
  now rewrite zfill4_digits, zfill2_digits by lia.
Qed.

(** X25 (line 67 of [main.py], line 64 of [streamlit_app.py], with the
    sort of line 216): for years of four digits the month text
    "YYYY-MM" orders as the calendar does, so that the monthly series,
    which is sorted by this text, is in chronological order; the text "NaT"
    of the records without a date comes after every month. *)
Theorem month_text_order_is_chronological (a b : Timestamp) :
  1000 <= ts_year a <= 9999 -> 1000 <= ts_year b <= 9999 ->
  1 <= ts_month a <= 12 -> 1 <= ts_month b <= 12 ->
  String.compare (period_M_str (Some a)) (period_M_str (Some b))
  = chrono_compare a b /\
  klt (period_M_str (Some a)) (period_M_str None).
Proof.
  intros Hya Hyb Hma Hmb.
  rewrite (period_M_digits a Hya Hma), (period_M_digits b Hyb Hmb).
  unfold four_digits, two_digits, chrono_compare.
  remember (ts_year a) as y1. remember (ts_year b) as y2.
  remember (ts_month a) as m1. remember (ts_month b) as m2.
  assert (D1 : exists a1 b1 c1 d1,
            y1 / 1000 = a1 /\ y1 / 100 mod 10 = b1 /\ y1 / 10 mod 10 = c1
            /\ y1 mod 10 = d1 /\ y1 = 1000 * a1 + 100 * b1 + 10 * c1 + d1
            /\ 0 <= a1 <= 9 /\ 0 <= b1 <= 9 /\ 0 <= c1 <= 9 /\ 0 <= d1 <= 9).
  { do 4 eexists. repeat (split; [reflexivity|]).
    Z.div_mod_to_equations. lia. }
  assert (D2 : exists a2 b2 c2 d2,
            y2 / 1000 = a2 /\ y2 / 100 mod 10 = b2 /\ y2 / 10 mod 10 = c2
            /\ y2 mod 10 = d2 /\ y2 = 1000 * a2 + 100 * b2 + 10 * c2 + d2
            /\ 0 <= a2 <= 9 /\ 0 <= b2 <= 9 /\ 0 <= c2 <= 9 /\ 0 <= d2 <= 9).
  { do 4 eexists. repeat (split; [reflexivity|]).
    Z.div_mod_to_equations. lia. }
  assert (M1 : exists e1 f1, m1 / 10 = e1 /\ m1 mod 10 = f1 /\ m1 = 10 * e1 + f1
                             /\ 0 <= e1 <= 9 /\ 0 <= f1 <= 9).
  { do 2 eexists. repeat (split; [reflexivity|]). Z.div_mod_to_equations. lia. }
  assert (M2 : exists e2 f2, m2 / 10 = e2 /\ m2 mod 10 = f2 /\ m2 = 10 * e2 + f2
                             /\ 0 <= e2 <= 9 /\ 0 <= f2 <= 9).
  { do 2 eexists. repeat (split; [reflexivity|]). Z.div_mod_to_equations. lia. }
  destruct D1 as (a1 & b1 & c1 & d1 & -> & -> & -> & -> & Ey1 & Ha1 & Hb1 & Hc1 & Hd1).
  destruct D2 as (a2 & b2 & c2 & d2 & -> & -> & -> & -> & Ey2 & Ha2 & Hb2 & Hc2 & Hd2).
  destruct M1 as (e1 & f1 & -> & -> & Em1 & He1 & Hf1).
  destruct M2 as (e2 & f2 & -> & -> & Em2 & He2 & Hf2).
  split.
  - cbn [String.append String.compare].
    rewrite !digit_char_compare by assumption.
    change (Ascii.compare "-" "-") with Eq. cbv iota.
    clear Heqy1 Heqy2 Heqm1 Heqm2 Hya Hyb Hma Hmb.
    destruct (Z.compare_spec a1 a2);
      [destruct (Z.compare_spec b1 b2);
       [destruct (Z.compare_spec c1 c2);
        [destruct (Z.compare_spec d1 d2);
         [destruct (Z.compare_spec e1 e2);
          [destruct (Z.compare_spec f1 f2)|..]|..]|..]|..]|..];
      destruct (Z.compare_spec y1 y2); try lia;
      try reflexivity;
      destruct (Z.compare_spec m1 m2); try lia; reflexivity.
  - unfold klt. cbn [kcmp string_KeyOrd period_M_str String.append String.compare].
    now rewrite digit_char_before_N.
Qed.

(** X25 for July 2021 against January 2020 and December 2021. *)
Lemma month_text_order_is_chronological_witness :
  String.compare "2021-07" "2020-01" = Gt /\
  String.compare "2021-07" "2021-12" = Lt /\
  klt "2021-07" "NaT".
Proof.
  pose (a := {| ts_year := 2021; ts_month := 7; ts_day := 4 |}).
  pose (b := {| ts_year := 2020; ts_month := 1; ts_day := 15 |}).
  pose (c := {| ts_year := 2021; ts_month := 12; ts_day := 1 |}).
  destruct (month_text_order_is_chronological a b) as (H1 & H2);
    [simpl; lia..|].
  destruct (month_text_order_is_chronological a c) as (H3 & _);
    [simpl; lia..|].
  split; [exact H1|]. split; [exact H3 | exact H2].
Defined.

(* ================================================================== *)
(** ** The totals of the quarter-by-region table *)

Lemma key_is_region_quarter (reg q : string) (r : Row) :
  key_is region_quarter_key (reg, q) r
  = String.eqb (region3 r) reg && String.eqb (quarter r) q.
Proof.
  apply eq_iff_eq_true. unfold key_is, region_quarter_key.
  rewrite keqb_eq, andb_true_iff, !String.eqb_eq. split.
  - intros [= -> ->]. auto.
  - intros [<- <-]. reflexivity.
Qed.

(** X26 (lines 245-257 of [main.py], 153-163 of [streamlit_app.py]): the
    quarter-by-region table has one row per (region, quarter text) that
    occurs in the filtered table; its total is the sum of the counts of the
    records of this region and quarter text; its label is the quarter text
    when this is one of Q1..Q4 and is missing otherwise. *)
Theorem quarter_region_totals (g : DataFrame)
    (out : list ((string * option string) * Z)) :
  landuse_quarter g = Some out ->
  (forall reg l z, In ((reg, l), z) out <->
     exists q, l = categorical q /\
               (exists r, In r (rows g) /\ region3 r = reg /\ quarter r = q) /\
               z = sum_counts (filter (fun r => String.eqb (region3 r) reg
                                                && String.eqb (quarter r) q) (rows g))) /\
  (forall reg q z, In ((reg, Some q), z) out <->
     In q q_order /\
     (exists r, In r (rows g) /\ region3 r = reg /\ quarter r = q) /\
     z = sum_counts (filter (fun r => String.eqb (region3 r) reg
                                      && String.eqb (quarter r) q) (rows g))) /\
  List.length out = List.length (groupby region_quarter_key (rows g)).
Proof.
  unfold landuse_quarter.
  destruct (has_col "region3" g && has_col "quarter" g && has_col "count" g
            && negb (empty g)); [|discriminate].
  intros [= <-].
  assert (Hgen : forall reg l z,
    In ((reg, l), z)
       (stable_sort region_quarter_leb
          (map (fun x : string * string * Z =>
                  ((fst (fst x), categorical (snd (fst x))), snd x))
               (groupby_sum region_quarter_key (rows g)))) <->
    exists q, l = categorical q /\
              (exists r, In r (rows g) /\ region3 r = reg /\ quarter r = q) /\
              z = sum_counts (filter (fun r => String.eqb (region3 r) reg
                                               && String.eqb (quarter r) q) (rows g))).
  { intros reg l z. rewrite stable_sort_In, in_map_iff. split.
    - intros ([[reg' q] z'] & [= -> <- ->] & Hin). cbn [fst snd].
      apply groupby_sum_In in Hin. destruct Hin as ((r & Hr & Hk) & ->).
      exists q. split; [reflexivity|]. split.
      + unfold region_quarter_key in Hk. injection Hk as <- <-. eauto.
      + unfold group_total. f_equal. apply filter_ext. intros x.
        apply key_is_region_quarter.
    - intros (q & -> & (r & Hr & <- & <-) & ->).
      exists ((region3 r, quarter r),
              group_total region_quarter_key (region3 r, quarter r) (rows g)).
      split.
      + cbn [fst snd]. f_equal. unfold group_total. f_equal.
        apply filter_ext. intros x. apply key_is_region_quarter.
      + apply groupby_sum_In. split; [|reflexivity]. exists r. split; [exact Hr|].
        reflexivity. }
  split; [exact Hgen|]. split.
  - intros reg q z. rewrite Hgen. unfold categorical. split.
    + intros (q' & E & Hr & Hz). destruct (isin q' q_order) eqn:Ei; [|discriminate].
      injection E as ->. split; [now apply isin_In | auto].
    + intros (Hq & Hr & Hz). exists q. apply isin_In in Hq. rewrite Hq. auto.
  - rewrite <- (Permutation_length (stable_sort_perm region_quarter_leb _)).
    unfold groupby_sum. now rewrite !length_map.
Qed.

(** X26 on the demo table. *)
Lemma quarter_region_totals_witness :
  exists out,
    landuse_quarter demo_arth = Some out /\
    out = [(("Desert", Some "Q3"), 4); (("Unknown", None), 3);
           (("Urban", Some "Q1"), 10)] /\
    In (("Urban", Some "Q1"),
        sum_counts (filter (fun r => String.eqb (region3 r) "Urban"
                                     && String.eqb (quarter r) "Q1") (rows demo_arth)))
       out.
Proof.
  assert (E : landuse_quarter demo_arth
              = Some [(("Desert", Some "Q3"), 4); (("Unknown", None), 3);
                      (("Urban", Some "Q1"), 10)]) by reflexivity.
  destruct (quarter_region_totals demo_arth _ E) as (_ & H & _).
  eexists. split; [exact E|]. split; [reflexivity|].
  apply H. split; [simpl; tauto|]. split; [|reflexivity].
  eexists. split; [left; reflexivity|]. split; reflexivity.
Defined.
